(** * embsh: a shallow embedding of the command registry, the line editor
      and the telnet login of the embedded debug shell

    Sources embedded here:
    - include/embsh/command_registry.hpp  (ShellSplit, CommandRegistry,
      ShellPrintf)
    - include/embsh/line_editor.hpp       (Session and the editor functions)
    - include/embsh/telnet_server.hpp     (TelnetServer::RunAuth)

    Conventions.
    - A byte ([char], [uint8_t]) is a [Z] in [0, 256).  [char] values are
      kept as their unsigned representation; the code only compares them
      for equality with constants.
    - [uint32_t] and [uint8_t] counters are [Z] with the wrap-around of
      their arithmetic written out ([u32], [u8]).
    - A C array is a [list Z]; [get]/[set] index it with a [Z].
    - A C string argument ([const char*]) is the list of its bytes without
      the terminating NUL; a string held in an array is read back with
      [cstr]. *)

From Stdlib Require Import String Ascii ZArith Lia.
From stdpp Require Import base numbers list.

Local Open Scope Z_scope.

(** ** Machine integers *)

Definition u32 (x : Z) : Z := x mod 4294967296.
Definition u8 (x : Z) : Z := x mod 256.

(** ** C arrays and strings *)

Module Mem.

(** [a[i]] *)
Definition get (a : list Z) (i : Z) : Z := a !!! Z.to_nat i.

(** [a[i] = v] *)
Definition set (a : list Z) (i : Z) (v : Z) : list Z := <[Z.to_nat i := v]> a.

(** [n] bytes of [a] starting at offset [off]. *)
Definition slice (a : list Z) (off n : Z) : list Z :=
  take (Z.to_nat n) (drop (Z.to_nat off) a).

(** Overwrite [a] from offset [off] on with the bytes [src]; the array
    keeps its size. *)
Fixpoint store (a : list Z) (off : nat) (src : list Z) : list Z :=
  match src with
  | [] => a
  | b :: src' => store (<[off := b]> a) (S off) src'
  end.

(** [std::memcpy(dst, src, n)] *)
Definition memcpy (dst src : list Z) (n : Z) : list Z :=
  store dst 0 (slice src 0 n).

(** [std::memmove(&a[d], &a[s], n)]: the source bytes are read before
    any byte is written. *)
Definition memmove (a : list Z) (d s n : Z) : list Z :=
  store a (Z.to_nat d) (slice a s n).

(** The C string starting at the head of [a]: the bytes before the first
    NUL. *)
Fixpoint cstr (a : list Z) : list Z :=
  match a with
  | [] => []
  | b :: a' => if b =? 0 then [] else b :: cstr a'
  end.

(** The C string at [&a[off]]. *)
Definition cstr_at (a : list Z) (off : Z) : list Z := cstr (drop (Z.to_nat off) a).

(** [std::strlen] *)
Definition strlen (a : list Z) : Z := Z.of_nat (length (cstr a)).

(** [std::strcmp(a, b) == 0] on the strings' bytes. *)
Definition streq (a b : list Z) : bool := bool_decide (a = b).

(** [std::strncmp(a, b, n) == 0] for C strings [a] and [b]: they agree
    on their first [n] bytes, a string that ends earlier comparing as
    NUL-padded. *)
Definition strneq (a b : list Z) (n : Z) : bool :=
  bool_decide (take (Z.to_nat n) a = take (Z.to_nat n) b).

(** A string literal. *)
Definition lit (s : string) : list Z :=
  map (fun c => Z.of_nat (nat_of_ascii c)) (list_ascii_of_string s).

End Mem.
Import Mem.

(** ** command_registry.hpp: ShellSplit *)

Definition EMBSH_MAX_COMMANDS : Z := 64.
Definition EMBSH_MAX_ARGS : Z := 32.

Definition SPACE : Z := 32.
Definition TAB : Z := 9.
Definition DQUOTE : Z := 34.
Definition SQUOTE : Z := 39.
Definition BACKSLASH : Z := 92.

Definition is_blank (c : Z) : bool := (c =? SPACE) || (c =? TAB).
Definition is_quote (c : Z) : bool := (c =? DQUOTE) || (c =? SQUOTE).

Module Split.

(** The loops of ShellSplit scan [cmd] between [i] and [length]; every
    iteration increments [i] or decrements [length].  Each loop below
    keeps the source's guard and recurses on a counter [n] that its
    caller sets to [length - i], the number of iterations the guard
    allows at most. *)

(** [while (i < length && (cmd[i] == ' ' || cmd[i] == '\t')) { cmd[i] = '\0'; ++i; }] *)
Fixpoint skip_blanks (n : nat) (cmd : list Z) (i length : Z) : list Z * Z :=
  match n with
  | O => (cmd, i)
  | S n' =>
      if (i <? length) && is_blank (get cmd i)
      then skip_blanks n' (set cmd i 0) (u32 (i + 1)) length
      else (cmd, i)
  end.

(** The body of a quoted argument:
    [while (i < length && cmd[i] != quote) { if (cmd[i] == '\\' && (i + 1) < length)
       { memmove(&cmd[i], &cmd[i + 1], length - i - 1); --length; } else { ++i; } }] *)
Fixpoint scan_quoted (n : nat) (quote : Z) (cmd : list Z) (i length : Z)
  : list Z * Z * Z :=
  match n with
  | O => (cmd, i, length)
  | S n' =>
      if (i <? length) && negb (get cmd i =? quote)
      then
        if (get cmd i =? BACKSLASH) && (u32 (i + 1) <? length)
        then scan_quoted n' quote
               (memmove cmd i (u32 (i + 1)) (u32 (u32 (length - i) - 1)))
               i (u32 (length - 1))
        else scan_quoted n' quote cmd (u32 (i + 1)) length
      else (cmd, i, length)
  end.

(** [while (i < length && cmd[i] != ' ' && cmd[i] != '\t') { ++i; }] *)
Fixpoint scan_word (n : nat) (cmd : list Z) (i length : Z) : Z :=
  match n with
  | O => i
  | S n' =>
      if (i <? length) && negb (is_blank (get cmd i))
      then scan_word n' cmd (u32 (i + 1)) length
      else i
  end.

(** State of the outer loop. [argv] holds the [argc] pointers stored so
    far, each as its offset into [cmd]. *)
Record st := St { cmd : list Z; length : Z; i : Z; argc : Z; argv : list Z }.

Definition remaining (s : st) : nat := Z.to_nat (length s - i s).

(** One iteration of [while (i < length && argc < EMBSH_MAX_ARGS)], its
    guard already passed.  [inl] is a [break], [inr] the end of the
    body. *)
Definition body (s : st) : st + st :=
  let '(cmd1, i1) := skip_blanks (remaining s) (cmd s) (i s) (length s) in
  if i1 >=? length s then inl (St cmd1 (length s) i1 (argc s) (argv s))
  else if is_quote (get cmd1 i1) then
    let quote := get cmd1 i1 in
    let cmd2 := set cmd1 i1 0 in
    let i2 := u32 (i1 + 1) in
    if i2 >=? length s then inl (St cmd2 (length s) i2 (argc s) (argv s))
    else
      let argv' := argv s ++ [i2] in
      let argc' := argc s + 1 in
      let '(cmd3, i3, length3) :=
        scan_quoted (Z.to_nat (length s - i2)) quote cmd2 i2 (length s) in
      if i3 <? length3
      then inr (St (set cmd3 i3 0) length3 (u32 (i3 + 1)) argc' argv')
      else inr (St cmd3 length3 i3 argc' argv')
  else
    let argv' := argv s ++ [i1] in
    let argc' := argc s + 1 in
    let i2 := scan_word (Z.to_nat (length s - i1)) cmd1 i1 (length s) in
    inr (St cmd1 (length s) i2 argc' argv').

(** The outer loop.  Every iteration that does not break stores one
    argument, so [n] is set to [EMBSH_MAX_ARGS - argc]. *)
Fixpoint loop (n : nat) (s : st) : st :=
  match n with
  | O => s
  | S n' =>
      if (i s <? length s) && (argc s <? EMBSH_MAX_ARGS)
      then match body s with
           | inl s' => s'
           | inr s' => loop n' s'
           end
      else s
  end.

End Split.

(** [ShellSplit(cmd, length, argv)]: the returned [argc], the buffer as
    the call leaves it, and the [argc] pointers written to [argv]. *)
Definition ShellSplit (cmd : list Z) (length : Z) : Z * list Z * list Z :=
  let s := Split.loop (Z.to_nat EMBSH_MAX_ARGS) (Split.St cmd length 0 0 []) in
  (Split.argc s, Split.cmd s, Split.argv s).

(** The argument strings a caller reads through [argv]. *)
Definition tokens (r : Z * list Z * list Z) : list (list Z) :=
  let '(_, cmd, argv) := r in map (cstr_at cmd) argv.

(** ** types.hpp *)

Inductive ShellError :=
| kOk | kRegistryFull | kDuplicateName | kAuthFailed | kPortInUse
| kAlreadyRunning | kNotRunning | kDeviceOpenFailed | kInvalidArgument.

(** [expected<V, E>] *)
Inductive expected (V E : Type) :=
| success (v : V)
| error (e : E).
Arguments success {V E} v.
Arguments error {V E} e.

(** A [void*]: null, the address of the session being driven, or some
    other address. *)
Inductive ptr := nullptr | session_ptr | addr (a : Z).

(** ** command_registry.hpp: CommandRegistry *)

(** [CmdFn] is a function pointer, kept as its address. *)
Definition CmdFn := Z.

(** [struct CmdEntry].  [desc] may be a null pointer. *)
Record CmdEntry := mkCmdEntry {
  name : list Z;
  desc : option (list Z);
  fn : CmdFn;
  ctx : ptr
}.

(** [CmdEntry{}]; its [name] stands for the null pointer of a slot never
    registered, which the code does not read. *)
Definition CmdEntry0 : CmdEntry := mkCmdEntry [] None 0 nullptr.

#[global] Instance CmdEntry_inhabited : Inhabited CmdEntry := populate CmdEntry0.

(** The data members of [class CommandRegistry]: the table
    [cmds_[EMBSH_MAX_COMMANDS]] and [count_]. *)
Record CommandRegistry := mkRegistry {
  cmds_ : list CmdEntry;
  count_ : Z
}.

(** The registry as constructed. *)
Definition Instance0 : CommandRegistry :=
  mkRegistry (replicate (Z.to_nat EMBSH_MAX_COMMANDS) CmdEntry0) 0.

(** The slots [cmds_[0 .. count_)] that the loops of the class visit. *)
Definition used (reg : CommandRegistry) : list CmdEntry :=
  take (Z.to_nat (count_ reg)) (cmds_ reg).

(** [for (i = 0; i < count_; ++i) if (strcmp(cmds_[i].name, name) == 0) return ...]:
    the first visited slot whose name is [nm], with its index. *)
Definition scan_name (reg : CommandRegistry) (nm : list Z) : option (nat * CmdEntry) :=
  list_find (fun e => name e = nm) (used reg).

(** [CommandRegistry::Register(name, fn, ctx, desc)] *)
Definition Register (reg : CommandRegistry) (nm : list Z) (f : CmdFn) (c : ptr)
    (d : option (list Z)) : expected unit ShellError * CommandRegistry :=
  match scan_name reg nm with
  | Some _ => (error kDuplicateName, reg)
  | None =>
      if count_ reg >=? EMBSH_MAX_COMMANDS then (error kRegistryFull, reg)
      else (success tt,
            mkRegistry (<[Z.to_nat (count_ reg) := mkCmdEntry nm d f c]> (cmds_ reg))
                       (u32 (count_ reg + 1)))
  end.

(** [CommandRegistry::Find(name)]: the entry pointed to, [None] for
    [nullptr]. *)
Definition Find (reg : CommandRegistry) (nm : list Z) : option CmdEntry :=
  snd <$> scan_name reg nm.

(** [CommandRegistry::Count()] *)
Definition Count (reg : CommandRegistry) : Z := count_ reg.

(** [j = 0; while (j < common && first[j] == other[j]) ++j;] on two C
    strings: [other] ends, at the latest, where its NUL meets a byte of
    [first]. *)
Fixpoint common_len (common : nat) (first other : list Z) : nat :=
  match common, first, other with
  | S c, a :: first', b :: other' =>
      if a =? b then S (common_len c first' other') else O
  | _, _, _ => O
  end.

(** [CommandRegistry::AutoComplete(prefix, out_buf, buf_size)], for
    non-null [prefix] and [out_buf]: the match count and [out_buf] as the
    call leaves it. *)
Definition AutoComplete (reg : CommandRegistry) (prefix : list Z)
    (out_buf : list Z) (buf_size : Z) : Z * list Z :=
  if buf_size =? 0 then (0, out_buf)
  else
    let prefix_len := u32 (Z.of_nat (length prefix)) in
    let matches :=
      filter (fun e => strneq (name e) prefix prefix_len = true) (used reg) in
    match matches with
    | [] => (0, set out_buf 0 0)
    | [e] =>
        let full := name e in
        let len := u32 (Z.of_nat (length full)) in
        let n := if len <? u32 (buf_size - 1) then len else u32 (buf_size - 1) in
        (1, set (memcpy out_buf full n) n 0)
    | e :: others =>
        let first := name e in
        let common :=
          fold_left (fun common o => common_len common first (name o)) others
                    (Z.to_nat (u32 (Z.of_nat (length first)))) in
        let common := Z.of_nat common in
        let n := if common <? u32 (buf_size - 1) then common else u32 (buf_size - 1) in
        (u32 (Z.of_nat (length matches)), set (memcpy out_buf first n) n 0)
    end.

(** ** line_editor.hpp: Session *)

Definition EMBSH_LINE_BUF_SIZE : Z := 256.
Definition EMBSH_HISTORY_SIZE : Z := 16.

Inductive EscState := EscNone | EscEsc | EscBracket.
Inductive IacState := IacNormal | IacIac | IacNego | IacSub.

(** [struct Session].  [write_fn] is a function pointer, [0] when null;
    the descriptors, [read_fn] and the unused [auth_user_buf] are left
    out: the bytes read and written are in the [World] below. *)
Record Session := mkSession {
  write_fn : Z;
  line_buf : list Z;
  line_pos : Z;
  history : list (list Z);
  hist_count : Z;
  hist_write : Z;
  hist_nav : Z;
  hist_browsing : bool;
  telnet_mode : bool;
  auth_required : bool;
  authenticated : bool;
  auth_attempts : Z;
  esc_state : EscState;
  iac_state : IacState;
  active : bool
}.

(** Field updates. *)
Definition with_write_fn (v : Z) (s : Session) : Session :=
  mkSession v (line_buf s) (line_pos s) (history s) (hist_count s) (hist_write s) (hist_nav s) (hist_browsing s) (telnet_mode s) (auth_required s) (authenticated s) (auth_attempts s) (esc_state s) (iac_state s) (active s).
Definition with_line_buf (v : list Z) (s : Session) : Session :=
  mkSession (write_fn s) v (line_pos s) (history s) (hist_count s) (hist_write s) (hist_nav s) (hist_browsing s) (telnet_mode s) (auth_required s) (authenticated s) (auth_attempts s) (esc_state s) (iac_state s) (active s).
Definition with_line_pos (v : Z) (s : Session) : Session :=
  mkSession (write_fn s) (line_buf s) v (history s) (hist_count s) (hist_write s) (hist_nav s) (hist_browsing s) (telnet_mode s) (auth_required s) (authenticated s) (auth_attempts s) (esc_state s) (iac_state s) (active s).
Definition with_history (v : list (list Z)) (s : Session) : Session :=
  mkSession (write_fn s) (line_buf s) (line_pos s) v (hist_count s) (hist_write s) (hist_nav s) (hist_browsing s) (telnet_mode s) (auth_required s) (authenticated s) (auth_attempts s) (esc_state s) (iac_state s) (active s).
Definition with_hist_count (v : Z) (s : Session) : Session :=
  mkSession (write_fn s) (line_buf s) (line_pos s) (history s) v (hist_write s) (hist_nav s) (hist_browsing s) (telnet_mode s) (auth_required s) (authenticated s) (auth_attempts s) (esc_state s) (iac_state s) (active s).
Definition with_hist_write (v : Z) (s : Session) : Session :=
  mkSession (write_fn s) (line_buf s) (line_pos s) (history s) (hist_count s) v (hist_nav s) (hist_browsing s) (telnet_mode s) (auth_required s) (authenticated s) (auth_attempts s) (esc_state s) (iac_state s) (active s).
Definition with_hist_nav (v : Z) (s : Session) : Session :=
  mkSession (write_fn s) (line_buf s) (line_pos s) (history s) (hist_count s) (hist_write s) v (hist_browsing s) (telnet_mode s) (auth_required s) (authenticated s) (auth_attempts s) (esc_state s) (iac_state s) (active s).
Definition with_hist_browsing (v : bool) (s : Session) : Session :=
  mkSession (write_fn s) (line_buf s) (line_pos s) (history s) (hist_count s) (hist_write s) (hist_nav s) v (telnet_mode s) (auth_required s) (authenticated s) (auth_attempts s) (esc_state s) (iac_state s) (active s).
Definition with_telnet_mode (v : bool) (s : Session) : Session :=
  mkSession (write_fn s) (line_buf s) (line_pos s) (history s) (hist_count s) (hist_write s) (hist_nav s) (hist_browsing s) v (auth_required s) (authenticated s) (auth_attempts s) (esc_state s) (iac_state s) (active s).
Definition with_auth_required (v : bool) (s : Session) : Session :=
  mkSession (write_fn s) (line_buf s) (line_pos s) (history s) (hist_count s) (hist_write s) (hist_nav s) (hist_browsing s) (telnet_mode s) v (authenticated s) (auth_attempts s) (esc_state s) (iac_state s) (active s).
Definition with_authenticated (v : bool) (s : Session) : Session :=
  mkSession (write_fn s) (line_buf s) (line_pos s) (history s) (hist_count s) (hist_write s) (hist_nav s) (hist_browsing s) (telnet_mode s) (auth_required s) v (auth_attempts s) (esc_state s) (iac_state s) (active s).
Definition with_auth_attempts (v : Z) (s : Session) : Session :=
  mkSession (write_fn s) (line_buf s) (line_pos s) (history s) (hist_count s) (hist_write s) (hist_nav s) (hist_browsing s) (telnet_mode s) (auth_required s) (authenticated s) v (esc_state s) (iac_state s) (active s).
Definition with_esc_state (v : EscState) (s : Session) : Session :=
  mkSession (write_fn s) (line_buf s) (line_pos s) (history s) (hist_count s) (hist_write s) (hist_nav s) (hist_browsing s) (telnet_mode s) (auth_required s) (authenticated s) (auth_attempts s) v (iac_state s) (active s).
Definition with_iac_state (v : IacState) (s : Session) : Session :=
  mkSession (write_fn s) (line_buf s) (line_pos s) (history s) (hist_count s) (hist_write s) (hist_nav s) (hist_browsing s) (telnet_mode s) (auth_required s) (authenticated s) (auth_attempts s) (esc_state s) v (active s).
Definition with_active (v : bool) (s : Session) : Session :=
  mkSession (write_fn s) (line_buf s) (line_pos s) (history s) (hist_count s) (hist_write s) (hist_nav s) (hist_browsing s) (telnet_mode s) (auth_required s) (authenticated s) (auth_attempts s) (esc_state s) (iac_state s) v.

(** [Session{}] with an output function installed. *)
Definition Session0 : Session :=
  mkSession 1 (replicate (Z.to_nat EMBSH_LINE_BUF_SIZE) 0) 0
    (replicate (Z.to_nat EMBSH_HISTORY_SIZE) (replicate (Z.to_nat EMBSH_LINE_BUF_SIZE) 0))
    0 0 0 false false false false 0 EscNone IacNormal true.

(** [detail::SessionWriteFn], a function pointer: the adapter that
    [ExecuteLine] installs, or a function of the application. *)
Inductive SessionWriteFn := write_adapter | write_extern (f : Z).

(** [detail::SessionOutput]; [write] is [None] for [nullptr]. *)
Record SessionOutput := mkOutput {
  write : option SessionWriteFn;
  octx : ptr
}.

(** What a session's thread acts on: the session, the calls made to
    [write_fn] on its descriptor ([tx], oldest first), the bytes that its
    read descriptor will still deliver ([rx]), the thread-local
    [detail::CurrentOutput()] ([out]), and two logs of the calls made
    through function pointers: the commands invoked ([invoked]) and the
    calls of the sink's [write] ([sunk]). *)
Record World := mkWorld {
  sess : Session;
  tx : list (list Z);
  rx : list Z;
  out : SessionOutput;
  invoked : list (CmdFn * list (list Z) * ptr);
  sunk : list (SessionWriteFn * list Z * ptr)
}.

Definition with_sess (v : Session) (w : World) : World :=
  mkWorld v (tx w) (rx w) (out w) (invoked w) (sunk w).
Definition with_tx (v : list (list Z)) (w : World) : World :=
  mkWorld (sess w) v (rx w) (out w) (invoked w) (sunk w).
Definition with_rx (v : list Z) (w : World) : World :=
  mkWorld (sess w) (tx w) v (out w) (invoked w) (sunk w).
Definition with_out (v : SessionOutput) (w : World) : World :=
  mkWorld (sess w) (tx w) (rx w) v (invoked w) (sunk w).
Definition with_invoked (v : list (CmdFn * list (list Z) * ptr)) (w : World) : World :=
  mkWorld (sess w) (tx w) (rx w) (out w) v (sunk w).
Definition with_sunk (v : list (SessionWriteFn * list Z * ptr)) (w : World) : World :=
  mkWorld (sess w) (tx w) (rx w) (out w) (invoked w) v.

(** Run a session update inside the world. *)
Definition on_sess (f : Session -> Session) (w : World) : World :=
  with_sess (f (sess w)) w.

Definition World0 : World := mkWorld Session0 [] [] (mkOutput None nullptr) [] [].

(** Bytes and strings the editor writes. *)
Definition CR : Z := 13.
Definition LF : Z := 10.
Definition CRLF : list Z := [CR; LF].

(** ["\b \b"] *)
Definition ERASE : list Z := [8; 32; 8].

(** [SessionWrite(s, str)].  A null [str] writes nothing, as an empty
    string does. *)
Definition SessionWrite (str : list Z) (w : World) : World :=
  if negb (write_fn (sess w) =? 0) && (Z.of_nat (length str) >? 0)
  then with_tx (tx w ++ [str]) w
  else w.

(** [SessionWriteN(s, buf, len)] *)
Definition SessionWriteN (buf : list Z) (len : Z) (w : World) : World :=
  if negb (write_fn (sess w) =? 0) && (len >? 0)
  then with_tx (tx w ++ [slice buf 0 len]) w
  else w.

(** [history[i]], a row of [EMBSH_LINE_BUF_SIZE] bytes. *)
Definition row (h : list (list Z)) (i : Z) : list Z := h !!! Z.to_nat i.

(** ** line_editor.hpp: the editor *)

Module editor.

(** [editor::PushHistory(s)] *)
Definition PushHistory (s : Session) : Session :=
  if line_pos s =? 0 then s
  else
    let last := u32 (u32 (hist_write s + EMBSH_HISTORY_SIZE) - 1) mod EMBSH_HISTORY_SIZE in
    if (hist_count s >? 0) && streq (cstr (row (history s) last)) (cstr (line_buf s))
    then s
    else
      let r := memcpy (row (history s) (hist_write s)) (line_buf s) (line_pos s) in
      let r := set r (line_pos s) 0 in
      let s := with_history (<[Z.to_nat (hist_write s) := r]> (history s)) s in
      let s := with_hist_write (u32 (hist_write s + 1) mod EMBSH_HISTORY_SIZE) s in
      if hist_count s <? EMBSH_HISTORY_SIZE
      then with_hist_count (u32 (hist_count s + 1)) s
      else s.

(** [for (i = 0; i < s.line_pos; ++i) SessionWrite(s, "\b \b");] *)
Definition erase_line (w : World) : World :=
  Nat.iter (Z.to_nat (line_pos (sess w))) (SessionWrite ERASE) w.

(** [editor::ReplaceLine(s, new_line)]; [new_line] is the array the
    pointer points into. *)
Definition ReplaceLine (new_line : list Z) (w : World) : World :=
  let w := erase_line w in
  let len := u32 (strlen new_line) in
  let len := if len >=? EMBSH_LINE_BUF_SIZE then u32 (EMBSH_LINE_BUF_SIZE - 1) else len in
  let w := on_sess (fun s => with_line_buf (memcpy (line_buf s) new_line len) s) w in
  let w := on_sess (fun s => with_line_buf (set (line_buf s) len 0) s) w in
  let w := on_sess (with_line_pos len) w in
  SessionWriteN (line_buf (sess w)) (line_pos (sess w)) w.

(** [editor::HistoryUp(s)] *)
Definition HistoryUp (w : World) : World :=
  if hist_count (sess w) =? 0 then w
  else
    let w :=
      if negb (hist_browsing (sess w))
      then on_sess (fun s => with_hist_browsing true (with_hist_nav (hist_write s) s)) w
      else w in
    let s := sess w in
    let prev := u32 (u32 (hist_nav s + EMBSH_HISTORY_SIZE) - 1) mod EMBSH_HISTORY_SIZE in
    if prev =? hist_nav s then w
    else
      let dist_from_write :=
        u32 (u32 (hist_write s + EMBSH_HISTORY_SIZE) - prev) mod EMBSH_HISTORY_SIZE in
      if dist_from_write >? hist_count s then w
      else
        let w := on_sess (with_hist_nav prev) w in
        ReplaceLine (row (history (sess w)) (hist_nav (sess w))) w.

(** [editor::HistoryDown(s)] *)
Definition HistoryDown (w : World) : World :=
  if negb (hist_browsing (sess w)) then w
  else
    let s := sess w in
    let next := u32 (hist_nav s + 1) mod EMBSH_HISTORY_SIZE in
    if next =? hist_write s then
      let w := on_sess (with_hist_browsing false) w in
      let w := erase_line w in
      let w := on_sess (with_line_pos 0) w in
      on_sess (fun s => with_line_buf (set (line_buf s) 0 0) s) w
    else
      let w := on_sess (with_hist_nav next) w in
      ReplaceLine (row (history (sess w)) (hist_nav (sess w))) w.

(** [editor::TabComplete(s, prompt)] on the registry [reg]. *)
Definition TabComplete (reg : CommandRegistry) (prompt : list Z) (w : World) : World :=
  let w := on_sess (fun s => with_line_buf (set (line_buf s) (line_pos s) 0) s) w in
  let '(matches, completion) :=
    AutoComplete reg (cstr (line_buf (sess w))) (replicate 64 0) 64 in
  if matches =? 1 then
    let w := erase_line w in
    let comp_len := u32 (strlen completion) in
    let comp_len :=
      if comp_len >=? u32 (EMBSH_LINE_BUF_SIZE - 2)
      then u32 (EMBSH_LINE_BUF_SIZE - 3) else comp_len in
    let w := on_sess (fun s => with_line_buf (memcpy (line_buf s) completion comp_len) s) w in
    let w := on_sess (fun s => with_line_buf (set (line_buf s) comp_len SPACE) s) w in
    let w := on_sess (with_line_pos (u32 (comp_len + 1))) w in
    let w := on_sess (fun s => with_line_buf (set (line_buf s) (line_pos s) 0) s) w in
    SessionWriteN (line_buf (sess w)) (line_pos (sess w)) w
  else if matches >? 1 then
    let w := SessionWrite CRLF w in
    let w :=
      fold_left
        (fun w cmd =>
           if strneq (name cmd) (cstr (line_buf (sess w))) (line_pos (sess w))
           then SessionWrite [SPACE; SPACE] (SessionWrite (name cmd) w)
           else w)
        (used reg) w in
    let w := SessionWrite CRLF w in
    let w := SessionWrite prompt w in
    let comp_len := u32 (strlen completion) in
    let comp_len :=
      if comp_len >=? u32 (EMBSH_LINE_BUF_SIZE - 1)
      then u32 (EMBSH_LINE_BUF_SIZE - 2) else comp_len in
    let w := on_sess (fun s => with_line_buf (memcpy (line_buf s) completion comp_len) s) w in
    let w := on_sess (with_line_pos comp_len) w in
    let w := on_sess (fun s => with_line_buf (set (line_buf s) (line_pos s) 0) s) w in
    SessionWriteN (line_buf (sess w)) (line_pos (sess w)) w
  else w.

(** [editor::FilterIac(s, byte)]: the returned [char] and the session. *)
Definition FilterIac (s : Session) (byte : Z) : Z * Session :=
  match iac_state s with
  | IacNormal =>
      if byte =? 0xFF then (0, with_iac_state IacIac s)
      else (byte, s)
  | IacIac =>
      if (byte >=? 0xFB) && (byte <=? 0xFE) then (0, with_iac_state IacNego s)
      else if byte =? 0xFA then (0, with_iac_state IacSub s)
      else (if byte =? 0xFF then 0xFF else 0, with_iac_state IacNormal s)
  | IacNego => (0, with_iac_state IacNormal s)
  | IacSub =>
      if byte =? 0xFF then (0, with_iac_state IacIac s)
      else (0, s)
  end.

(** [peek = recv(read_fd, &next, 1, MSG_PEEK); if (peek == 1 && (next == '\n'
    || next == '\0')) recv(read_fd, &next, 1, 0);]: the next byte of the
    stream is taken off it when it is LF or NUL. *)
Definition eat_line_pair (w : World) : World :=
  match rx w with
  | next :: rest => if (next =? LF) || (next =? 0) then with_rx rest w else w
  | [] => w
  end.

(** [editor::ProcessByte(s, byte, prompt)] on the registry [reg]. *)
Definition ProcessByte (reg : CommandRegistry) (prompt : list Z) (w : World) (byte : Z)
  : bool * World :=
  let '(ch, s1) :=
    if telnet_mode (sess w) then FilterIac (sess w) byte else (byte, sess w) in
  let w := with_sess s1 w in
  if telnet_mode (sess w) && (ch =? 0) then (false, w)
  else
    let byte := ch in
    match esc_state (sess w) with
    | EscEsc =>
        if ch =? 91 (* '[' *) then (false, on_sess (with_esc_state EscBracket) w)
        else (false, on_sess (with_esc_state EscNone) w)
    | EscBracket =>
        let w := on_sess (with_esc_state EscNone) w in
        if ch =? 65 (* 'A' *) then (false, HistoryUp w)
        else if ch =? 66 (* 'B' *) then (false, HistoryDown w)
        else (false, w)
    | EscNone =>
        if byte =? 0x1B then (false, on_sess (with_esc_state EscEsc) w)
        else if byte =? 0x03 then
          let w := SessionWrite (lit "^C" ++ CRLF) w in
          let w := on_sess (with_line_pos 0) w in
          let w := on_sess (fun s => with_line_buf (set (line_buf s) 0 0) s) w in
          let w := on_sess (with_hist_browsing false) w in
          (false, SessionWrite prompt w)
        else if byte =? 0x04 then
          if line_pos (sess w) =? 0
          then (false, on_sess (with_active false)
                         (SessionWrite (CRLF ++ lit "Bye." ++ CRLF) w))
          else (false, w)
        else if (byte =? 0x7F) || (byte =? 0x08) then
          if line_pos (sess w) >? 0
          then (false, SessionWrite ERASE
                         (on_sess (fun s => with_line_pos (u32 (line_pos s - 1)) s) w))
          else (false, w)
        else if byte =? TAB then (false, TabComplete reg prompt w)
        else if (ch =? CR) || (ch =? LF) then
          let w := SessionWrite CRLF w in
          let w := if telnet_mode (sess w) && (ch =? CR) then eat_line_pair w else w in
          let w := on_sess (fun s => with_line_buf (set (line_buf s) (line_pos s) 0) s) w in
          let w := on_sess (with_hist_browsing false) w in
          if line_pos (sess w) >? 0
          then (true, on_sess PushHistory w)
          else (false, SessionWrite prompt w)
        else if (line_pos (sess w) <? u32 (EMBSH_LINE_BUF_SIZE - 1))
                && (byte >=? 0x20) && (byte <? 0x7F) then
          let w := on_sess (fun s => with_line_pos (u32 (line_pos s + 1))
                                       (with_line_buf (set (line_buf s) (line_pos s) ch) s)) w in
          (false, SessionWriteN [ch] 1 w)
        else (false, w)
    end.

End editor.

(** ** Calls through function pointers

    The code of a command and of an application-supplied sink is not
    part of the library: their effect on the world is a parameter. *)
Record Externs := mkExterns {
  (** [fn(argc, argv, ctx)] for the command at address [fn]; [argv] is
      given as the strings its pointers point to. *)
  run_cmd : CmdFn -> Z -> list (list Z) -> ptr -> World -> World;
  (** [write(str, ctx)] for an application function at address [f]. *)
  run_write : Z -> list Z -> ptr -> World -> World;
  (** The byte that a read of [msg[i]] finds for [i >= 160], past the end
      of the array [msg] of [ExecuteLine]: whatever follows the array in
      memory. *)
  beyond_msg : World -> Z -> Z
}.

(** [out.write(str, ctx)].  The lambda [write_adapter] of [ExecuteLine]
    is [SessionWrite] on the session that [ctx] points to. *)
Definition call_write (E : Externs) (f : SessionWriteFn) (str : list Z) (c : ptr)
    (w : World) : World :=
  match f with
  | write_adapter => SessionWrite str w
  | write_extern a => run_write E a str c w
  end.

(** ** command_registry.hpp: ShellPrintf *)

(** [std::vsnprintf(buf, size, fmt, args)] for [size > 0], where
    [expansion] is the text that [fmt] and [args] expand to ([None] when
    the conversion fails): at most [size - 1] bytes of it and a NUL are
    stored, and the length of the whole text is returned. *)
Definition vsnprintf (buf : list Z) (size : Z) (expansion : option (list Z))
  : list Z * Z :=
  match expansion with
  | None => (buf, -1)
  | Some text =>
      (store buf 0 (take (Z.to_nat (size - 1)) text ++ [0]), Z.of_nat (length text))
  end.

(** [ShellPrintf(fmt, ...)]: the returned [int] and the world. *)
Definition ShellPrintf (E : Externs) (expansion : option (list Z)) (w : World)
  : Z * World :=
  match write (out w) with
  | None => (-1, w)
  | Some f =>
      let '(buf, n) := vsnprintf (replicate 512 0) 512 expansion in
      if n >? 0 then
        let buf := set buf 511 0 in
        let w := with_sunk (sunk w ++ [(f, cstr buf, octx (out w))]) w in
        (n, call_write E f (cstr buf) (octx (out w)) w)
      else (n, w)
  end.

(** ** line_editor.hpp: ExecuteLine *)

(** [editor::ExecuteLine(s)] on the registry [reg].  [cmd_copy] starts as
    an uninitialised array, taken as zeros.  For an unknown command
    [SessionWriteN] is given the length [n] that [snprintf] returns, which
    is the length of the whole message and not of what [msg] holds: when
    the message does not fit, [write_fn] reads [n] bytes from [msg], the
    last [n - 160] of them past the end of the array. *)
Definition ExecuteLine (E : Externs) (reg : CommandRegistry) (w : World) : World :=
  let s := sess w in
  let cmd_copy :=
    memcpy (replicate (Z.to_nat EMBSH_LINE_BUF_SIZE) 0) (line_buf s) (u32 (line_pos s + 1)) in
  let r := ShellSplit cmd_copy (line_pos s) in
  let '(argc, cmd, argv) := r in
  if argc <=? 0 then w
  else
    let argv0 := cstr_at cmd (get argv 0) in
    if streq argv0 (lit "exit") || streq argv0 (lit "quit") then
      on_sess (with_active false) (SessionWrite (lit "Bye." ++ CRLF) w)
    else
      match Find reg argv0 with
      | Some cmd_entry =>
          let w := with_out (mkOutput (Some write_adapter) session_ptr) w in
          let w := with_invoked (invoked w ++ [(fn cmd_entry, tokens r, ctx cmd_entry)]) w in
          let w := run_cmd E (fn cmd_entry) argc (tokens r) (ctx cmd_entry) w in
          with_out (mkOutput None nullptr) w
      | None =>
          let text := lit "unknown command: " ++ argv0 ++ CRLF in
          let '(msg, n) := vsnprintf (replicate 160 0) 160 (Some text) in
          if n >? 0
          then SessionWriteN (msg ++ map (beyond_msg E w) (seqZ 160 (n - 160))) n w
          else w
      end.

(** ** telnet_server.hpp: the session loop and the login *)

(** The body of the main loop of [TelnetServer::SessionLoop] once a byte
    was read. *)
Definition session_byte (E : Externs) (reg : CommandRegistry) (prompt : list Z)
    (w : World) (byte : Z) : World :=
  let '(ready, w) := editor.ProcessByte reg prompt w byte in
  if ready then
    let w := ExecuteLine E reg w in
    let w := on_sess (with_line_pos 0) w in
    let w := on_sess (fun s => with_line_buf (set (line_buf s) 0 0) s) w in
    if active (sess w) then SessionWrite prompt w else w
  else w.

Module Auth.

Definition kMaxAttempts : Z := 3.

Inductive AuthPhase := kUser | kPass.

(** The locals of [RunAuth], and [tried]: the pairs of strings that the
    [strcmp] calls on [user_buf] and [pass_buf] have compared with the
    configured credentials so far, oldest first. *)
Record locals := mkLocals {
  phase : AuthPhase;
  user_buf : list Z;
  pass_buf : list Z;
  buf_pos : Z;
  tried : list (list Z * list Z)
}.

Definition locals0 : locals :=
  mkLocals kUser (replicate 64 0) (replicate 64 0) 0 [].

(** The body of the loop of [RunAuth] once a byte was read; [inl] is
    the [return] after a successful login, [inr] a [continue] or the
    end of the body. *)
Definition on_byte (username password : list Z) (l : locals) (w : World) (byte : Z)
  : locals * World + locals * World :=
  let '(ch, s1) :=
    if telnet_mode (sess w) then editor.FilterIac (sess w) byte else (byte, sess w) in
  let w := with_sess s1 w in
  if telnet_mode (sess w) && (ch =? 0) then inr (l, w)
  else
    let byte := ch in
    if (byte =? 0x7F) || (byte =? 0x08) then
      if buf_pos l >? 0
      then inr (mkLocals (phase l) (user_buf l) (pass_buf l) (u32 (buf_pos l - 1)) (tried l),
                SessionWrite ERASE w)
      else inr (l, w)
    else if (ch =? CR) || (ch =? LF) then
      let w := if telnet_mode (sess w) && (ch =? CR) then editor.eat_line_pair w else w in
      let w := SessionWrite CRLF w in
      match phase l with
      | kUser =>
          inr (mkLocals kPass (set (user_buf l) (buf_pos l) 0) (pass_buf l) 0 (tried l),
               SessionWrite (lit "Password: ") w)
      | kPass =>
          let pass_buf' := set (pass_buf l) (buf_pos l) 0 in
          let tried' := tried l ++ [(cstr (user_buf l), cstr pass_buf')] in
          if streq (cstr (user_buf l)) username && streq (cstr pass_buf') password
          then inl (mkLocals kPass (user_buf l) pass_buf' (buf_pos l) tried',
                    SessionWrite (lit "Login successful." ++ CRLF)
                      (on_sess (with_authenticated true) w))
          else
            let w := on_sess (fun s => with_auth_attempts (u8 (auth_attempts s + 1)) s) w in
            if auth_attempts (sess w) <? kMaxAttempts
            then inr (mkLocals kUser (user_buf l) pass_buf' 0 tried',
                      SessionWrite (lit "Username: ")
                        (SessionWrite (lit "Invalid credentials. Try again." ++ CRLF) w))
            else inr (mkLocals (phase l) (user_buf l) pass_buf' (buf_pos l) tried', w)
      end
    else if (byte >=? 0x20) && (byte <? 0x7F) then
      match phase l with
      | kUser =>
          if buf_pos l <? 63
          then inr (mkLocals kUser (set (user_buf l) (buf_pos l) ch) (pass_buf l)
                      (u32 (buf_pos l + 1)) (tried l),
                    SessionWriteN [ch] 1 w)
          else inr (l, w)
      | kPass =>
          if buf_pos l <? 63
          then inr (mkLocals kPass (user_buf l) (set (pass_buf l) (buf_pos l) ch)
                      (u32 (buf_pos l + 1)) (tried l),
                    SessionWrite (lit "*") w)
          else inr (l, w)
      end
    else inr (l, w).

(** [while (s.active && s.auth_attempts < kMaxAttempts) { poll; read one
    byte or break; body }].  A poll that times out changes nothing and
    is not represented; the end of [rx] is the read that returns no
    byte.  Every iteration takes at least one byte off [rx], so [n] is
    set to one more than the bytes in [rx]. *)
Fixpoint loop (n : nat) (username password : list Z) (l : locals) (w : World)
  : locals * World :=
  match n with
  | O => (l, w)
  | S n' =>
      if active (sess w) && (auth_attempts (sess w) <? kMaxAttempts) then
        match rx w with
        | [] => (l, w)
        | byte :: rest =>
            match on_byte username password l (with_rx rest w) byte with
            | inl r => r
            | inr (l', w') => loop n' username password l' w'
            end
        end
      else (l, w)
  end.

End Auth.

(** [TelnetServer::RunAuth(s)] with the configured [cfg_.username] and
    [cfg_.password], returning the locals along with the world. *)
Definition RunAuth_full (username password : list Z) (w : World) : Auth.locals * World :=
  let w := SessionWrite (lit "Username: ") w in
  Auth.loop (S (length (rx w))) username password Auth.locals0 w.

Definition RunAuth (username password : list Z) (w : World) : World :=
  snd (RunAuth_full username password w).

(** ** command_registry.hpp: ForEach and the help command *)

(** [CommandRegistry::ForEach(visitor)]: the visitor is run on
    [cmds_[0 .. count_)] in order; what it does to the state it captures
    is its effect on [a]. *)
Definition ForEach {A : Type} (reg : CommandRegistry) (visitor : CmdEntry -> A -> A)
    (a : A) : A :=
  fold_left (fun a e => visitor e a) (used reg) a.

(** What [%-16s] expands to: the string, padded with spaces on the right
    to 16 bytes. *)
Definition pad16 (s : list Z) : list Z :=
  s ++ replicate (16 - length s) SPACE.

(** The expansion of the format of [HelpCommand] for one entry: two
    spaces, the padded name, [ - ], the description (empty when the
    pointer is null), CR LF. *)
Definition help_line (e : CmdEntry) : list Z :=
  [SPACE; SPACE] ++ pad16 (name e) ++ lit " - " ++ default [] (desc e) ++ CRLF.

(** [detail::HelpCommand(argc, argv, ctx)]; the returned 0 is left out. *)
Definition HelpCommand (E : Externs) (reg : CommandRegistry) (w : World) : World :=
  ForEach reg (fun cmd w => (ShellPrintf E (Some (help_line cmd)) w).2) w.

(** [CmdAutoReg]'s constructor, once per entry of [es], in order: each
    registration is attempted and its result dropped. *)
Definition register_all (reg : CommandRegistry) (es : list CmdEntry) : CommandRegistry :=
  fold_left (fun reg e => (Register reg (name e) (fn e) (ctx e) (desc e)).2) es reg.

(** ** console_shell.hpp, uart_shell.hpp, telnet_server.hpp: the main loop *)

(** [while (running_ && s.active) { poll; read one byte or break; body }],
    the loop that [ConsoleShell::RunLoop], [UartShell::RunLoop] and
    [TelnetServer::SessionLoop] share.  A poll that times out or is
    interrupted changes nothing and is not represented; the end of [rx]
    is the read that returns no byte.  [n] bounds the iterations made
    before another thread clears [running_]. *)
Fixpoint main_loop (n : nat) (E : Externs) (reg : CommandRegistry) (prompt : list Z)
    (w : World) : World :=
  match n with
  | O => w
  | S n' =>
      if active (sess w) then
        match rx w with
        | [] => w
        | byte :: rest =>
            main_loop n' E reg prompt (session_byte E reg prompt (with_rx rest w) byte)
        end
      else w
  end.

(** [ConsoleShell::RunLoop()] and [UartShell::RunLoop()] *)
Definition RunLoop (n : nat) (E : Externs) (reg : CommandRegistry) (prompt : list Z)
    (w : World) : World :=
  main_loop n E reg prompt (SessionWrite prompt w).

Module telnet.

Definition EMBSH_MAX_SESSIONS : Z := 8.

(** The loop of [TelnetServer::FindFreeSlot()] from index [i] on;
    [in_use] holds the [in_use] flags of [slots_].  Joining a stale
    thread changes no flag. *)
Fixpoint find_from (n : nat) (max_sessions : Z) (in_use : list bool) (i : Z) : Z :=
  match n with
  | O => -1
  | S n' =>
      if (i <? max_sessions) && (i <? EMBSH_MAX_SESSIONS) then
        if negb (in_use !!! Z.to_nat i) then i
        else find_from n' max_sessions in_use (u32 (i + 1))
      else -1
  end.

(** [TelnetServer::FindFreeSlot()] with [cfg_.max_sessions]. *)
Definition FindFreeSlot (max_sessions : Z) (in_use : list bool) : Z :=
  find_from (S (Z.to_nat EMBSH_MAX_SESSIONS)) max_sessions in_use 0.

(** The address of [io::TcpWrite]. *)
Definition TcpWrite : Z := 1.

(** The initialisation of a slot's session in [AcceptLoop];
    [credentials] is [cfg_.username != nullptr && cfg_.password != nullptr]. *)
Definition accept_init (credentials : bool) (s : Session) : Session :=
  let s := with_write_fn TcpWrite s in
  let s := with_telnet_mode true s in
  let s := with_line_pos 0 s in
  let s := with_hist_browsing false s in
  let s := with_esc_state EscNone s in
  let s := with_iac_state IacNormal s in
  let s := with_active true s in
  let s := with_auth_required credentials s in
  let s := with_authenticated (negb (auth_required s)) s in
  with_auth_attempts 0 s.

(** [TelnetServer::SessionLoop(slot)] with [cfg_.banner] ([None] when
    null), [cfg_.prompt], [cfg_.username] and [cfg_.password]: the
    packets sent with [SendIac], which does not go through [write_fn],
    and the world.  The descriptors and the slot's [in_use] flag are
    outside the world. *)
Definition SessionLoop (n : nat) (E : Externs) (reg : CommandRegistry)
    (banner : option (list Z)) (prompt username password : list Z) (w : World)
  : list (list Z) * World :=
  let iac := [[0xFF; 0xFB; 0x03]; [0xFF; 0xFB; 0x01]] in
  let w := match banner with Some b => SessionWrite b w | None => w end in
  let interactive (w : World) :=
    let w := SessionWrite prompt w in
    let w := main_loop n E reg prompt w in
    (iac, on_sess (with_active false) w) in
  if auth_required (sess w) then
    let w := RunAuth username password w in
    if negb (authenticated (sess w)) then
      (iac, on_sess (with_active false)
              (SessionWrite (lit "Authentication failed." ++ CRLF) w))
    else interactive w
  else interactive w.

End telnet.

(** * Vocabulary of the properties, and example inputs *)

(** The line made of [echo], a space, and the double-quoted region
    holding [a], a backslash, a double quote and [b]; NUL-terminated, as
    [ExecuteLine] passes it.  It is 11 bytes long. *)
Definition line_escaped_quote : list Z :=
  lit "echo " ++ [DQUOTE; 97; BACKSLASH; DQUOTE; 98; DQUOTE] ++ [0].

(** [n] one-letter words separated by single spaces, NUL-terminated. *)
Definition line_of_words (n : nat) : list Z :=
  97 :: concat (replicate (n - 1) [SPACE; 97]) ++ [0].

(** The transition table of the specification, one constructor per
    row: state, input byte, next state, and the byte handed on ([0] for a
    consumed byte). *)
Inductive iac_row : IacState -> Z -> IacState -> Z -> Prop :=
| row_normal_iac : iac_row IacNormal 0xFF IacIac 0
| row_normal_other b : b <> 0xFF -> iac_row IacNormal b IacNormal b
| row_iac_verb b : 0xFB <= b <= 0xFE -> iac_row IacIac b IacNego 0
| row_iac_sb : iac_row IacIac 0xFA IacSub 0
| row_iac_iac : iac_row IacIac 0xFF IacNormal 0xFF
| row_iac_other b : ~ (0xFA <= b <= 0xFF) -> iac_row IacIac b IacNormal 0
| row_nego b : iac_row IacNego b IacNormal 0
| row_sub_iac : iac_row IacSub 0xFF IacIac 0
| row_sub_other b : b <> 0xFF -> iac_row IacSub b IacSub 0.

(** The table has its [EMBSH_MAX_COMMANDS] slots and [count_] is within
    them. *)
Definition wf_registry (reg : CommandRegistry) : Prop :=
  length (cmds_ reg) = Z.to_nat EMBSH_MAX_COMMANDS /\
  0 <= count_ reg <= EMBSH_MAX_COMMANDS.

(** An entry with this name already exists. *)
Definition registered (reg : CommandRegistry) (nm : list Z) : Prop :=
  exists e, e ∈ used reg /\ name e = nm.

(** A table that holds the two commands [help] and [reboot]. *)
Definition reg_help_reboot : CommandRegistry :=
  (Register (Register Instance0 (lit "help") 7 nullptr (Some (lit "List all commands"))).2
            (lit "reboot") 8 nullptr None).2.

(** A table filled up with the [EMBSH_MAX_COMMANDS] one-byte names 1 to 64. *)
Definition reg_full : CommandRegistry :=
  fold_left (fun reg i => (Register reg [i] 1 nullptr None).2) (seqZ 1 64) Instance0.

(** Commands and application sinks that do nothing, and zeros after
    [msg], for closed examples. *)
Definition idle : Externs :=
  mkExterns (fun _ _ _ _ w => w) (fun _ _ _ w => w) (fun _ _ => 0).

(** [buf] when [ShellPrintf] hands it to the sink. *)
Definition printf_buf (text : list Z) : list Z :=
  set (vsnprintf (replicate 512 0) 512 (Some text)).1 511 0.

(** The default prompt. *)
Definition prompt0 : list Z := lit "embsh> ".

(** The session loop on the bytes [bs], with an empty registry. *)
Definition run (bs : list Z) (w : World) : World :=
  fold_left (session_byte idle Instance0 prompt0) bs w.

(** The [n] one-letter lines [a], [b], ... each ended by CR. *)
Definition type_lines (n : nat) : list Z :=
  concat (map (fun c => [c; CR]) (seqZ 97 (Z.of_nat n))).

(** ESC [ A, [n] times. *)
Definition up_arrows (n : nat) : list Z := concat (replicate n [0x1B; 91; 65]).

(** The line buffer holds only spaces and tabs before [line_pos]. *)
Definition blank_line (s : Session) : Prop :=
  forall j, 0 <= j < line_pos s -> is_blank (get (line_buf s) j) = true.

(** Three spaces typed at the prompt, as Enter leaves them. *)
Definition three_blanks : World :=
  on_sess (fun s => with_line_pos 3 (with_line_buf (store (line_buf s) 0 [SPACE; SPACE; SPACE]) s))
          World0.

(** The ring has its [EMBSH_HISTORY_SIZE] rows of [EMBSH_LINE_BUF_SIZE]
    bytes, and its counters are in range. *)
Definition hist_ok (s : Session) : Prop :=
  length (history s) = Z.to_nat EMBSH_HISTORY_SIZE /\
  Forall (fun r => length r = Z.to_nat EMBSH_LINE_BUF_SIZE) (history s) /\
  0 <= hist_write s < EMBSH_HISTORY_SIZE /\
  0 <= hist_count s <= EMBSH_HISTORY_SIZE.

(** The line buffer holds a non-empty string of [line_pos] bytes, as it
    does when Enter commits it. *)
Definition line_ok (s : Session) : Prop :=
  0 < line_pos s < EMBSH_LINE_BUF_SIZE /\ strlen (line_buf s) = line_pos s.

(** The slot written last: [(hist_write + EMBSH_HISTORY_SIZE - 1) % EMBSH_HISTORY_SIZE]. *)
Definition last_slot (s : Session) : Z :=
  u32 (u32 (hist_write s + EMBSH_HISTORY_SIZE) - 1) mod EMBSH_HISTORY_SIZE.

(** The new line differs from the entry pushed last, or there is none. *)
Definition fresh_line (s : Session) : Prop :=
  hist_count s = 0 \/ cstr (row (history s) (last_slot s)) <> cstr (line_buf s).

(** The line [ab] typed on a fresh session and terminated. *)
Definition typed_ab : Session :=
  with_line_pos 2 (with_line_buf (store (line_buf Session0) 0 [97; 98]) Session0).

(** The line buffer has its [EMBSH_LINE_BUF_SIZE] bytes and [line_pos] is
    an index into it. *)
Definition line_wf (s : Session) : Prop :=
  length (line_buf s) = Z.to_nat EMBSH_LINE_BUF_SIZE /\
  0 <= line_pos s < EMBSH_LINE_BUF_SIZE.

(** The editor between keys: outside an escape sequence and, on a telnet
    session, outside an IAC sequence, so that the byte it is given is the
    key it handles. *)
Definition accepting (s : Session) : Prop :=
  esc_state s = EscNone /\ (telnet_mode s = true -> iac_state s = IacNormal).

(** The buffer holds a NUL at [line_pos]. *)
Definition terminated (s : Session) : Prop :=
  get (line_buf s) (line_pos s) = 0.

(** What one call of [ProcessByte] may do to the line: leave the buffer
    untouched, leave it with a NUL at [line_pos], or append the printable
    [byte] at the old [line_pos]. *)
Definition line_step (s s' : Session) (byte : Z) : Prop :=
  line_buf s' = line_buf s \/
  terminated s' \/
  (0x20 <= byte < 0x7F /\
   line_pos s' = line_pos s + 1 /\
   line_buf s' = set (line_buf s) (line_pos s) byte).

(** The editor fed the bytes [bs], one call of [ProcessByte] each. *)
Definition feed (reg : CommandRegistry) (prompt : list Z) (w : World) (bs : list Z) : World :=
  fold_left (fun w b => (editor.ProcessByte reg prompt w b).2) bs w.

(** A telnet client that mistypes the password once, then logs in as
    [admin] with [secret] and goes on typing. *)
Definition login_twice : World :=
  with_rx (lit "admin" ++ CRLF ++ lit "x" ++ CRLF
           ++ lit "admin" ++ CRLF ++ lit "secret" ++ CRLF ++ lit "help")
          (on_sess (with_telnet_mode true) World0).

(** The pair of strings in the buffers when Enter ends the password. *)
Definition entered (l : Auth.locals) : list Z * list Z :=
  (cstr (Auth.user_buf l), cstr (set (Auth.pass_buf l) (Auth.buf_pos l) 0)).

(** A byte that the login stores in its buffers. *)
Definition printable (c : Z) : Prop := 0x20 <= c < 0x7F.

(** A telnet session outside any IAC sequence, in which the loop of
    [RunAuth] goes on reading. *)
Definition listening (w : World) : Prop :=
  telnet_mode (sess w) = true /\ iac_state (sess w) = IacNormal /\
  active (sess w) = true /\ 0 <= auth_attempts (sess w) < Auth.kMaxAttempts.

(** The locals after a printable byte was stored. *)
Definition type_char (l : Auth.locals) (c : Z) : Auth.locals :=
  match Auth.phase l with
  | Auth.kUser =>
      Auth.mkLocals Auth.kUser (set (Auth.user_buf l) (Auth.buf_pos l) c)
        (Auth.pass_buf l) (Auth.buf_pos l + 1) (Auth.tried l)
  | Auth.kPass =>
      Auth.mkLocals Auth.kPass (Auth.user_buf l)
        (set (Auth.pass_buf l) (Auth.buf_pos l) c) (Auth.buf_pos l + 1) (Auth.tried l)
  end.

Section LoginVocabulary.

(** The configured credentials. *)
Variables username password : list Z.

(** While the loop runs: no pair compared so far matched, and
    [auth_attempts] counts them. *)
Definition pending (l : Auth.locals) (w : World) : Prop :=
  authenticated (sess w) = false /\
  auth_attempts (sess w) = Z.of_nat (length (Auth.tried l)) /\
  ((username, password) ∉ Auth.tried l) /\
  0 <= auth_attempts (sess w) <= Auth.kMaxAttempts.

(** After the [return]: the pair compared last matched, and fewer than
    [kMaxAttempts] pairs had failed before it. *)
Definition logged_in (l : Auth.locals) (w : World) : Prop :=
  authenticated (sess w) = true /\
  exists fails,
    Auth.tried l = fails ++ [(username, password)] /\
    ((username, password) ∉ fails) /\
    (length fails < Z.to_nat Auth.kMaxAttempts)%nat.

(** How the loop ends. *)
Definition final (l : Auth.locals) (w : World) : Prop :=
  pending l w \/ logged_in l w.

End LoginVocabulary.

(** The words [ws] with a space between two of them, and the terminating
    NUL. *)
Fixpoint spaced (ws : list (list Z)) : list Z :=
  match ws with
  | [] => [0]
  | [w] => w ++ [0]
  | w :: ws' => w ++ SPACE :: spaced ws'
  end.

(** A word that the tokenizer takes as one unquoted argument: not empty,
    without blank or NUL, and not opening with a quote. *)
Definition plain_word (w : list Z) : Prop :=
  w <> [] /\ Forall (fun b => is_blank b = false /\ b <> 0) w /\
  is_quote (w !!! 0%nat) = false.

(** The buffer that the tokenizer leaves for the words [ws]: each word
    followed by a NUL. *)
Definition stamped (ws : list (list Z)) : list Z :=
  concat (map (fun w => w ++ [0]) ws).

(** The offsets of the words of [ws] in [stamped ws] when the first one
    is at [start]. *)
Fixpoint offsets (start : Z) (ws : list (list Z)) : list Z :=
  match ws with
  | [] => []
  | w :: ws' => start :: offsets (start + Z.of_nat (length w) + 1) ws'
  end.

(** The line buffer holds the words [ws], spaced and terminated, and
    [line_pos] is at their end. *)
Definition holds_words (s : Session) (ws : list (list Z)) : Prop :=
  length (line_buf s) = Z.to_nat EMBSH_LINE_BUF_SIZE /\
  line_pos s = Z.of_nat (length (spaced ws)) - 1 /\
  take (length (spaced ws)) (line_buf s) = spaced ws.

(** What [ExecuteLine] does once the line is split into the words
    [w1 :: args]. *)
Definition dispatch (E : Externs) (reg : CommandRegistry) (w1 : list Z)
    (args : list (list Z)) (w : World) : World :=
  if streq w1 (lit "exit") || streq w1 (lit "quit") then
    on_sess (with_active false) (SessionWrite (lit "Bye." ++ CRLF) w)
  else
    match Find reg w1 with
    | Some e =>
        with_out (mkOutput None nullptr)
          (run_cmd E (fn e) (Z.of_nat (length (w1 :: args))) (w1 :: args) (ctx e)
             (with_invoked (invoked w ++ [(fn e, w1 :: args, ctx e)])
                (with_out (mkOutput (Some write_adapter) session_ptr) w)))
    | None =>
        let text := lit "unknown command: " ++ w1 ++ CRLF in
        SessionWriteN
          ((vsnprintf (replicate 160 0) 160 (Some text)).1
             ++ map (beyond_msg E w) (seqZ 160 (Z.of_nat (length text) - 160)))
          (Z.of_nat (length text)) w
    end.

(** The line [hello] as Enter leaves it in a fresh session. *)
Definition typed_hello : World :=
  on_sess (fun s => with_line_pos 5 (with_line_buf (store (line_buf s) 0 (lit "hello")) s))
          World0.

(** The line [exit now] as Enter leaves it in a fresh session. *)
Definition typed_exit_now : World :=
  on_sess (fun s => with_line_pos 8 (with_line_buf (store (line_buf s) 0 (lit "exit now")) s))
          World0.

(** A registry with the one command [hello], at address 7. *)
Definition reg_hello : CommandRegistry :=
  (Register Instance0 (lit "hello") 7 nullptr (Some (lit "Say hi"))).2.

(** Commands that print the text [text] with one [ShellPrintf]. *)
Definition printing (text : list Z) : Externs :=
  mkExterns (fun _ _ _ _ w => (ShellPrintf idle (Some text) w).2) (fun _ _ _ w => w)
            (fun _ _ => 0).

(** The entries a prefix completes to, in table order. *)
Definition completions (reg : CommandRegistry) (pre : list Z) : list CmdEntry :=
  filter (fun e => pre `prefix_of` name e) (used reg).

(** The registered names are C strings: no NUL inside, and of a length a
    [uint32_t] holds. *)
Definition c_names (reg : CommandRegistry) : Prop :=
  Forall (fun e => Forall (fun b => b <> 0) (name e) /\
                   Z.of_nat (length (name e)) < 4294967296) (used reg).

Definition reg_two : CommandRegistry :=
  register_all Instance0
    [mkCmdEntry (lit "status") None 2 nullptr; mkCmdEntry (lit "stats") None 3 nullptr].

(** The world after the bytes [cs] were appended to the line and echoed
    one by one. *)
Definition typed (cs : list Z) (w : World) : World :=
  with_tx (tx w ++ map (fun c => [c]) cs)
    (on_sess (fun s => with_line_pos (line_pos s + Z.of_nat (length cs))
                         (with_line_buf (store (line_buf s) (Z.to_nat (line_pos s)) cs) s))
             w).

(** The line as [TabComplete] reads it: the C string in the buffer once
    a NUL is stored at [line_pos]. *)
Definition line_text (s : Session) : list Z :=
  cstr (set (line_buf s) (line_pos s) 0).

(** Every index the editor keeps is inside its array: the line buffer
    and [line_pos], the history ring with [hist_write] and [hist_count],
    and [hist_nav] while the history is browsed. *)
Definition editor_wf (s : Session) : Prop :=
  line_wf s /\ hist_ok s /\
  (hist_browsing s = true -> 0 <= hist_nav s < EMBSH_HISTORY_SIZE).

(** The words [ws] with a space between two of them, as they are
    typed. *)
Fixpoint joined (ws : list (list Z)) : list Z :=
  match ws with
  | [] => []
  | [w] => w
  | w :: ws' => w ++ SPACE :: joined ws'
  end.

(** The world when Enter has committed the line: the line break is
    echoed, the line is terminated and pushed to the history. *)
Definition entered_line (w : World) : World :=
  on_sess editor.PushHistory
    (on_sess (with_hist_browsing false)
       (on_sess (fun s => with_line_buf (set (line_buf s) (line_pos s) 0) s)
          (SessionWrite CRLF w))).

(** The session loop after a line was executed: the line is emptied and,
    if the session goes on, the prompt is written. *)
Definition next_prompt (prompt : list Z) (w : World) : World :=
  let w := on_sess (with_line_pos 0) w in
  let w := on_sess (fun s => with_line_buf (set (line_buf s) 0 0) s) w in
  if active (sess w) then SessionWrite prompt w else w.

(** What the login echoes for a printable byte: the byte itself in the
    user name, a star in the password. *)
Definition echo (ph : Auth.AuthPhase) (c : Z) : list Z :=
  match ph with
  | Auth.kUser => [c]
  | Auth.kPass => lit "*"
  end.

(** A telnet client that sends [admin], CR LF, [secret], CR LF and then
    [help]. *)
Definition login_once : World :=
  with_rx (lit "admin" ++ CRLF ++ lit "secret" ++ CRLF ++ lit "help")
          (on_sess (with_telnet_mode true) World0).

(** The names and descriptions of the table are C strings. *)
Definition c_texts (reg : CommandRegistry) : Prop :=
  Forall (fun e => Forall (fun b => b <> 0) (name e) /\
                   Forall (fun b => b <> 0) (default [] (desc e))) (used reg).

(** * Properties *)

(** ** Machine integers and arrays *)

Ltac modarith := unfold u32, u8 in *; Z.to_euclidean_division_equations; lia.

Lemma u32_small (x : Z) : 0 <= x < 4294967296 -> u32 x = x.
Proof. intros; modarith. Qed.

Section MemFacts.

Implicit Types (a src : list Z) (i j : Z).

Lemma length_set a i v : length (set a i v) = length a.
Proof. apply length_insert. Qed.

Lemma get_set_eq a i v : 0 <= i < Z.of_nat (length a) -> get (set a i v) i = v.
Proof. intros; apply list_lookup_total_insert_eq; lia. Qed.

Lemma get_set_ne a i j v : 0 <= i -> 0 <= j -> i <> j -> get (set a i v) j = get a j.
Proof. intros; apply list_lookup_total_insert_ne; lia. Qed.

Lemma length_store src : forall a off, length (store a off src) = length a.
Proof.
  induction src as [|b src IH]; intros a off; simpl; [done|].
  by rewrite IH, length_insert.
Qed.

Lemma length_memcpy a src n : length (memcpy a src n) = length a.
Proof. apply length_store. Qed.

Lemma store_lookup_lt src : forall a off (k : nat),
  (k < off)%nat -> store a off src !!! k = a !!! k.
Proof.
  induction src as [|b src IH]; intros a off k Hk; simpl; [done|].
  rewrite IH by lia. apply list_lookup_total_insert_ne; lia.
Qed.

Lemma store_lookup_ge src : forall a off (k : nat),
  (off + length src <= k)%nat -> store a off src !!! k = a !!! k.
Proof.
  induction src as [|b src IH]; intros a off k Hk; simpl in *; [done|].
  rewrite IH by lia. apply list_lookup_total_insert_ne; lia.
Qed.

Lemma store_lookup_in src : forall a off (k : nat),
  (off <= k < off + length src)%nat -> (k < length a)%nat ->
  store a off src !!! k = src !!! (k - off)%nat.
Proof.
  induction src as [|b src IH]; intros a off k Hk Hlen; simpl in *; [lia|].
  destruct (decide (k = off)) as [->|Hne].
  - rewrite store_lookup_lt by lia.
    rewrite list_lookup_total_insert_eq by lia.
    by replace (off - off)%nat with O by lia.
  - rewrite IH by (rewrite ?length_insert; lia).
    replace (k - off)%nat with (S (k - S off)) by lia. done.
Qed.

(** In range, [store] splices [src] into the array. *)
Lemma store_splice src : forall a off,
  (off + length src <= length a)%nat ->
  store a off src = take off a ++ src ++ drop (off + length src) a.
Proof.
  induction src as [|b src IH]; intros a off Hlen; simpl in *.
  - rewrite Nat.add_0_r. by rewrite take_drop.
  - rewrite IH by (rewrite length_insert; lia).
    rewrite (take_S_r _ off b) by (apply list_lookup_insert_eq; lia).
    rewrite take_insert_ge by lia.
    rewrite drop_insert_lt by lia.
    rewrite <- app_assoc. simpl.
    by replace (S (off + length src)) with (off + S (length src))%nat by lia.
Qed.

Lemma cstr_app_nul (xs rest : list Z) :
  Forall (fun b => b <> 0) xs -> cstr (xs ++ 0 :: rest) = xs.
Proof.
  induction 1 as [|b xs Hb _ IH]; simpl; [done|].
  destruct (Z.eqb_spec b 0); [done|]. by rewrite IH.
Qed.

Lemma length_cstr a : (length (cstr a) <= length a)%nat.
Proof.
  induction a as [|b a IH]; simpl; [done|].
  destruct (b =? 0); simpl; lia.
Qed.

Lemma cstr_nonzero a : Forall (fun b => b <> 0) (cstr a).
Proof.
  induction a as [|b a IH]; simpl; [done|].
  destruct (Z.eqb_spec b 0); [done|]. by constructor.
Qed.

Lemma strlen_bounds a : 0 <= strlen a <= Z.of_nat (length a).
Proof. unfold strlen. pose proof (length_cstr a). lia. Qed.

End MemFacts.

(** ** ShellSplit on concrete lines *)

Lemma loop_argc_range n : forall s,
  0 <= Split.argc s <= EMBSH_MAX_ARGS ->
  0 <= Split.argc (Split.loop n s) <= EMBSH_MAX_ARGS.
Proof.
  induction n as [|n IH]; intros s Hs; simpl; [done|].
  destruct (Split.i s <? Split.length s); simpl; [|done].
  destruct (Z.ltb_spec (Split.argc s) EMBSH_MAX_ARGS); [|done].
  unfold Split.body.
  destruct (Split.skip_blanks _ _ _ _) as [cmd1 i1].
  destruct (i1 >=? Split.length s); [done|].
  destruct (is_quote (get cmd1 i1)).
  - destruct (u32 (i1 + 1) >=? Split.length s); [done|].
    destruct (Split.scan_quoted _ _ _ _ _) as [[cmd3 i3] length3].
    destruct (i3 <? length3); apply IH; simpl; lia.
  - apply IH; simpl; lia.
Qed.

(** The counters of the loops of ShellSplit do not cut them short: a
    loop run with any counter of at least [length - i] (for the outer
    loop, [EMBSH_MAX_ARGS - argc]) gives the result it gives with the
    counter that the embedding passes. *)
Lemma skip_blanks_counter (n : nat) : forall (m : nat) (cmd : list Z) (i len : Z),
  0 <= i -> len < 4294967296 ->
  (Z.to_nat (len - i) <= n)%nat -> (Z.to_nat (len - i) <= m)%nat ->
  Split.skip_blanks n cmd i len = Split.skip_blanks m cmd i len.
Proof.
  induction n as [|n IH]; intros m cmd i len Hi Hlen Hn Hm.
  - destruct m as [|m]; simpl; [done|].
    destruct (Z.ltb_spec i len); [lia|done].
  - destruct m as [|m]; simpl.
    + destruct (Z.ltb_spec i len); [lia|done].
    + destruct (Z.ltb_spec i len); simpl; [|done].
      destruct (is_blank (get cmd i)); [|done].
      rewrite u32_small by lia. apply IH; lia.
Qed.

Lemma scan_word_counter (n : nat) : forall (m : nat) (cmd : list Z) (i len : Z),
  0 <= i -> len < 4294967296 ->
  (Z.to_nat (len - i) <= n)%nat -> (Z.to_nat (len - i) <= m)%nat ->
  Split.scan_word n cmd i len = Split.scan_word m cmd i len.
Proof.
  induction n as [|n IH]; intros m cmd i len Hi Hlen Hn Hm.
  - destruct m as [|m]; simpl; [done|].
    destruct (Z.ltb_spec i len); [lia|done].
  - destruct m as [|m]; simpl.
    + destruct (Z.ltb_spec i len); [lia|done].
    + destruct (Z.ltb_spec i len); simpl; [|done].
      destruct (negb (is_blank (get cmd i))); [|done].
      rewrite u32_small by lia. apply IH; lia.
Qed.

Lemma scan_quoted_counter (n : nat) : forall (m : nat) (q : Z) (cmd : list Z) (i len : Z),
  0 <= i -> len < 4294967296 ->
  (Z.to_nat (len - i) <= n)%nat -> (Z.to_nat (len - i) <= m)%nat ->
  Split.scan_quoted n q cmd i len = Split.scan_quoted m q cmd i len.
Proof.
  induction n as [|n IH]; intros m q cmd i len Hi Hlen Hn Hm.
  - destruct m as [|m]; simpl; [done|].
    destruct (Z.ltb_spec i len); [lia|done].
  - destruct m as [|m]; simpl.
    + destruct (Z.ltb_spec i len); [lia|done].
    + destruct (Z.ltb_spec i len); simpl; [|done].
      destruct (negb (get cmd i =? q)); [|done].
      rewrite (u32_small (i + 1)), (u32_small (len - 1)) by lia.
      destruct ((get cmd i =? BACKSLASH) && (i + 1 <? len)); apply IH; lia.
Qed.

Lemma body_argc (s s' : Split.st) :
  Split.body s = inr s' -> Split.argc s' = Split.argc s + 1.
Proof.
  unfold Split.body.
  destruct (Split.skip_blanks _ _ _ _) as [cmd1 i1].
  destruct (i1 >=? Split.length s); [done|].
  destruct (is_quote (get cmd1 i1)).
  - destruct (u32 (i1 + 1) >=? Split.length s); [done|].
    destruct (Split.scan_quoted _ _ _ _ _) as [[cmd3 i3] length3].
    destruct (i3 <? length3); by intros [= <-].
  - by intros [= <-].
Qed.

Lemma loop_counter (n : nat) : forall (m : nat) (s : Split.st),
  (Z.to_nat (EMBSH_MAX_ARGS - Split.argc s) <= n)%nat ->
  (Z.to_nat (EMBSH_MAX_ARGS - Split.argc s) <= m)%nat ->
  Split.loop n s = Split.loop m s.
Proof.
  induction n as [|n IH]; intros m s Hn Hm.
  - destruct m as [|m]; simpl; [done|].
    destruct (Z.ltb_spec (Split.argc s) EMBSH_MAX_ARGS); [lia|].
    by rewrite andb_false_r.
  - destruct m as [|m]; simpl.
    + destruct (Z.ltb_spec (Split.argc s) EMBSH_MAX_ARGS); [lia|].
      by rewrite andb_false_r.
    + destruct (Split.i s <? Split.length s); [|done].
      destruct (Z.ltb_spec (Split.argc s) EMBSH_MAX_ARGS); [|done]. simpl.
      destruct (Split.body s) as [s'|s'] eqn:Hb; [done|].
      apply body_argc in Hb. apply IH; lia.
Qed.

(** Inside a quoted region a backslash before the closing quote
    character does not protect it: the scan removes the backslash and
    stops on the quote that has moved into its place. *)
Lemma scan_quoted_escaped_quote (n : nat) (q : Z) (cmd : list Z) (i len : Z) :
  0 <= i -> i + 1 < len -> len <= Z.of_nat (length cmd) -> len < 4294967296 ->
  q <> BACKSLASH -> get cmd i = BACKSLASH -> get cmd (i + 1) = q ->
  Split.scan_quoted (S (S n)) q cmd i len
  = (memmove cmd i (i + 1) (len - i - 1), i, len - 1).
Proof.
  intros Hi Hlt Hlen Hmax Hq Hb Hnext.
  assert (Hmoved : get (memmove cmd i (i + 1) (len - i - 1)) i = q).
  { unfold get, memmove, slice.
    rewrite store_lookup_in by (rewrite ?length_take, ?length_drop; lia).
    rewrite Nat.sub_diag, lookup_total_take.
    case_decide; [|lia]. rewrite lookup_total_drop, Nat.add_0_r.
    done. }
  cbn [Split.scan_quoted].
  rewrite !(u32_small (i + 1)), (u32_small (len - i)), (u32_small (len - i - 1)),
    (u32_small (len - 1)) by lia.
  rewrite Hb.
  destruct (Z.ltb_spec i len); [|lia].
  destruct (Z.eqb_spec BACKSLASH q); [done|].
  destruct (Z.ltb_spec (i + 1) len); [|lia].
  rewrite Z.eqb_refl. cbn [andb negb].
  rewrite Hmoved, Z.eqb_refl.
  destruct (Z.ltb_spec i (len - 1)); [|lia]. done.
Qed.

(** C1 (the code departs from the claim).  On [line_escaped_quote] the
    backslash is removed by shifting the rest of the buffer left, but the
    scan then examines the byte that was escaped: the quote that the
    backslash was to protect ends the token.  ShellSplit returns three
    arguments: [echo], [a], and [b] followed by two double quotes; not
    the two arguments [echo] and [a], double quote, [b].  In general,
    wherever a backslash stands before the quote character inside a
    quoted region, the scan stops on that quote once the backslash is
    removed. *)
Theorem ShellSplit_escaped_quote_ends_token :
  (let r := ShellSplit line_escaped_quote 11 in
   r.1.1 = 3 /\ tokens r = [lit "echo"; lit "a"; [98; DQUOTE; DQUOTE]]) /\
  (forall (n : nat) (q : Z) (cmd : list Z) (i len : Z),
     0 <= i -> i + 1 < len -> len <= Z.of_nat (length cmd) -> len < 4294967296 ->
     q <> BACKSLASH -> get cmd i = BACKSLASH -> get cmd (i + 1) = q ->
     Split.scan_quoted (S (S n)) q cmd i len
     = (memmove cmd i (i + 1) (len - i - 1), i, len - 1)).
Proof.
  split; [vm_compute; done|]. intros. by apply scan_quoted_escaped_quote.
Qed.

(** C7 (the code departs from the claim).  ShellSplit never reports an
    error: for every buffer the value returned is an argument count
    between 0 and [EMBSH_MAX_ARGS].  On 33 words it returns 32, and the
    last argument runs on to the end of the line, the 33rd word
    included. *)
Theorem ShellSplit_overflow_not_reported :
  (forall cmd length, 0 <= (ShellSplit cmd length).1.1 <= EMBSH_MAX_ARGS) /\
  (let r := ShellSplit (line_of_words 33) 65 in
   r.1.1 = 32 /\ last (tokens r) = Some (lit "a a")).
Proof.
  split.
  - intros cmd length. unfold ShellSplit. cbv zeta. cbn [fst snd].
    apply loop_argc_range. cbn [Split.argc]. unfold EMBSH_MAX_ARGS. lia.
  - vm_compute. done.
Qed.

(** ** The telnet IAC filter *)

Lemma with_iac_state_inj (st st' : IacState) (s : Session) :
  with_iac_state st s = with_iac_state st' s -> st = st'.
Proof. intros H. by apply (f_equal iac_state) in H. Qed.

Lemma with_iac_state_same (s : Session) : with_iac_state (iac_state s) s = s.
Proof. by destruct s. Qed.

(** C4.  FilterIac is the four-state automaton of the table: from state
    [iac_state s] on input [byte] it moves to state [st'] and hands on
    [o] exactly when the table has the row ([iac_state s], [byte], [st'],
    [o]); no other field of the session changes. *)
Theorem FilterIac_is_the_table (s : Session) (byte : Z) (st' : IacState) (o : Z) :
  iac_row (iac_state s) byte st' o <->
  editor.FilterIac s byte = (o, with_iac_state st' s).
Proof.
  unfold editor.FilterIac. split.
  - intros H. inversion H; subst;
      repeat match goal with
             | |- context [?a =? ?b] => destruct (Z.eqb_spec a b)
             | |- context [?a >=? ?b] => destruct (Z.geb_spec a b)
             | |- context [?a <=? ?b] => destruct (Z.leb_spec a b)
             end; simpl; try done; try lia.
    all: by rewrite ?H0, ?with_iac_state_same.
  - destruct (iac_state s) eqn:Hst;
      repeat match goal with
             | |- context [?a =? ?b] => destruct (Z.eqb_spec a b)
             | |- context [?a >=? ?b] => destruct (Z.geb_spec a b)
             | |- context [?a <=? ?b] => destruct (Z.leb_spec a b)
             end; simpl; intros [= <- Heq].
    all: try (apply with_iac_state_inj in Heq; subst st').
    all: try (rewrite <- (with_iac_state_same s) in Heq at 1;
              apply with_iac_state_inj in Heq; rewrite Hst in Heq; subst st').
    all: subst; constructor; lia.
Qed.

Lemma FilterIac_is_the_table_witness :
  editor.FilterIac (with_iac_state IacIac Session0) 0xFB
  = (0, with_iac_state IacNego (with_iac_state IacIac Session0)).
Proof.
  apply (FilterIac_is_the_table (with_iac_state IacIac Session0) 0xFB IacNego 0).
  apply row_iac_verb. lia.
Defined.

(** ** The command registry *)

Lemma scan_name_None reg nm : scan_name reg nm = None <-> ~ registered reg nm.
Proof.
  unfold scan_name, registered. rewrite list_find_None, Forall_forall.
  split.
  - intros H (e & He & Hn). by apply (H e).
  - intros H e He Hn. apply H. by exists e.
Qed.

Lemma scan_name_Some reg nm i e :
  scan_name reg nm = Some (i, e) -> registered reg nm.
Proof.
  unfold scan_name, registered. intros (Hl & Hn & _)%list_find_Some.
  exists e. split; [|done]. by apply list_elem_of_lookup_2 in Hl.
Qed.

Lemma Instance0_wf : wf_registry Instance0.
Proof. split; [reflexivity | simpl; unfold EMBSH_MAX_COMMANDS; lia]. Qed.

Lemma used_after_Register reg e :
  wf_registry reg -> count_ reg < EMBSH_MAX_COMMANDS ->
  used (mkRegistry (<[Z.to_nat (count_ reg) := e]> (cmds_ reg)) (u32 (count_ reg + 1)))
  = used reg ++ [e].
Proof.
  intros [Hlen Hc] Hlt. unfold used; simpl. unfold EMBSH_MAX_COMMANDS in *.
  rewrite u32_small by lia.
  replace (Z.to_nat (count_ reg + 1)) with (S (Z.to_nat (count_ reg))) by lia.
  rewrite (take_S_r _ _ e) by (apply list_lookup_insert_eq; lia).
  by rewrite take_insert_ge by lia.
Qed.

(** C5.  On a well-formed registry, [Register] answers [DuplicateName]
    exactly when an entry with the name exists, [RegistryFull] exactly
    when it does not and the table holds [EMBSH_MAX_COMMANDS] entries,
    and succeeds exactly when the name is new and the table has room; a
    failure leaves the table and the count as they were; a success
    appends the entry made of the four arguments to the entries in use,
    so that [Find] on the name returns that entry, and the count is one
    more. *)
Theorem Register_spec (reg : CommandRegistry) (nm : list Z) (f : CmdFn) (c : ptr)
    (d : option (list Z)) :
  wf_registry reg ->
  let r := (Register reg nm f c d).1 in
  let reg' := (Register reg nm f c d).2 in
  (r = error kDuplicateName <-> registered reg nm) /\
  (r = error kRegistryFull <->
   ~ registered reg nm /\ count_ reg = EMBSH_MAX_COMMANDS) /\
  (r = success tt <-> ~ registered reg nm /\ count_ reg < EMBSH_MAX_COMMANDS) /\
  (r <> success tt -> reg' = reg) /\
  (r = success tt ->
   used reg' = used reg ++ [mkCmdEntry nm d f c] /\
   Find reg' nm = Some (mkCmdEntry nm d f c) /\ Count reg' = Count reg + 1) /\
  wf_registry reg'.
Proof.
  intros Hwf. pose proof Hwf as [Hlen Hc]. unfold Register.
  destruct (scan_name reg nm) as [[i e]|] eqn:Hscan.
  - apply scan_name_Some in Hscan. simpl.
    split_and!; try done; split; try done; intros [? _]; done.
  - apply scan_name_None in Hscan.
    destruct (Z.geb_spec (count_ reg) EMBSH_MAX_COMMANDS) as [Hfull|Hroom]; simpl.
    + split_and!; try done.
      * split; [intros _; split; [done|lia]|done].
      * split; [done|intros [_ ?]; lia].
    + split_and!; try done.
      * split; [done|intros [_ ?]; lia].
      * intros _. split_and!.
        -- by apply used_after_Register.
        -- unfold Find, scan_name. rewrite used_after_Register by done.
           apply scan_name_None in Hscan. unfold scan_name in Hscan.
           rewrite list_find_app_r by done. simpl.
           destruct (decide (nm = nm)); done.
        -- unfold Count; simpl. unfold EMBSH_MAX_COMMANDS in *. apply u32_small. lia.
      * split; simpl; [by rewrite length_insert|].
        unfold EMBSH_MAX_COMMANDS in *. rewrite u32_small; lia.
Qed.

Lemma reg_help_reboot_wf : wf_registry reg_help_reboot.
Proof. split; [reflexivity|by vm_compute]. Qed.

Lemma reg_full_wf : wf_registry reg_full.
Proof. split; [reflexivity|by vm_compute]. Qed.

Lemma Register_spec_witness :
  (Register reg_help_reboot (lit "reboot") 9 session_ptr None).1 = error kDuplicateName /\
  (Register reg_help_reboot (lit "status") 9 session_ptr (Some (lit "Show status"))).1
  = success tt /\
  Find (Register reg_help_reboot (lit "status") 9 session_ptr (Some (lit "Show status"))).2
       (lit "status")
  = Some (mkCmdEntry (lit "status") (Some (lit "Show status")) 9 session_ptr) /\
  (Register reg_full (lit "status") 9 session_ptr None).1 = error kRegistryFull.
Proof.
  assert (Hnew : ~ registered reg_help_reboot (lit "status"))
    by (apply scan_name_None; reflexivity).
  assert (Hok : (Register reg_help_reboot (lit "status") 9 session_ptr
                   (Some (lit "Show status"))).1 = success tt).
  { apply (Register_spec reg_help_reboot (lit "status") 9 session_ptr
             (Some (lit "Show status")) reg_help_reboot_wf).
    split; [exact Hnew|by vm_compute]. }
  split_and!.
  - apply (Register_spec reg_help_reboot (lit "reboot") 9 session_ptr None
             reg_help_reboot_wf).
    apply (scan_name_Some _ _ 1%nat (mkCmdEntry (lit "reboot") None 8 nullptr)).
    reflexivity.
  - exact Hok.
  - apply (Register_spec reg_help_reboot (lit "status") 9 session_ptr
             (Some (lit "Show status")) reg_help_reboot_wf).
    exact Hok.
  - apply (Register_spec reg_full (lit "status") 9 session_ptr None reg_full_wf).
    split; [apply scan_name_None; by vm_compute|reflexivity].
Defined.

(** ** ShellPrintf *)

Lemma printf_buf_facts (text : list Z) :
  Forall (fun b => b <> 0) text ->
  length (printf_buf text) = 512%nat /\
  get (printf_buf text) 511 = 0 /\
  cstr (printf_buf text) = take 511 text.
Proof.
  intros Hnz. unfold printf_buf, vsnprintf; cbn [fst].
  split; [by rewrite length_set, length_store|].
  split; [apply get_set_eq; rewrite length_store; simpl; lia|].
  assert (Hlen : (length (take 511 text) <= 511)%nat) by (rewrite length_take; lia).
  change (Z.to_nat (512 - 1)) with 511%nat.
  rewrite store_splice by (rewrite length_app, length_replicate; simpl; lia).
  rewrite take_0. simpl app at 1.
  rewrite <- app_assoc. unfold set. change (Z.to_nat 511) with 511%nat.
  rewrite insert_app_r_alt by done. simpl app.
  destruct (511 - length (take 511 text))%nat; simpl;
    apply cstr_app_nul, Forall_take, Hnz.
Qed.

(** C6 (as the code has it).  Without a sink [ShellPrintf] returns -1 and
    leaves the world as it was.  With a sink [f] and a text of [n > 0]
    bytes, it returns [n] and makes one call of [f], on the first 511
    bytes of the text, held in a 512-byte buffer with a NUL at index 511.
    With a sink and an empty text, or a failed conversion, it makes no
    call. *)
Theorem ShellPrintf_spec (E : Externs) (w : World) (text : list Z) :
  Forall (fun b => b <> 0) text ->
  (forall e, write (out w) = None -> ShellPrintf E e w = (-1, w)) /\
  (length (printf_buf text) = 512%nat /\ get (printf_buf text) 511 = 0 /\
   cstr (printf_buf text) = take 511 text) /\
  (forall f, write (out w) = Some f -> text <> [] ->
     ShellPrintf E (Some text) w =
     (Z.of_nat (length text),
      call_write E f (take 511 text) (octx (out w))
        (with_sunk (sunk w ++ [(f, take 511 text, octx (out w))]) w))) /\
  (forall f, write (out w) = Some f ->
     ShellPrintf E (Some []) w = (0, w) /\ ShellPrintf E None w = (-1, w)).
Proof.
  intros Hnz. pose proof (printf_buf_facts text Hnz) as (Hl & Hg & Hc).
  split; [|split; [done|split]].
  - intros e Hnone. unfold ShellPrintf. by rewrite Hnone.
  - intros f Hf Hne. unfold ShellPrintf. rewrite Hf.
    unfold printf_buf in Hc. unfold vsnprintf in *. cbn [fst] in Hc.
    destruct (Z.gtb_spec (Z.of_nat (length text)) 0) as [_|Hle].
    + by rewrite Hc.
    + destruct text; [done|simpl in Hle; lia].
  - intros f Hf. unfold ShellPrintf. by rewrite Hf.
Qed.

Lemma ShellPrintf_spec_witness :
  let w := with_out (mkOutput (Some write_adapter) session_ptr) World0 in
  Forall (fun b => b <> 0) (lit "Hi") /\
  tx (ShellPrintf idle (Some (lit "Hi")) w).2 = [lit "Hi"].
Proof.
  assert (H : Forall (fun b => b <> 0) (lit "Hi")) by (repeat constructor; done).
  split; [exact H|].
  pose proof (ShellPrintf_spec idle
                (with_out (mkOutput (Some write_adapter) session_ptr) World0)
                (lit "Hi") H) as (_ & _ & Hcall & _).
  cbv zeta. rewrite (Hcall write_adapter eq_refl); [reflexivity | done].
Defined.

(** C6, the claim as stated fails: with the sink installed and a format
    that expands to the empty text, [ShellPrintf] returns 0 and the sink
    is not called. *)
Lemma ShellPrintf_empty_makes_no_call :
  let w := with_out (mkOutput (Some write_adapter) session_ptr) World0 in
  (ShellPrintf idle (Some []) w).1 = 0 /\
  sunk (ShellPrintf idle (Some []) w).2 = [] /\
  length (sunk (ShellPrintf idle (Some []) w).2) <> 1%nat.
Proof. vm_compute. repeat split; done. Qed.

(** ** History navigation on concrete sessions *)

Lemma hist_nav_SessionWrite str w : hist_nav (sess (SessionWrite str w)) = hist_nav (sess w).
Proof. unfold SessionWrite. by destruct (_ && _). Qed.

Lemma hist_nav_ReplaceLine (new_line : list Z) (w : World) :
  hist_nav (sess (editor.ReplaceLine new_line w)) = hist_nav (sess w).
Proof.
  unfold editor.ReplaceLine. cbv zeta. unfold SessionWriteN.
  destruct (_ && _); cbn [sess with_tx on_sess with_sess hist_nav with_line_pos with_line_buf].
  all: unfold editor.erase_line; induction (Z.to_nat _) as [|k IH]; simpl; [done|];
    by rewrite hist_nav_SessionWrite.
Qed.

(** When the ring holds 15 or 16 entries, the guard of [HistoryUp] never
    stops the walk: every call moves [hist_nav] one slot back modulo
    [EMBSH_HISTORY_SIZE], from [hist_write] on the first call. *)
Lemma HistoryUp_never_stops (w : World) :
  15 <= hist_count (sess w) <= EMBSH_HISTORY_SIZE ->
  0 <= hist_write (sess w) < EMBSH_HISTORY_SIZE ->
  0 <= hist_nav (sess w) < EMBSH_HISTORY_SIZE ->
  let from := if hist_browsing (sess w) then hist_nav (sess w) else hist_write (sess w) in
  hist_nav (sess (editor.HistoryUp w)) = (from + 15) mod EMBSH_HISTORY_SIZE.
Proof.
  unfold EMBSH_HISTORY_SIZE. intros Hc Hw Hn. cbv zeta. unfold editor.HistoryUp.
  destruct (Z.eqb_spec (hist_count (sess w)) 0); [lia|]. cbv zeta.
  unfold EMBSH_HISTORY_SIZE.
  destruct (hist_browsing (sess w)); cbn [negb];
    cbn [sess on_sess with_sess hist_nav hist_write hist_count with_hist_nav
         with_hist_browsing].
  - destruct (Z.eqb_spec (u32 (u32 (hist_nav (sess w) + 16) - 1) mod 16) (hist_nav (sess w)));
      [modarith|].
    destruct (Z.gtb_spec (u32 (u32 (hist_write (sess w) + 16)
                               - u32 (u32 (hist_nav (sess w) + 16) - 1) mod 16) mod 16)
                         (hist_count (sess w))) as [Hgt|Hle]; [clear n0; modarith|].
    rewrite hist_nav_ReplaceLine. cbn [sess on_sess with_sess hist_nav with_hist_nav].
    clear n0 Hle. modarith.
  - destruct (Z.eqb_spec (u32 (u32 (hist_write (sess w) + 16) - 1) mod 16) (hist_write (sess w)));
      [modarith|].
    destruct (Z.gtb_spec (u32 (u32 (hist_write (sess w) + 16)
                               - u32 (u32 (hist_write (sess w) + 16) - 1) mod 16) mod 16)
                         (hist_count (sess w))) as [Hgt|Hle]; [clear n0; modarith|].
    rewrite hist_nav_ReplaceLine. cbn [sess on_sess with_sess hist_nav with_hist_nav].
    clear n0 Hle. modarith.
Qed.

(** C3 (the code departs from the claim).  After 16 distinct lines the
    ring is exactly full: [hist_count = 16], [hist_write = 0], the oldest
    line [a] in slot 0 and the newest [p] in slot 15.  Sixteen up-arrows
    reach the oldest entry; the seventeenth moves [hist_nav] on to slot
    15 and shows the newest line again: the distance that the guard
    compares with [hist_count] is taken modulo 16 and never exceeds 15.
    After 15 lines ([hist_count = 15], [hist_write = 15]) the sixteenth
    up-arrow moves [hist_nav] to slot 15, which holds no entry, and
    empties the line.  In general, with 15 or 16 entries every call of
    [HistoryUp] moves [hist_nav] one slot back modulo 16: the walk never
    stops. *)
Theorem HistoryUp_wraps_past_oldest :
  (let full := run (type_lines 16) World0 in
   let w16 := run (up_arrows 16) full in
   let w17 := run (up_arrows 17) full in
   let almost := run (type_lines 15) World0 in
   let v15 := run (up_arrows 15) almost in
   let v16 := run (up_arrows 16) almost in
   (hist_count (sess full) = 16 /\ hist_write (sess full) = 0) /\
   (hist_nav (sess w16) = 0 /\ cstr (line_buf (sess w16)) = lit "a") /\
   (hist_nav (sess w17) = 15 /\ cstr (line_buf (sess w17)) = lit "p") /\
   (hist_count (sess almost) = 15 /\ hist_write (sess almost) = 15) /\
   (hist_nav (sess v15) = 0 /\ cstr (line_buf (sess v15)) = lit "a") /\
   (hist_nav (sess v16) = 15 /\ cstr (line_buf (sess v16)) = [])) /\
  (forall w : World,
     15 <= hist_count (sess w) <= EMBSH_HISTORY_SIZE ->
     0 <= hist_write (sess w) < EMBSH_HISTORY_SIZE ->
     0 <= hist_nav (sess w) < EMBSH_HISTORY_SIZE ->
     let from := if hist_browsing (sess w) then hist_nav (sess w) else hist_write (sess w) in
     hist_nav (sess (editor.HistoryUp w)) = (from + 15) mod EMBSH_HISTORY_SIZE).
Proof.
  split; [vm_compute; repeat split; done|]. exact HistoryUp_never_stops.
Qed.

(** ** ExecuteLine on a blank line *)

Lemma get_memcpy_lt (dst src : list Z) (n j : Z) :
  0 <= j < n -> n <= Z.of_nat (length dst) -> n <= Z.of_nat (length src) ->
  get (memcpy dst src n) j = get src j.
Proof.
  intros Hj Hd Hs. unfold get, memcpy, slice. rewrite drop_0.
  rewrite store_lookup_in by (rewrite ?length_take; lia).
  rewrite Nat.sub_0_r, lookup_total_take. case_decide; [done|lia].
Qed.

Lemma skip_blanks_all (n : nat) : forall (cmd : list Z) (i len : Z),
  0 <= i <= len -> len < 4294967296 ->
  (forall j, i <= j < len -> is_blank (get cmd j) = true) ->
  (Z.to_nat (len - i) <= n)%nat ->
  (Split.skip_blanks n cmd i len).2 = len.
Proof.
  induction n as [|n IH]; intros cmd i len Hi Hlen Hblank Hn; simpl.
  - lia.
  - destruct (Z.ltb_spec i len) as [Hlt|Hge]; simpl; [|lia].
    rewrite Hblank by lia.
    rewrite u32_small by lia.
    apply IH; try lia.
    intros j Hj. rewrite get_set_ne by lia. apply Hblank. lia.
Qed.

(** C10.  When the line consists of spaces and tabs only, [ExecuteLine]
    returns the world it was given: nothing is written to the session, no
    command is invoked, and the session and the output sink are as
    before, for every registry and whatever the commands would do. *)
Theorem ExecuteLine_blank_line (E : Externs) (reg : CommandRegistry) (w : World) :
  length (line_buf (sess w)) = Z.to_nat EMBSH_LINE_BUF_SIZE ->
  0 < line_pos (sess w) < EMBSH_LINE_BUF_SIZE ->
  blank_line (sess w) ->
  ExecuteLine E reg w = w.
Proof.
  unfold EMBSH_LINE_BUF_SIZE. intros Hlen Hpos Hblank.
  unfold ExecuteLine, ShellSplit. cbv zeta.
  set (cmd_copy := memcpy _ _ _).
  set (len := line_pos (sess w)) in *.
  change (Z.to_nat EMBSH_MAX_ARGS) with 32%nat.
  cbn [Split.loop Split.i Split.length Split.argc].
  destruct (Z.ltb_spec 0 len) as [_|]; [|lia].
  change (0 <? EMBSH_MAX_ARGS) with true. cbn [andb].
  unfold Split.body. cbn [Split.cmd Split.i Split.length Split.argc Split.argv].
  unfold Split.remaining. cbn [Split.i Split.length].
  pose proof (skip_blanks_all (Z.to_nat (len - 0)) cmd_copy 0 len) as Hskip.
  destruct (Split.skip_blanks _ cmd_copy 0 len) as [cmd1 i1]. simpl in Hskip.
  rewrite Hskip; try lia.
  - destruct (Z.geb_spec len len); [|lia]. reflexivity.
  - intros j Hj. subst cmd_copy.
    unfold EMBSH_LINE_BUF_SIZE.
    rewrite get_memcpy_lt; [by apply Hblank| |rewrite length_replicate|];
      rewrite ?u32_small; lia.
Qed.

Lemma ExecuteLine_blank_line_witness :
  ExecuteLine idle Instance0 three_blanks = three_blanks.
Proof.
  apply ExecuteLine_blank_line.
  - reflexivity.
  - vm_compute. done.
  - intros j Hj. change (line_pos (sess three_blanks)) with 3 in Hj.
    assert (Hc : j = 0 \/ j = 1 \/ j = 2) by lia.
    destruct Hc as [->|[->| ->]]; reflexivity.
Defined.

(** ** The history ring *)

Lemma cstr_prefix (a : list Z) : cstr a = take (length (cstr a)) a.
Proof.
  induction a as [|b a IH]; simpl; [done|].
  destruct (b =? 0); simpl; [done|]. by rewrite <- IH.
Qed.

(** Copying a string of length [n] into a longer array and terminating
    it there stores that string. *)
Lemma cstr_memcpy_set (dst src : list Z) (n : Z) :
  strlen src = n -> n < Z.of_nat (length dst) ->
  cstr (set (memcpy dst src n) n 0) = cstr src.
Proof.
  unfold strlen. intros Hn Hlt.
  pose proof (length_cstr src) as Hle.
  unfold memcpy, slice, set. rewrite drop_0.
  assert (Ht : take (Z.to_nat n) src = cstr src).
  { rewrite (cstr_prefix src). f_equal. lia. }
  rewrite Ht.
  rewrite store_splice by (simpl; lia).
  rewrite take_0. simpl app at 1. simpl Nat.add.
  rewrite insert_app_r_alt by lia.
  replace (Z.to_nat n - length (cstr src))%nat with O by lia.
  destruct (drop (length (cstr src)) dst) as [|x rest] eqn:Hd.
  - apply (f_equal length) in Hd. rewrite length_drop in Hd. simpl in Hd. lia.
  - simpl. apply cstr_app_nul, cstr_nonzero.
Qed.

Lemma row_length (s : Session) (i : Z) :
  hist_ok s -> 0 <= i < EMBSH_HISTORY_SIZE ->
  length (row (history s) i) = Z.to_nat EMBSH_LINE_BUF_SIZE.
Proof.
  intros (Hlen & Hrows & _) Hi. unfold row.
  rewrite Forall_forall in Hrows. apply Hrows.
  apply list_elem_of_lookup_total_2. unfold EMBSH_HISTORY_SIZE in *. lia.
Qed.

(** What a push that is not skipped does. *)
Lemma PushHistory_stores (s : Session) :
  hist_ok s -> line_ok s -> fresh_line s ->
  let s1 := editor.PushHistory s in
  hist_count s1 = Z.min (hist_count s + 1) EMBSH_HISTORY_SIZE /\
  hist_write s1 = (hist_write s + 1) mod EMBSH_HISTORY_SIZE /\
  cstr (row (history s1) (hist_write s)) = cstr (line_buf s) /\
  last_slot s1 = hist_write s /\
  line_buf s1 = line_buf s /\ line_pos s1 = line_pos s.
Proof.
  intros Hh Hl Hfresh. pose proof Hh as (Hlen & Hrows & Hw & Hc).
  pose proof Hl as (Hpos & Hstr).
  pose proof (row_length s (hist_write s) Hh Hw) as Hrow.
  unfold editor.PushHistory. fold (last_slot s).
  destruct (Z.eqb_spec (line_pos s) 0) as [|_]; [lia|].
  assert (Hskip : (hist_count s >? 0)
                  && streq (cstr (row (history s) (last_slot s))) (cstr (line_buf s)) = false).
  { destruct Hfresh as [H0|Hne].
    - rewrite H0. done.
    - unfold streq. rewrite bool_decide_eq_false_2 by done. apply andb_false_r. }
  rewrite Hskip. cbv zeta.
  unfold last_slot, EMBSH_HISTORY_SIZE, EMBSH_LINE_BUF_SIZE in *.
  cbn [hist_count hist_write history line_buf line_pos with_history with_hist_write
       with_hist_count].
  destruct (Z.ltb_spec (hist_count s) 16);
    cbn [hist_count hist_write history line_buf line_pos with_history with_hist_write
         with_hist_count];
    (split; [modarith|split; [modarith|split; [|split; [modarith|done]]]]).
  all: unfold row; rewrite list_lookup_total_insert_eq by lia;
    apply cstr_memcpy_set; [done|fold (row (history s) (hist_write s)); lia].
Qed.

(** C8.  On a well-formed session whose line buffer holds a non-empty
    line: a push of a line that differs from the entry pushed last (or
    the first push) stores the line in slot [hist_write], advances
    [hist_write] modulo [EMBSH_HISTORY_SIZE] and increments [hist_count]
    up to [EMBSH_HISTORY_SIZE]; and whatever the first push did, a second
    push of the same line right after it changes nothing in the session:
    [hist_count], [hist_write] and the stored entries stay as the first
    push left them. *)
Theorem PushHistory_spec (s : Session) :
  hist_ok s -> line_ok s ->
  let s1 := editor.PushHistory s in
  (fresh_line s ->
   hist_count s1 = Z.min (hist_count s + 1) EMBSH_HISTORY_SIZE /\
   hist_write s1 = (hist_write s + 1) mod EMBSH_HISTORY_SIZE /\
   cstr (row (history s1) (hist_write s)) = cstr (line_buf s)) /\
  (forall s2,
     history s2 = history s1 -> hist_count s2 = hist_count s1 ->
     hist_write s2 = hist_write s1 -> cstr (line_buf s2) = cstr (line_buf s) ->
     editor.PushHistory s2 = s2).
Proof.
  intros Hh Hl. cbv zeta. split.
  - intros Hfresh. pose proof (PushHistory_stores s Hh Hl Hfresh) as H. cbv zeta in H. tauto.
  - assert (Hlast : hist_count (editor.PushHistory s) > 0 /\
                    cstr (row (history (editor.PushHistory s))
                              (last_slot (editor.PushHistory s))) = cstr (line_buf s)).
    { destruct (decide (hist_count s = 0)) as [H0|Hn0].
      - pose proof (PushHistory_stores s Hh Hl (or_introl H0)) as H. cbv zeta in H.
        destruct H as (Hc & _ & Hstored & Hls & _). rewrite Hls.
        split; [|done]. destruct Hh as (_ & _ & _ & ?). unfold EMBSH_HISTORY_SIZE in *. lia.
      - destruct (decide (cstr (row (history s) (last_slot s)) = cstr (line_buf s)))
          as [Heq|Hne].
        + assert (Hsame : editor.PushHistory s = s).
          { unfold editor.PushHistory. fold (last_slot s).
            destruct (line_pos s =? 0); [done|].
            destruct (Z.gtb_spec (hist_count s) 0) as [_|]; [|destruct Hh as (_&_&_&?); lia].
            unfold streq. by rewrite bool_decide_eq_true_2. }
          rewrite Hsame. split; [destruct Hh as (_&_&_&?); lia|done].
        + pose proof (PushHistory_stores s Hh Hl (or_intror Hne)) as H. cbv zeta in H.
          destruct H as (Hc & _ & Hstored & Hls & _). rewrite Hls.
          split; [|done]. destruct Hh as (_ & _ & _ & ?). unfold EMBSH_HISTORY_SIZE in *. lia. }
    destruct Hlast as [Hpos Hsame].
    intros s2 Hhist Hcount Hwrite Hline.
    unfold editor.PushHistory at 1. 
    destruct (line_pos s2 =? 0); [done|].
    fold (last_slot s2).
    assert (Hls : last_slot s2 = last_slot (editor.PushHistory s)).
    { unfold last_slot. by rewrite Hwrite. }
    rewrite Hls, Hhist, Hcount, Hsame, Hline.
    destruct (Z.gtb_spec (hist_count (editor.PushHistory s)) 0) as [_|]; [|lia].
    unfold streq. by rewrite bool_decide_eq_true_2.
Qed.

Lemma Session0_hist_ok (s : Session) :
  history s = history Session0 -> hist_write s = 0 -> hist_count s = 0 -> hist_ok s.
Proof.
  intros Hh Hw Hc. unfold hist_ok. rewrite Hh, Hw, Hc.
  split; [reflexivity|]. split; [|unfold EMBSH_HISTORY_SIZE; lia].
  apply Forall_replicate. reflexivity.
Qed.

Lemma PushHistory_spec_witness :
  (hist_ok typed_ab /\ line_ok typed_ab) /\
  hist_count (editor.PushHistory typed_ab) = 1 /\
  editor.PushHistory (editor.PushHistory typed_ab) = editor.PushHistory typed_ab.
Proof.
  assert (Hh : hist_ok typed_ab) by (by apply Session0_hist_ok).
  assert (Hl : line_ok typed_ab) by (split; [vm_compute; done|reflexivity]).
  split; [done|].
  pose proof (PushHistory_spec typed_ab Hh Hl) as [Hfresh Htwice].
  split.
  - destruct (Hfresh (or_introl eq_refl)) as (Hc & _). rewrite Hc. reflexivity.
  - apply Htwice; reflexivity.
Defined.

(** ** The line buffer under ProcessByte *)

Ltac sess_simpl :=
  cbn [sess tx rx out invoked sunk on_sess
       with_sess with_tx with_rx with_out with_invoked with_sunk
       write_fn line_buf line_pos history hist_count hist_write hist_nav
       hist_browsing telnet_mode auth_required authenticated auth_attempts
       esc_state iac_state active
       with_write_fn with_line_buf with_line_pos with_history with_hist_count
       with_hist_write with_hist_nav with_hist_browsing with_telnet_mode
       with_auth_required with_authenticated with_auth_attempts
       with_esc_state with_iac_state with_active fst snd andb orb negb] in *.

Lemma sess_SessionWrite str w : sess (SessionWrite str w) = sess w.
Proof. unfold SessionWrite. by destruct (_ && _). Qed.

Lemma sess_SessionWriteN buf len w : sess (SessionWriteN buf len w) = sess w.
Proof. unfold SessionWriteN. by destruct (_ && _). Qed.

Lemma sess_iter_SessionWrite str n w : sess (Nat.iter n (SessionWrite str) w) = sess w.
Proof. induction n as [|n IH]; simpl; [done|]. by rewrite sess_SessionWrite. Qed.

Lemma sess_erase_line w : sess (editor.erase_line w) = sess w.
Proof. apply sess_iter_SessionWrite. Qed.

Create Rewrite HintDb sessdb.
#[local] Hint Rewrite sess_SessionWrite sess_SessionWriteN sess_erase_line : sessdb.

Ltac sess_norm := repeat progress (sess_simpl; autorewrite with sessdb).

Lemma ReplaceLine_line (new_line : list Z) (w : World):
  length (line_buf (sess w)) = Z.to_nat EMBSH_LINE_BUF_SIZE ->
  line_wf (sess (editor.ReplaceLine new_line w)) /\
  terminated (sess (editor.ReplaceLine new_line w)).
Proof.
  intros Hlen. unfold editor.ReplaceLine. cbv zeta.
  autorewrite with sessdb. sess_simpl. autorewrite with sessdb.
  set (len0 := u32 (strlen new_line)).
  set (len := if len0 >=? EMBSH_LINE_BUF_SIZE then _ else _).
  assert (Hb : 0 <= len < EMBSH_LINE_BUF_SIZE).
  { subst len len0. pose proof (strlen_bounds new_line).
    unfold EMBSH_LINE_BUF_SIZE.
    destruct (Z.geb_spec (u32 (strlen new_line)) 256); modarith. }
  unfold line_wf, terminated. sess_simpl.
  rewrite length_set, length_memcpy. split; [done|].
  apply get_set_eq. rewrite length_memcpy. unfold EMBSH_LINE_BUF_SIZE in *. lia.
Qed.

Lemma HistoryUp_line (w : World) :
  line_wf (sess w) ->
  line_wf (sess (editor.HistoryUp w)) /\
  (line_buf (sess (editor.HistoryUp w)) = line_buf (sess w) \/
   terminated (sess (editor.HistoryUp w))).
Proof.
  intros Hwf. unfold editor.HistoryUp.
  destruct (hist_count (sess w) =? 0); [by auto|]. cbv zeta.
  set (w1 := if negb (hist_browsing (sess w)) then _ else w).
  assert (H1 : line_buf (sess w1) = line_buf (sess w) /\ line_pos (sess w1) = line_pos (sess w)).
  { subst w1. by destruct (negb _). }
  destruct H1 as [Hb Hp].
  assert (Hwf1 : line_wf (sess w1)) by (unfold line_wf; by rewrite Hb, Hp).
  destruct (_ =? hist_nav (sess w1)); [by auto|].
  destruct (_ >? hist_count (sess w1)); [by auto|].
  match goal with |- context [editor.ReplaceLine ?r ?w'] =>
    destruct (ReplaceLine_line r w') as [Ha Hb']; [sess_simpl; apply Hwf1|]
  end.
  auto.
Qed.

Lemma HistoryDown_line (w : World) :
  line_wf (sess w) ->
  line_wf (sess (editor.HistoryDown w)) /\
  (line_buf (sess (editor.HistoryDown w)) = line_buf (sess w) \/
   terminated (sess (editor.HistoryDown w))).
Proof.
  intros Hwf. pose proof Hwf as [Hlen Hpos]. unfold editor.HistoryDown.
  destruct (negb (hist_browsing (sess w))); [by auto|]. cbv zeta.
  destruct (_ =? hist_write (sess w)).
  - unfold line_wf, terminated. sess_simpl. autorewrite with sessdb. sess_simpl.
    rewrite length_set. unfold EMBSH_LINE_BUF_SIZE in *.
    split; [split; [done|lia]|]. right. apply get_set_eq. lia.
  - match goal with |- context [editor.ReplaceLine ?r ?w'] =>
      destruct (ReplaceLine_line r w') as [Ha Hb']; [sess_simpl; apply Hlen|]
    end.
    auto.
Qed.

Lemma sess_fold_SessionWrite {A} (f : World -> A -> World) (l : list A) :
  (forall w a, sess (f w a) = sess w) ->
  forall w, sess (fold_left f l w) = sess w.
Proof.
  intros Hf. induction l as [|a l IH]; intros w; simpl; [done|].
  by rewrite IH, Hf.
Qed.

Lemma TabComplete_line (reg : CommandRegistry) (prompt : list Z) (w : World) :
  line_wf (sess w) ->
  line_wf (sess (editor.TabComplete reg prompt w)) /\
  terminated (sess (editor.TabComplete reg prompt w)).
Proof.
  intros [Hlen Hpos]. unfold editor.TabComplete. cbv zeta.
  destruct (AutoComplete _ _ _ _) as [matches completion].
  unfold line_wf, terminated, EMBSH_LINE_BUF_SIZE in *.
  destruct (matches =? 1); [|destruct (matches >? 1)].
  - set (c0 := u32 (strlen completion)).
    set (comp_len := if c0 >=? _ then _ else c0).
    assert (Hb : 0 <= comp_len < 254).
    { subst comp_len c0. pose proof (strlen_bounds completion).
      destruct (Z.geb_spec (u32 (strlen completion)) (u32 (256 - 2))); modarith. }
    autorewrite with sessdb. sess_simpl. autorewrite with sessdb. sess_simpl.
    rewrite !length_set, length_memcpy, length_set.
    rewrite (u32_small (comp_len + 1)) by lia.
    split; [split; [done|lia]|].
    apply get_set_eq. rewrite length_set, length_memcpy, length_set. lia.
  - set (c0 := u32 (strlen completion)).
    set (comp_len := if c0 >=? _ then _ else c0).
    assert (Hb : 0 <= comp_len < 255).
    { subst comp_len c0. pose proof (strlen_bounds completion).
      destruct (Z.geb_spec (u32 (strlen completion)) (u32 (256 - 1))); modarith. }
    sess_norm.
    rewrite sess_fold_SessionWrite.
    2:{ intros w' a. destruct (strneq _ _ _); by autorewrite with sessdb. }
    sess_norm.
    rewrite !length_set, length_memcpy, length_set.
    split; [split; [done|lia]|].
    apply get_set_eq. rewrite length_memcpy, length_set. lia.
  - sess_simpl. rewrite length_set. split; [done|]. apply get_set_eq. lia.
Qed.

Lemma FilterIac_line (s : Session) (byte : Z) :
  let r := editor.FilterIac s byte in
  line_buf r.2 = line_buf s /\ line_pos r.2 = line_pos s /\
  esc_state r.2 = esc_state s /\ telnet_mode r.2 = telnet_mode s /\
  (r.1 = byte \/ r.1 = 0 \/ r.1 = 0xFF).
Proof.
  unfold editor.FilterIac.
  destruct (iac_state s);
    repeat match goal with |- context [if ?c then _ else _] => destruct c end;
    sess_simpl; auto 10.
Qed.

Lemma ProcessByte_line (reg : CommandRegistry) (prompt : list Z) (w : World) (byte : Z) :
  line_wf (sess w) ->
  line_wf (sess (editor.ProcessByte reg prompt w byte).2) /\
  line_step (sess w) (sess (editor.ProcessByte reg prompt w byte).2) byte.
Proof.
  intros Hwf. unfold editor.ProcessByte.
  set (p := if telnet_mode (sess w) then _ else _).
  assert (Hp : line_buf p.2 = line_buf (sess w) /\ line_pos p.2 = line_pos (sess w) /\
               (p.1 = byte \/ p.1 = 0 \/ p.1 = 0xFF)).
  { subst p. destruct (telnet_mode (sess w)); [|by auto].
    pose proof (FilterIac_line (sess w) byte) as H. cbv zeta in H. tauto. }
  destruct p as [ch s1]. sess_simpl. destruct Hp as (Hbuf & Hpos & Hch).
  match goal with |- line_wf (sess (snd ?X)) /\ _ => set (R := X) end.
  enough (G : line_wf (sess R.2) /\ line_step s1 (sess R.2) ch).
  { destruct G as [G1 G2]. split; [exact G1|].
    unfold line_step in *. rewrite <- Hbuf, <- Hpos.
    destruct G2 as [G2|[G2|(Hr & G2)]]; [by auto|by auto|].
    right; right. destruct Hch as [->|[->| ->]]; [done|lia|lia]. }
  assert (Hwf1 : line_wf s1) by (unfold line_wf; by rewrite Hbuf, Hpos).
  clear Hbuf Hpos Hch Hwf. pose proof Hwf1 as [Hlen Hpos].
  unfold EMBSH_LINE_BUF_SIZE in *. subst R.
  cbv zeta. sess_simpl.
  destruct (telnet_mode s1 && (ch =? 0)); [sess_simpl; split; [done|by left]|].
  destruct (esc_state s1).
  - (* EscNone *)
    destruct (ch =? 27); [sess_simpl; split; [done|by left]|].
    destruct (ch =? 3).
    { sess_norm. unfold line_wf, line_step, terminated, EMBSH_LINE_BUF_SIZE. sess_simpl.
      rewrite length_set. split; [split; [done|lia]|]. right; left.
      apply get_set_eq. lia. }
    destruct (ch =? 4).
    { destruct (line_pos s1 =? 0); sess_norm; (split; [done|by left]). }
    destruct ((ch =? 127) || (ch =? 8)).
    { destruct (Z.gtb_spec (line_pos s1) 0); sess_norm.
      - unfold line_wf, line_step, EMBSH_LINE_BUF_SIZE. sess_simpl.
        rewrite u32_small by lia.
        split; [split; [done|lia]|by left].
      - split; [done|by left]. }
    destruct (ch =? TAB).
    { destruct (TabComplete_line reg prompt (with_sess s1 w)) as [Ha Hb]; [done|].
      sess_simpl. split; [done|]. right; by left. }
    destruct ((ch =? CR) || (ch =? LF)).
    { set (w1 := if telnet_mode _ && _ then _ else _).
      assert (Hs1 : sess w1 = s1).
      { subst w1. destruct (_ && _); [|by sess_norm].
        unfold editor.eat_line_pair. destruct (rx _) as [|n rest]; [by sess_norm|].
        destruct (_ || _); by sess_norm. }
      sess_simpl. rewrite !Hs1.
      assert (Hterm : get (set (line_buf s1) (line_pos s1) 0) (line_pos s1) = 0)
        by (apply get_set_eq; lia).
      destruct (line_pos s1 >? 0); sess_norm; rewrite ?Hs1; sess_simpl.
      - unfold editor.PushHistory. sess_simpl.
        repeat match goal with |- context [if ?c then _ else _] => destruct c end;
          unfold line_wf, line_step, terminated, EMBSH_LINE_BUF_SIZE; sess_simpl;
          rewrite ?length_set;
          (split; [split; [done|lia]|right; by left]).
      - unfold line_wf, line_step, terminated, EMBSH_LINE_BUF_SIZE; sess_simpl;
          rewrite ?length_set.
        split; [split; [done|lia]|right; by left]. }
    destruct (Z.ltb_spec (line_pos s1) (u32 (256 - 1))) as [Hlt|]; sess_simpl.
    2:{ split; [done|by left]. }
    destruct (Z.geb_spec ch 32); sess_simpl; [|split; [done|by left]].
    destruct (Z.ltb_spec ch 127); sess_simpl; [|split; [done|by left]].
    sess_norm. unfold line_wf, line_step, EMBSH_LINE_BUF_SIZE. sess_simpl.
    rewrite length_set. assert (line_pos s1 < 255) by modarith.
    rewrite u32_small by lia.
    split; [split; [done|lia]|]. right; right. split; [lia|done].
  - (* EscEsc *)
    destruct (ch =? 91); sess_simpl; (split; [done|by left]).
  - (* EscBracket *)
    destruct (ch =? 65); [|destruct (ch =? 66)]; sess_simpl.
    + match goal with |- context [editor.HistoryUp ?w'] =>
        destruct (HistoryUp_line w') as [Ha Hb]; [done|] end.
      split; [done|]. destruct Hb; [by left|right; by left].
    + match goal with |- context [editor.HistoryDown ?w'] =>
        destruct (HistoryDown_line w') as [Ha Hb]; [done|] end.
      split; [done|]. destruct Hb; [by left|right; by left].
    + split; [done|by left].
Qed.

Lemma feed_line_wf (reg : CommandRegistry) (prompt : list Z) (bs : list Z) :
  forall w, line_wf (sess w) -> line_wf (sess (feed reg prompt w bs)).
Proof.
  induction bs as [|b bs IH]; intros w Hwf; simpl; [done|].
  apply IH. by apply ProcessByte_line.
Qed.

Lemma with_sess_same (w : World) : with_sess (sess w) w = w.
Proof. by destruct w. Qed.

Lemma FilterIac_normal (s : Session) (c : Z) :
  iac_state s = IacNormal -> c <> 0xFF -> editor.FilterIac s c = (c, s).
Proof.
  intros Hn Hc. unfold editor.FilterIac. rewrite Hn.
  destruct (Z.eqb_spec c 255); done.
Qed.

Lemma sess_eat_line_pair (w : World) : sess (editor.eat_line_pair w) = sess w.
Proof.
  unfold editor.eat_line_pair. destruct (rx w); [done|]. by destruct (_ || _).
Qed.

Lemma PushHistory_frame (s : Session) :
  line_buf (editor.PushHistory s) = line_buf s /\
  line_pos (editor.PushHistory s) = line_pos s /\
  hist_browsing (editor.PushHistory s) = hist_browsing s /\
  active (editor.PushHistory s) = active s /\
  write_fn (editor.PushHistory s) = write_fn s.
Proof.
  unfold editor.PushHistory. repeat case_match; by sess_simpl.
Qed.

(** Between keys a byte other than IAC passes the filter as it is. *)
Lemma pass_filter (w : World) (c : Z) :
  (telnet_mode (sess w) = true -> iac_state (sess w) = IacNormal) -> c <> 0xFF ->
  (if telnet_mode (sess w) then editor.FilterIac (sess w) c else (c, sess w)) = (c, sess w).
Proof.
  intros Hiac Hc. destruct (telnet_mode (sess w)); [|done].
  by apply FilterIac_normal; [apply Hiac|].
Qed.

Ltac eqb_consts :=
  repeat match goal with
         | |- context [Zpos ?a =? ?b] =>
             let v := eval vm_compute in (Zpos a =? b) in
             change (Zpos a =? b) with v
         end.

(** Ctrl-C, Tab, CR and LF leave the line terminated, whether or not
    they change the buffer. *)
Lemma key_terminates (reg : CommandRegistry) (prompt : list Z) (w : World) (byte : Z) :
  line_wf (sess w) -> accepting (sess w) ->
  byte = 0x03 \/ byte = TAB \/ byte = CR \/ byte = LF ->
  terminated (sess (editor.ProcessByte reg prompt w byte).2).
Proof.
  intros [Hlen Hpos] [Hesc Hiac] Hkey. unfold EMBSH_LINE_BUF_SIZE in *.
  unfold editor.ProcessByte.
  rewrite pass_filter by (done || unfold TAB, CR, LF in *; lia).
  cbv zeta. rewrite with_sess_same, Hesc.
  replace (telnet_mode (sess w) && (byte =? 0)) with false
    by (destruct (Z.eqb_spec byte 0);
          [unfold TAB, CR, LF in *; lia|by rewrite andb_false_r]).
  assert (Hnul : get (set (line_buf (sess w)) (line_pos (sess w)) 0) (line_pos (sess w)) = 0)
    by (apply get_set_eq; lia).
  destruct Hkey as [->|[->|Henter]].
  - eqb_consts. cbv iota. sess_norm. unfold terminated. sess_simpl.
    apply get_set_eq. lia.
  - unfold TAB. eqb_consts. cbn [orb]. cbv iota.
    apply TabComplete_line. split; [done|unfold EMBSH_LINE_BUF_SIZE; lia].
  - assert (Hb : (byte =? 27) = false /\ (byte =? 3) = false /\ (byte =? 4) = false /\
                 (byte =? 127) || (byte =? 8) = false /\ (byte =? TAB) = false /\
                 (byte =? CR) || (byte =? LF) = true)
      by (destruct Henter as [-> | ->]; by vm_compute).
    destruct Hb as (-> & -> & -> & -> & -> & ->).
    set (w1 := if telnet_mode _ && _ then _ else _).
    assert (Hs1 : sess w1 = sess w).
    { subst w1. destruct (_ && _); by rewrite ?sess_eat_line_pair, sess_SessionWrite. }
    sess_simpl. rewrite !Hs1.
    destruct (line_pos (sess w) >? 0); sess_norm; rewrite ?Hs1; unfold terminated.
    + match goal with
      | |- context [editor.PushHistory ?s] =>
          destruct (PushHistory_frame s) as (P1 & P2 & _)
      end.
      by rewrite P1, P2.
    + done.
Qed.

(** A printable byte between keys goes to the end of a line that has
    room, with no terminator after it, and is dropped on a full line. *)
Lemma printable_appends (reg : CommandRegistry) (prompt : list Z) (w : World) (byte : Z) :
  line_wf (sess w) -> accepting (sess w) -> 0x20 <= byte < 0x7F ->
  let s' := sess (editor.ProcessByte reg prompt w byte).2 in
  (line_pos (sess w) < EMBSH_LINE_BUF_SIZE - 1 ->
   line_pos s' = line_pos (sess w) + 1 /\
   line_buf s' = set (line_buf (sess w)) (line_pos (sess w)) byte) /\
  (line_pos (sess w) = EMBSH_LINE_BUF_SIZE - 1 -> s' = sess w).
Proof.
  intros [Hlen Hpos] [Hesc Hiac] Hc. cbv zeta. unfold EMBSH_LINE_BUF_SIZE in *.
  unfold editor.ProcessByte.
  rewrite pass_filter by (done || lia).
  cbv zeta. rewrite with_sess_same, Hesc.
  replace (telnet_mode (sess w) && (byte =? 0)) with false
    by (destruct (Z.eqb_spec byte 0); [lia|by rewrite andb_false_r]).
  assert (Hb : (byte =? 27) = false /\ (byte =? 3) = false /\ (byte =? 4) = false /\
               (byte =? 127) || (byte =? 8) = false /\ (byte =? TAB) = false /\
               (byte =? CR) || (byte =? LF) = false /\
               (byte >=? 32) = true /\ (byte <? 127) = true).
  { unfold TAB, CR, LF. split_and!; try (apply orb_false_intro);
      try (apply Z.eqb_neq; lia); [apply Z.geb_le; lia|apply Z.ltb_lt; lia]. }
  destruct Hb as (-> & -> & -> & -> & -> & -> & -> & ->).
  change (u32 (EMBSH_LINE_BUF_SIZE - 1)) with 255.
  destruct (Z.ltb_spec (line_pos (sess w)) 255) as [Hlt|Hge]; cbn [andb].
  - sess_norm. rewrite u32_small by lia. split; [done|lia].
  - split; [lia|done].
Qed.

Lemma backspace_keeps_buffer (reg : CommandRegistry) (prompt : list Z) (w : World) (byte : Z) :
  telnet_mode (sess w) = false \/ iac_state (sess w) = IacNormal ->
  esc_state (sess w) = EscNone ->
  byte = 0x7F \/ byte = 0x08 -> 0 < line_pos (sess w) < EMBSH_LINE_BUF_SIZE ->
  line_buf (sess (editor.ProcessByte reg prompt w byte).2) = line_buf (sess w) /\
  line_pos (sess (editor.ProcessByte reg prompt w byte).2) = line_pos (sess w) - 1.
Proof.
  intros Hmode He Hb Hpos. unfold editor.ProcessByte, EMBSH_LINE_BUF_SIZE in *.
  assert (Hf : (if telnet_mode (sess w) then editor.FilterIac (sess w) byte
                else (byte, sess w)) = (byte, sess w)).
  { destruct (telnet_mode (sess w)); [|done].
    destruct Hmode as [|Hn]; [done|]. apply FilterIac_normal; [done|].
    destruct Hb; lia. }
  rewrite Hf. cbv zeta. rewrite with_sess_same, He.
  destruct (Z.gtb_spec (line_pos (sess w)) 0); [|lia].
  destruct Hb as [-> | ->];
    repeat match goal with
           | |- context [Zpos ?a =? ?b] =>
               let v := eval vm_compute in (Zpos a =? b) in
               change (Zpos a =? b) with v
           end;
    rewrite andb_false_r; sess_norm; (split; [done|apply u32_small; lia]).
Qed.

(** C2 (as the code has it).  Start from a session whose line buffer has
    its [EMBSH_LINE_BUF_SIZE] bytes and whose [line_pos] is an index into
    it, and feed it any bytes [bs], then [byte].  After that call
    [0 <= line_pos < EMBSH_LINE_BUF_SIZE]; if the call changed the buffer,
    then either [line_buf[line_pos] == 0], or the call appended the
    printable [byte] at the old [line_pos] and incremented [line_pos],
    writing no terminator.  When [byte] comes between keys: Ctrl-C, Tab,
    CR and LF always leave [line_buf[line_pos] == 0]; a printable byte is
    stored at the old [line_pos] and [line_pos] incremented when the line
    has room, and dropped when it is full; and a backspace that decrements
    [line_pos] leaves the buffer as it was, so that [line_buf[line_pos]]
    is then the erased byte. *)
Theorem ProcessByte_line_invariant (reg : CommandRegistry) (prompt : list Z)
    (w0 : World) (bs : list Z) (byte : Z) :
  line_wf (sess w0) ->
  let w := feed reg prompt w0 bs in
  let w' := (editor.ProcessByte reg prompt w byte).2 in
  0 <= line_pos (sess w') < EMBSH_LINE_BUF_SIZE /\
  (line_buf (sess w') <> line_buf (sess w) ->
   get (line_buf (sess w')) (line_pos (sess w')) = 0 \/
   (0x20 <= byte < 0x7F /\
    line_pos (sess w') = line_pos (sess w) + 1 /\
    line_buf (sess w') = set (line_buf (sess w)) (line_pos (sess w)) byte)) /\
  (accepting (sess w) ->
   byte = 0x03 \/ byte = TAB \/ byte = CR \/ byte = LF ->
   get (line_buf (sess w')) (line_pos (sess w')) = 0) /\
  (accepting (sess w) -> 0x20 <= byte < 0x7F ->
   (line_pos (sess w) < EMBSH_LINE_BUF_SIZE - 1 ->
    line_pos (sess w') = line_pos (sess w) + 1 /\
    line_buf (sess w') = set (line_buf (sess w)) (line_pos (sess w)) byte) /\
   (line_pos (sess w) = EMBSH_LINE_BUF_SIZE - 1 -> sess w' = sess w)) /\
  (telnet_mode (sess w) = false \/ iac_state (sess w) = IacNormal ->
   esc_state (sess w) = EscNone ->
   byte = 0x7F \/ byte = 0x08 -> 0 < line_pos (sess w) ->
   line_pos (sess w') = line_pos (sess w) - 1 /\
   line_buf (sess w') = line_buf (sess w) /\
   get (line_buf (sess w')) (line_pos (sess w')) = get (line_buf (sess w)) (line_pos (sess w) - 1)).
Proof.
  intros Hwf0. cbv zeta.
  pose proof (feed_line_wf reg prompt bs w0 Hwf0) as Hwf.
  destruct (ProcessByte_line reg prompt (feed reg prompt w0 bs) byte Hwf) as [[_ Hpos] Hstep].
  split; [done|]. split; [|split; [|split]].
  - intros Hne. destruct Hstep as [Hsame|[Hterm|Happ]]; [done|by left|by right].
  - intros Hacc Hkey. by apply key_terminates.
  - intros Hacc Hc. by apply printable_appends.
  - intros Ht He Hb Hp.
    destruct (backspace_keeps_buffer reg prompt (feed reg prompt w0 bs) byte Ht He Hb)
      as [Hbuf Hdec]; [destruct Hwf; lia|].
    by rewrite Hbuf, Hdec.
Qed.

Lemma World0_line_wf : line_wf (sess World0).
Proof. split; [reflexivity|unfold EMBSH_LINE_BUF_SIZE; simpl; lia]. Qed.

Lemma ProcessByte_line_invariant_witness :
  line_wf (sess World0) /\
  let w' := (editor.ProcessByte Instance0 prompt0
               (feed Instance0 prompt0 World0 (lit "ab")) CR).2 in
  0 <= line_pos (sess w') < EMBSH_LINE_BUF_SIZE /\
  get (line_buf (sess w')) (line_pos (sess w')) = 0.
Proof.
  split; [exact World0_line_wf|]. cbv zeta.
  pose proof (ProcessByte_line_invariant Instance0 prompt0 World0 (lit "ab") CR
                World0_line_wf) as (Hpos & _ & Hkey & _).
  split; [exact Hpos|].
  apply Hkey.
  - split; [reflexivity|discriminate].
  - right; right; by left.
Defined.

(** C2, the claim as stated fails.  After [a] and a backspace,
    [line_pos = 0] and [line_buf[0]] is still [a]; after [ab], two
    backspaces and [c], the buffer holds [cb] with [line_pos = 1], so the
    byte at [line_pos] after the append is [b]. *)
Lemma ProcessByte_leaves_line_unterminated :
  let w1 := feed Instance0 prompt0 World0 (lit "a" ++ [0x7F]) in
  let w2 := feed Instance0 prompt0 World0 (lit "ab" ++ [0x7F; 0x7F] ++ lit "c") in
  (line_pos (sess w1) = 0 /\ get (line_buf (sess w1)) (line_pos (sess w1)) = 97) /\
  (line_pos (sess w2) = 1 /\ get (line_buf (sess w2)) (line_pos (sess w2)) = 98) /\
  get (line_buf (sess w1)) (line_pos (sess w1)) <> 0 /\
  get (line_buf (sess w2)) (line_pos (sess w2)) <> 0.
Proof. vm_compute. repeat split; done. Qed.

(** ** The login *)

Section Login.

(** The configured credentials. *)
Variables username password : list Z.

Lemma FilterIac_auth (s : Session) (byte : Z) :
  let r := editor.FilterIac s byte in
  authenticated r.2 = authenticated s /\ auth_attempts r.2 = auth_attempts s /\
  write_fn r.2 = write_fn s /\ active r.2 = active s.
Proof.
  unfold editor.FilterIac.
  destruct (iac_state s);
    repeat match goal with |- context [if ?c then _ else _] => destruct c end;
    sess_simpl; auto.
Qed.

Lemma streq_pair (a b : list Z) :
  streq a username && streq b password = true <-> (a, b) = (username, password).
Proof.
  unfold streq. rewrite andb_true_iff, !bool_decide_eq_true.
  split; [by intros [-> ->]|by intros [= -> ->]].
Qed.

Lemma on_byte_pending (l : Auth.locals) (w : World) (byte : Z) :
  pending username password l w -> auth_attempts (sess w) < Auth.kMaxAttempts ->
  match Auth.on_byte username password l w byte with
  | inl (l', w') => logged_in username password l' w'
  | inr (l', w') => pending username password l' w'
  end.
Proof.
  intros (Hauth & Hcount & Hnone & Hrange) Hlt. unfold Auth.on_byte.
  set (r := if telnet_mode (sess w) then _ else _).
  assert (Hr : authenticated r.2 = false /\ auth_attempts r.2 = auth_attempts (sess w)).
  { subst r. destruct (telnet_mode (sess w)); [|done].
    pose proof (FilterIac_auth (sess w) byte) as H. cbv zeta in H.
    destruct H as (-> & -> & _). done. }
  destruct r as [ch s1]. sess_simpl. destruct Hr as [Ha Hc]. cbv zeta. sess_simpl.
  rewrite <- Hc in *. clear Hc Hauth.
  assert (Hp1 : forall l', Auth.tried l' = Auth.tried l ->
                forall w', sess w' = s1 -> pending username password l' w').
  { intros l' Hl w' Hw. unfold pending. by rewrite Hw, Hl. }
  unfold Auth.kMaxAttempts in *.
  destruct (telnet_mode s1 && (ch =? 0)); [by apply Hp1|].
  destruct ((ch =? 127) || (ch =? 8)).
  { destruct (Auth.buf_pos l >? 0); apply Hp1; by sess_norm. }
  destruct ((ch =? CR) || (ch =? LF)).
  { set (w1 := SessionWrite CRLF _).
    assert (Hs1 : sess w1 = s1).
    { subst w1. sess_norm. destruct (_ && _); [|done].
      by rewrite sess_eat_line_pair. }
    destruct (Auth.phase l); [apply Hp1; [done|by sess_norm]|].
    set (pair := (cstr (Auth.user_buf l), cstr (set (Auth.pass_buf l) (Auth.buf_pos l) 0))).
    destruct (streq _ username && streq _ password) eqn:Hm.
    - apply streq_pair in Hm. unfold logged_in. sess_norm. cbn [Auth.tried].
      split; [done|]. exists (Auth.tried l). fold pair in Hm. rewrite Hm.
      split; [done|]. split; [done|]. unfold Auth.kMaxAttempts. lia.
    - assert (Hne : pair <> (username, password)).
      { intros Heq. apply streq_pair in Heq. congruence. }
      sess_simpl. rewrite !Hs1.
      assert (Hu8 : u8 (auth_attempts s1 + 1) = auth_attempts s1 + 1) by modarith.
      destruct (_ <? 3); unfold pending; sess_norm; rewrite ?Hs1; sess_simpl;
        cbn [Auth.tried]; rewrite Hu8;
        unfold Auth.kMaxAttempts;
        (split; [done|]); (split; [rewrite length_app; simpl; lia|]);
        (split; [|lia]);
        rewrite elem_of_app, list_elem_of_singleton; intros [?|?]; done. }
  destruct ((ch >=? 32) && (ch <? 127)); [|by apply Hp1].
  destruct (Auth.phase l); destruct (Auth.buf_pos l <? 63); apply Hp1; by sess_norm.
Qed.

Lemma loop_final (n : nat) : forall l w,
  pending username password l w -> final username password (Auth.loop n username password l w).1 (Auth.loop n username password l w).2.
Proof.
  induction n as [|n IH]; intros l w Hp; simpl; [by left|].
  destruct (active (sess w)); [|by left]. cbn [andb].
  destruct (Z.ltb_spec (auth_attempts (sess w)) Auth.kMaxAttempts) as [Hlt|]; [|by left].
  destruct (rx w) as [|byte rest]; [by left|].
  assert (Hp' : pending username password l (with_rx rest w)) by done.
  pose proof (on_byte_pending l (with_rx rest w) byte Hp' Hlt) as Hstep.
  destruct (Auth.on_byte _ _ _ _ _) as [[l' w']|[l' w']]; [by right|by apply IH].
Qed.

(** The loop stops for good once [kMaxAttempts] pairs have failed. *)
Lemma loop_exhausted (n : nat) (l : Auth.locals) (w : World) :
  auth_attempts (sess w) >= Auth.kMaxAttempts ->
  Auth.loop n username password l w = (l, w).
Proof.
  intros Hge. destruct n as [|n]; simpl; [done|].
  destruct (Z.ltb_spec (auth_attempts (sess w)) Auth.kMaxAttempts); [lia|].
  by rewrite andb_false_r.
Qed.

Lemma rx_SessionWrite str w : rx (SessionWrite str w) = rx w.
Proof. unfold SessionWrite. by destruct (_ && _). Qed.

Lemma rx_SessionWriteN buf len w : rx (SessionWriteN buf len w) = rx w.
Proof. unfold SessionWriteN. by destruct (_ && _). Qed.

Lemma rx_eat_line_pair w : (length (rx (editor.eat_line_pair w)) <= length (rx w))%nat.
Proof.
  unfold editor.eat_line_pair. destruct (rx w) as [|b rest] eqn:Hrx; [by rewrite Hrx|].
  destruct (_ || _); simpl; [lia|]. by rewrite Hrx.
Qed.

(** The body of the loop reads no byte beyond the one that may pair
    with a carriage return. *)
Lemma on_byte_rx (l : Auth.locals) (w : World) (byte : Z) :
  match Auth.on_byte username password l w byte with
  | inl (_, w') | inr (_, w') => (length (rx w') <= length (rx w))%nat
  end.
Proof.
  unfold Auth.on_byte.
  destruct (if telnet_mode (sess w) then _ else _) as [ch s1]. cbv zeta.
  pose proof (rx_eat_line_pair (with_sess s1 w)) as Heat. sess_simpl.
  repeat match goal with
         | |- context [if ?c then _ else _] => destruct c
         | |- context [match Auth.phase l with _ => _ end] => destruct (Auth.phase l)
         end;
    sess_simpl; rewrite ?rx_SessionWrite, ?rx_SessionWriteN; sess_simpl;
    rewrite ?rx_SessionWrite, ?rx_SessionWriteN; sess_simpl; lia.
Qed.

(** The counter of [Auth.loop] never runs out before the loop ends:
    any two counters above the number of bytes in [rx] give the same
    result. *)
Lemma loop_fuel (n : nat) : forall (m : nat) l w,
  (length (rx w) < n)%nat -> (length (rx w) < m)%nat ->
  Auth.loop n username password l w = Auth.loop m username password l w.
Proof.
  induction n as [|n IH]; intros m l w Hn Hm; [lia|].
  destruct m as [|m]; [lia|]. simpl.
  destruct (active (sess w) && _); [|done].
  destruct (rx w) as [|byte rest] eqn:Hrx; [done|].
  pose proof (on_byte_rx l (with_rx rest w) byte) as Hle.
  destruct (Auth.on_byte _ _ _ _ _) as [[l' w']|[l' w']]; [done|].
  simpl in *. apply IH; lia.
Qed.

Lemma tx_SessionWrite str w :
  write_fn (sess w) <> 0 -> str <> [] -> tx (SessionWrite str w) = tx w ++ [str].
Proof.
  intros Hw Hs. unfold SessionWrite.
  destruct (Z.eqb_spec (write_fn (sess w)) 0); [done|].
  destruct str; [done|]. reflexivity.
Qed.

Lemma tx_eat_line_pair w : tx (editor.eat_line_pair w) = tx w.
Proof.
  unfold editor.eat_line_pair. destruct (rx w); [done|]. by destruct (_ || _).
Qed.

(** Enter after a password that does not match. *)
Lemma on_byte_mismatch (l : Auth.locals) (w : World) (byte : Z) :
  byte = CR \/ byte = LF ->
  telnet_mode (sess w) = false \/ iac_state (sess w) = IacNormal ->
  Auth.phase l = Auth.kPass ->
  entered l <> (username, password) ->
  0 <= auth_attempts (sess w) < Auth.kMaxAttempts ->
  write_fn (sess w) <> 0 ->
  exists l' w',
    Auth.on_byte username password l w byte = inr (l', w') /\
    Auth.tried l' = Auth.tried l ++ [entered l] /\
    auth_attempts (sess w') = auth_attempts (sess w) + 1 /\
    authenticated (sess w') = authenticated (sess w) /\
    (auth_attempts (sess w) + 1 < Auth.kMaxAttempts ->
     Auth.phase l' = Auth.kUser /\ Auth.buf_pos l' = 0 /\
     tx w' = tx w ++ [CRLF; lit "Invalid credentials. Try again." ++ CRLF;
                      lit "Username: "]) /\
    (auth_attempts (sess w) + 1 = Auth.kMaxAttempts ->
     tx w' = tx w ++ [CRLF] /\
     forall n, Auth.loop n username password l' w' = (l', w')).
Proof.
  intros Hbyte Hmode Hphase Hne Hatt Hwr.
  unfold Auth.on_byte. unfold Auth.kMaxAttempts in *.
  assert (Hf : (if telnet_mode (sess w) then editor.FilterIac (sess w) byte
                else (byte, sess w)) = (byte, sess w)).
  { destruct (telnet_mode (sess w)); [|done].
    destruct Hmode as [|Hn]; [done|]. unfold editor.FilterIac. rewrite Hn.
    destruct Hbyte as [-> | ->]; reflexivity. }
  rewrite Hf. cbv zeta.
  replace (with_sess (sess w) w) with w by (by destruct w).
  assert (Hnz : (byte =? 0) = false) by (destruct Hbyte as [-> | ->]; reflexivity).
  assert (Hbs : (byte =? 127) || (byte =? 8) = false)
    by (destruct Hbyte as [-> | ->]; reflexivity).
  assert (Hent : (byte =? CR) || (byte =? LF) = true)
    by (destruct Hbyte as [-> | ->]; reflexivity).
  rewrite Hnz, andb_false_r, Hbs, Hent, Hphase.
  set (w0 := if telnet_mode (sess w) && (byte =? CR) then _ else w).
  assert (H0 : sess w0 = sess w /\ tx w0 = tx w).
  { subst w0. destruct (_ && _); [|done].
    by rewrite sess_eat_line_pair, tx_eat_line_pair. }
  destruct H0 as [Hs0 Ht0].
  assert (Hm : streq (cstr (Auth.user_buf l)) username
               && streq (cstr (set (Auth.pass_buf l) (Auth.buf_pos l) 0)) password = false).
  { apply not_true_is_false. intros Htrue. by apply streq_pair in Htrue. }
  rewrite Hm. sess_norm. rewrite Hs0.
  assert (Hu8 : u8 (auth_attempts (sess w) + 1) = auth_attempts (sess w) + 1) by modarith.
  rewrite Hu8.
  assert (Hcrlf : tx (SessionWrite CRLF w0) = tx w ++ [CRLF]).
  { rewrite tx_SessionWrite; [by rewrite Ht0|by rewrite Hs0|done]. }
  destruct (Z.ltb_spec (auth_attempts (sess w) + 1) 3) as [Hlt|Hge].
  - eexists _, _. split; [reflexivity|]. cbn [Auth.tried Auth.phase Auth.buf_pos].
    sess_norm. rewrite Hs0. sess_simpl.
    repeat split; try done; try lia.
    rewrite !tx_SessionWrite; sess_norm; rewrite ?Hs0; sess_simpl; try done.
    cbn [tx with_sess]. rewrite Hcrlf, <- !app_assoc. reflexivity.
  - eexists _, _. split; [reflexivity|]. cbn [Auth.tried Auth.phase Auth.buf_pos].
    sess_norm. rewrite Hs0. sess_simpl.
    repeat split; try done; try lia.
    intros n. apply loop_exhausted. sess_norm. rewrite Hs0. sess_simpl.
    unfold Auth.kMaxAttempts. lia.
Qed.

(** *** What a client types is what is compared *)

Lemma on_byte_printable (l : Auth.locals) (w : World) (c : Z) :
  telnet_mode (sess w) = true -> iac_state (sess w) = IacNormal ->
  printable c -> 0 <= Auth.buf_pos l < 63 ->
  exists w',
    Auth.on_byte username password l w c = inr (type_char l c, w') /\
    sess w' = sess w /\ rx w' = rx w.
Proof.
  unfold printable. intros Ht Hn Hc Hpos. unfold Auth.on_byte, type_char.
  rewrite Ht, FilterIac_normal by (done || lia). cbv zeta.
  rewrite with_sess_same, Ht.
  destruct (Z.eqb_spec c 0); [lia|].
  destruct (Z.eqb_spec c 127); [lia|]. destruct (Z.eqb_spec c 8); [lia|].
  destruct (Z.eqb_spec c CR); [unfold CR in *; lia|].
  destruct (Z.eqb_spec c LF); [unfold LF in *; lia|].
  destruct (Z.geb_spec c 32); [|lia]. destruct (Z.ltb_spec c 127); [|lia].
  destruct (Z.ltb_spec (Auth.buf_pos l) 63); [|lia]. cbn [andb orb].
  rewrite u32_small by lia.
  destruct (Auth.phase l); eexists; (split; [reflexivity|]);
    by rewrite ?sess_SessionWrite, ?sess_SessionWriteN, ?rx_SessionWrite, ?rx_SessionWriteN.
Qed.

Lemma loop_typing (cs : list Z) : forall (n : nat) (l : Auth.locals) (w : World) (rest : list Z),
  listening w -> Forall printable cs ->
  0 <= Auth.buf_pos l -> Auth.buf_pos l + Z.of_nat (length cs) <= 63 ->
  rx w = cs ++ rest ->
  exists w',
    Auth.loop (length cs + n) username password l w
    = Auth.loop n username password (fold_left type_char cs l) w' /\
    sess w' = sess w /\ rx w' = rest.
Proof.
  induction cs as [|c cs IH]; intros n l w rest Hw Hcs Hpos Hlen Hrx.
  - exists w. by simpl in *.
  - pose proof Hw as (Ht & Hn & Hact & Hatt).
    apply Forall_cons in Hcs as [Hc Hcs]. simpl in Hlen, Hrx.
    cbn [length Nat.add Auth.loop fold_left]. rewrite Hact, Hrx.
    destruct (Z.ltb_spec (auth_attempts (sess w)) Auth.kMaxAttempts); [|lia]. cbn [andb].
    destruct (on_byte_printable l (with_rx (cs ++ rest) w) c) as (w1 & -> & Hs1 & Hr1);
      [done|done|done|lia|].
    destruct (IH n (type_char l c) w1 rest) as (w' & Hloop & Hs' & Hr').
    + unfold listening. by rewrite Hs1.
    + done.
    + unfold type_char. destruct (Auth.phase l); simpl; lia.
    + unfold type_char. destruct (Auth.phase l); simpl; lia.
    + by rewrite Hr1.
    + exists w'. rewrite Hloop, Hs', Hs1. done.
Qed.

Lemma typed_user (cs : list Z) : forall l,
  Auth.phase l = Auth.kUser -> 0 <= Auth.buf_pos l ->
  let l' := fold_left type_char cs l in
  Auth.phase l' = Auth.kUser /\
  Auth.user_buf l' = store (Auth.user_buf l) (Z.to_nat (Auth.buf_pos l)) cs /\
  Auth.pass_buf l' = Auth.pass_buf l /\
  Auth.buf_pos l' = Auth.buf_pos l + Z.of_nat (length cs) /\
  Auth.tried l' = Auth.tried l.
Proof.
  induction cs as [|c cs IH]; intros l Hph Hpos; simpl.
  - repeat split; try done. lia.
  - destruct (IH (type_char l c)) as (H1 & H2 & H3 & H4 & H5);
      unfold type_char in *; rewrite Hph in *; simpl in *; [done|lia|].
    rewrite H1, H2, H3, H4, H5. repeat split; try done; try lia.
    unfold set. by replace (Z.to_nat (Auth.buf_pos l + 1)) with (S (Z.to_nat (Auth.buf_pos l))) by lia.
Qed.

Lemma typed_pass (cs : list Z) : forall l,
  Auth.phase l = Auth.kPass -> 0 <= Auth.buf_pos l ->
  let l' := fold_left type_char cs l in
  Auth.phase l' = Auth.kPass /\
  Auth.user_buf l' = Auth.user_buf l /\
  Auth.pass_buf l' = store (Auth.pass_buf l) (Z.to_nat (Auth.buf_pos l)) cs /\
  Auth.buf_pos l' = Auth.buf_pos l + Z.of_nat (length cs) /\
  Auth.tried l' = Auth.tried l.
Proof.
  induction cs as [|c cs IH]; intros l Hph Hpos; simpl.
  - repeat split; try done. lia.
  - destruct (IH (type_char l c)) as (H1 & H2 & H3 & H4 & H5);
      unfold type_char in *; rewrite Hph in *; simpl in *; [done|lia|].
    rewrite H1, H2, H3, H4, H5. repeat split; try done; try lia.
    unfold set. by replace (Z.to_nat (Auth.buf_pos l + 1)) with (S (Z.to_nat (Auth.buf_pos l))) by lia.
Qed.

(** A string typed from the start of a buffer and terminated is read
    back as typed. *)
Lemma cstr_store_set (buf cs : list Z) :
  Forall printable cs -> (length cs < length buf)%nat ->
  cstr (set (store buf 0 cs) (Z.of_nat (length cs)) 0) = cs.
Proof.
  intros Hcs Hlen. rewrite store_splice by (simpl; lia).
  rewrite take_0. simpl app at 1. simpl Nat.add. unfold set.
  rewrite insert_app_r_alt by lia.
  replace (Z.to_nat (Z.of_nat (length cs)) - length cs)%nat with O by lia.
  destruct (drop (length cs) buf) as [|x tl] eqn:Hd.
  - apply (f_equal length) in Hd. rewrite length_drop in Hd. simpl in Hd. lia.
  - simpl. apply cstr_app_nul. eapply Forall_impl; [exact Hcs|].
    unfold printable. intros; lia.
Qed.

Lemma on_byte_enter_user (l : Auth.locals) (w : World) (rest : list Z) :
  listening w -> Auth.phase l = Auth.kUser -> rx w = LF :: rest ->
  exists w',
    Auth.on_byte username password l w CR
    = inr (Auth.mkLocals Auth.kPass (set (Auth.user_buf l) (Auth.buf_pos l) 0)
             (Auth.pass_buf l) 0 (Auth.tried l), w') /\
    sess w' = sess w /\ rx w' = rest.
Proof.
  intros (Ht & Hn & _) Hph Hrx. unfold Auth.on_byte.
  rewrite Ht, FilterIac_normal by done. cbv zeta.
  rewrite with_sess_same, Ht, Hph. cbn [andb orb Z.eqb Pos.eqb CR LF].
  eexists. split; [reflexivity|].
  unfold editor.eat_line_pair. rewrite Hrx. cbn [Z.eqb Pos.eqb LF orb].
  by rewrite !sess_SessionWrite, !rx_SessionWrite.
Qed.

Lemma on_byte_enter_match (l : Auth.locals) (w : World) (rest : list Z) :
  listening w -> Auth.phase l = Auth.kPass -> entered l = (username, password) ->
  rx w = LF :: rest ->
  exists l' w',
    Auth.on_byte username password l w CR = inl (l', w') /\
    Auth.tried l' = Auth.tried l ++ [(username, password)] /\
    authenticated (sess w') = true /\ rx w' = rest.
Proof.
  intros (Ht & Hn & _) Hph Hent Hrx. unfold Auth.on_byte.
  rewrite Ht, FilterIac_normal by done. cbv zeta.
  rewrite with_sess_same, Ht, Hph. cbn [andb orb Z.eqb Pos.eqb CR LF].
  unfold entered in Hent. apply streq_pair in Hent as Hm. rewrite Hm, Hent.
  eexists _, _. split; [reflexivity|]. cbn [Auth.tried]. split; [done|].
  unfold editor.eat_line_pair. rewrite Hrx. cbn [Z.eqb Pos.eqb LF orb].
  rewrite sess_SessionWrite, !rx_SessionWrite. sess_simpl.
  by rewrite rx_SessionWrite.
Qed.

Lemma loop_step (n : nat) (l : Auth.locals) (w : World) (byte : Z) (rest : list Z) :
  listening w -> rx w = byte :: rest ->
  Auth.loop (S n) username password l w =
  match Auth.on_byte username password l (with_rx rest w) byte with
  | inl r => r
  | inr (l', w') => Auth.loop n username password l' w'
  end.
Proof.
  intros (_ & _ & Hact & Hatt) Hrx. simpl. rewrite Hact, Hrx.
  destruct (Z.ltb_spec (auth_attempts (sess w)) Auth.kMaxAttempts); [done|lia].
Qed.

(** A telnet client that sends the configured user name, CR LF, the
    configured password and CR LF is logged in at the first attempt, and
    the bytes that follow are left to the shell. *)
Lemma RunAuth_accepts (w : World) (rest : list Z) :
  listening w -> auth_attempts (sess w) = 0 ->
  Forall printable username -> Forall printable password ->
  (length username <= 63)%nat -> (length password <= 63)%nat ->
  rx w = username ++ CRLF ++ password ++ CRLF ++ rest ->
  let r := RunAuth_full username password w in
  authenticated (sess r.2) = true /\ rx r.2 = rest /\
  Auth.tried r.1 = [(username, password)].
Proof.
  intros Hw Hatt Hu Hp Hlu Hlp Hrx. cbv zeta. unfold RunAuth_full. cbv zeta.
  set (w0 := SessionWrite (lit "Username: ") w).
  assert (Hw0 : listening w0) by (unfold listening, w0; by rewrite sess_SessionWrite).
  assert (Hrx0 : rx w0 = username ++ CR :: LF :: password ++ CR :: LF :: rest)
    by (unfold w0; by rewrite rx_SessionWrite, Hrx).
  rewrite (loop_fuel _ (length username + S (length password + S (3 + length rest)))).
  2:{ lia. }
  2:{ rewrite Hrx0, !length_app. simpl. rewrite length_app. simpl. lia. }
  (* the user name *)
  destruct (loop_typing username (S (length password + S (3 + length rest)))
              Auth.locals0 w0 (CR :: LF :: password ++ CR :: LF :: rest) Hw0 Hu)
    as (w1 & -> & Hs1 & Hr1);
    [simpl; lia|simpl; lia|exact Hrx0|].
  destruct (typed_user username Auth.locals0 eq_refl) as (Hph1 & Hub1 & Hpb1 & Hbp1 & Htr1);
    [simpl; lia|].
  set (l1 := fold_left type_char username Auth.locals0) in *.
  assert (Hw1 : listening w1) by (unfold listening; by rewrite Hs1).
  rewrite (loop_step _ l1 w1 CR (LF :: password ++ CR :: LF :: rest) Hw1 Hr1).
  destruct (on_byte_enter_user l1 (with_rx (LF :: password ++ CR :: LF :: rest) w1)
              (password ++ CR :: LF :: rest)) as (w2 & -> & Hs2 & Hr2); [done|done|done|].
  (* the password *)
  set (l2 := Auth.mkLocals Auth.kPass _ _ 0 _).
  assert (Hw2 : listening w2) by (unfold listening; rewrite Hs2; apply Hw1).
  destruct (loop_typing password (S (3 + length rest)) l2 w2 (CR :: LF :: rest) Hw2 Hp)
    as (w3 & -> & Hs3 & Hr3); [simpl; lia|simpl; lia|exact Hr2|].
  destruct (typed_pass password l2 eq_refl) as (Hph3 & Hub3 & Hpb3 & Hbp3 & Htr3);
    [simpl; lia|].
  set (l3 := fold_left type_char password l2) in *.
  assert (Hw3 : listening w3) by (unfold listening; by rewrite Hs3, Hs2).
  rewrite (loop_step _ l3 w3 CR (LF :: rest) Hw3 Hr3).
  assert (Hent : entered l3 = (username, password)).
  { unfold entered. rewrite Hub3, Hpb3, Hbp3. subst l2. cbn [Auth.user_buf Auth.pass_buf Auth.buf_pos].
    rewrite Hub1, Hpb1, Hbp1. cbn [Auth.user_buf Auth.pass_buf Auth.buf_pos Auth.locals0].
    change (Z.to_nat 0) with O. rewrite !Z.add_0_l.
    rewrite !cstr_store_set; try done; rewrite length_replicate; lia. }
  destruct (on_byte_enter_match l3 (with_rx (LF :: rest) w3) rest)
    as (l' & w' & -> & Htr' & Hauth' & Hr'); [done|done|done|done|].
  cbn [fst snd]. rewrite Htr', Htr3. subst l2. cbn [Auth.tried]. rewrite Htr1.
  done.
Qed.

End Login.



(** * Further properties of the code *)

(** ** The tokenizer on plain words *)

Lemma get_app_head (pre tl : list Z) (x : Z) : get (pre ++ x :: tl) (Z.of_nat (length pre)) = x.
Proof. unfold get. rewrite Nat2Z.id. by apply list_lookup_total_middle. Qed.

Lemma set_app_head (pre tl : list Z) (x v : Z) :
  set (pre ++ x :: tl) (Z.of_nat (length pre)) v = pre ++ v :: tl.
Proof.
  unfold set. rewrite Nat2Z.id, insert_app_r_alt by lia.
  by rewrite Nat.sub_diag.
Qed.

(** A run of blanks is overwritten with NULs and skipped. *)
Lemma skip_blanks_run (sep : list Z) : forall (n : nat) (pre tl : list Z) (len : Z),
  Forall (fun b => is_blank b = true) sep ->
  (length sep <= n)%nat ->
  Z.of_nat (length pre + length sep) <= len < 4294967296 ->
  (Z.of_nat (length pre + length sep) = len \/
   exists b tl', tl = b :: tl' /\ is_blank b = false) ->
  Split.skip_blanks n (pre ++ sep ++ tl) (Z.of_nat (length pre)) len
  = (pre ++ replicate (length sep) 0 ++ tl, Z.of_nat (length pre + length sep)).
Proof.
  induction sep as [|c sep IH]; intros n pre tl len Hsep Hn Hlen Hstop.
  - simpl. rewrite Nat.add_0_r in *. destruct n as [|n]; simpl; [done|].
    destruct Hstop as [Heq|(b & tl' & -> & Hb)].
    + destruct (Z.ltb_spec (Z.of_nat (length pre)) len); [lia|done].
    + rewrite get_app_head, Hb. by rewrite andb_false_r.
  - apply Forall_cons in Hsep as [Hc Hsep]. destruct n as [|n]; [simpl in Hn; lia|].
    simpl in Hn, Hlen, Hstop. cbn [Split.skip_blanks app].
    rewrite get_app_head, Hc.
    destruct (Z.ltb_spec (Z.of_nat (length pre)) len); [|lia]. cbn [andb].
    rewrite set_app_head, u32_small by lia.
    replace (pre ++ 0 :: sep ++ tl) with ((pre ++ [0]) ++ sep ++ tl) by (by rewrite <- app_assoc).
    replace (Z.of_nat (length pre) + 1) with (Z.of_nat (length (pre ++ [0])))
      by (rewrite length_app; simpl; lia).
    rewrite IH; try done; try lia.
    + rewrite <- app_assoc, length_app. simpl. f_equal. lia.
    + rewrite length_app; simpl; lia.
    + rewrite length_app; simpl.
      destruct Hstop as [Heq|Hb]; [left; lia|by right].
Qed.

(** A word is scanned to its end. *)
Lemma scan_word_run (w : list Z) : forall (n : nat) (pre tl : list Z) (len : Z),
  Forall (fun b => is_blank b = false /\ b <> 0) w ->
  (length w <= n)%nat ->
  Z.of_nat (length pre + length w) <= len < 4294967296 ->
  (Z.of_nat (length pre + length w) = len \/
   exists b tl', tl = b :: tl' /\ is_blank b = true) ->
  Split.scan_word n (pre ++ w ++ tl) (Z.of_nat (length pre)) len
  = Z.of_nat (length pre + length w).
Proof.
  induction w as [|c w IH]; intros n pre tl len Hw Hn Hlen Hstop.
  - simpl. rewrite Nat.add_0_r in *. destruct n as [|n]; simpl; [done|].
    destruct Hstop as [Heq|(b & tl' & -> & Hb)].
    + destruct (Z.ltb_spec (Z.of_nat (length pre)) len); [lia|done].
    + rewrite get_app_head, Hb. by rewrite andb_false_r.
  - apply Forall_cons in Hw as [[Hc _] Hw]. destruct n as [|n]; [simpl in Hn; lia|].
    simpl in Hn, Hlen, Hstop. cbn [Split.scan_word app].
    rewrite get_app_head, Hc.
    destruct (Z.ltb_spec (Z.of_nat (length pre)) len); [|lia]. cbn [andb negb].
    rewrite u32_small by lia.
    replace (pre ++ c :: w ++ tl) with ((pre ++ [c]) ++ w ++ tl) by (by rewrite <- app_assoc).
    replace (Z.of_nat (length pre) + 1) with (Z.of_nat (length (pre ++ [c])))
      by (rewrite length_app; simpl; lia).
    rewrite IH; try done; try lia.
    + rewrite length_app. simpl. lia.
    + rewrite length_app; simpl; lia.
    + rewrite length_app; simpl.
      destruct Hstop as [Heq|Hb]; [left; lia|by right].
Qed.
Lemma loop_at_end (n : nat) (s : Split.st) :
  Split.i s >= Split.length s -> Split.loop n s = s.
Proof.
  intros Hge. destruct n as [|n]; simpl; [done|].
  destruct (Z.ltb_spec (Split.i s) (Split.length s)); [lia|done].
Qed.

Lemma length_spaced_pos (ws : list (list Z)) : (1 <= length (spaced ws))%nat.
Proof.
  destruct ws as [|w [|w2 ws]]; simpl; rewrite ?length_app; simpl; lia.
Qed.

Lemma plain_word_head (w : list Z) :
  plain_word w ->
  exists c w', w = c :: w' /\ is_blank c = false /\ is_quote c = false.
Proof.
  intros (Hne & Hall & Hq). destruct w as [|c w']; [done|].
  exists c, w'. apply Forall_cons in Hall as [[Hb _] _]. done.
Qed.

Lemma offsets_cons (start : Z) (w : list Z) (ws : list (list Z)) :
  offsets start (w :: ws) = start :: offsets (start + Z.of_nat (length w) + 1) ws.
Proof. reflexivity. Qed.

(** One iteration of the outer loop on a plain word that follows a run
    of blanks. *)
Lemma body_plain_word (pre sep w tl : list Z) (len argc : Z) (argv : list Z) :
  plain_word w -> Forall (fun b => is_blank b = true) sep ->
  Z.of_nat (length pre + length sep + length w) <= len < 4294967296 ->
  (Z.of_nat (length pre + length sep + length w) = len \/
   exists b tl', tl = b :: tl' /\ is_blank b = true) ->
  Split.body (Split.St (pre ++ sep ++ w ++ tl) len (Z.of_nat (length pre)) argc argv)
  = inr (Split.St (pre ++ replicate (length sep) 0 ++ w ++ tl) len
           (Z.of_nat (length pre + length sep + length w)) (argc + 1)
           (argv ++ [Z.of_nat (length pre + length sep)])).
Proof.
  intros Hw Hsep Hlen Hstop.
  destruct (plain_word_head w Hw) as (c & w' & -> & Hc & Hq).
  destruct Hw as (_ & Hall & _). simpl in Hlen.
  unfold Split.body, Split.remaining. cbn [Split.cmd Split.i Split.length Split.argc Split.argv].
  rewrite skip_blanks_run; try done; try lia.
  2:{ right. by exists c, (w' ++ tl). }
  destruct (Z.geb_spec (Z.of_nat (length pre + length sep)) len); [lia|].
  assert (Hhead : get (pre ++ replicate (length sep) 0 ++ (c :: w') ++ tl)
                      (Z.of_nat (length pre + length sep)) = c).
  { rewrite app_assoc.
    replace (length pre + length sep)%nat with (length (pre ++ replicate (length sep) 0))
      by (by rewrite length_app, length_replicate).
    apply get_app_head. }
  rewrite Hhead, Hq.
  rewrite (app_assoc pre (replicate _ _)).
  replace (Z.of_nat (length pre + length sep))
    with (Z.of_nat (length (pre ++ replicate (length sep) 0)))
    by (by rewrite length_app, length_replicate).
  rewrite scan_word_run; try done.
  all: rewrite ?length_app, ?length_replicate; simpl in *; try done; try lia.
Qed.

(** The outer loop on plain words separated by single spaces. *)
Lemma loop_words (ws : list (list Z)) : forall (n : nat) (pre sep rest : list Z)
    (argc : Z) (argv : list Z),
  ws <> [] -> Forall plain_word ws -> Forall (fun b => is_blank b = true) sep ->
  (length ws <= n)%nat -> 0 <= argc -> argc + Z.of_nat (length ws) <= EMBSH_MAX_ARGS ->
  Z.of_nat (length pre + length sep + length (spaced ws)) <= 4294967296 ->
  let len := Z.of_nat (length pre + length sep + length (spaced ws)) - 1 in
  Split.loop n (Split.St (pre ++ sep ++ spaced ws ++ rest) len (Z.of_nat (length pre)) argc argv)
  = Split.St (pre ++ replicate (length sep) 0 ++ stamped ws ++ rest) len len
      (argc + Z.of_nat (length ws))
      (argv ++ offsets (Z.of_nat (length pre + length sep)) ws).
Proof.
  induction ws as [|w ws IH]; intros n pre sep rest argc argv Hne Hws Hsep Hn Hargc Hmax Hlen;
    [done|].
  apply Forall_cons in Hws as [Hw Hws]. cbv zeta.
  destruct n as [|n]; [simpl in Hn; lia|].
  pose proof (plain_word_head w Hw) as (c & w' & Hcw & _).
  assert (Hwl : (1 <= length w)%nat) by (subst w; simpl; lia).
  unfold EMBSH_MAX_ARGS in *.
  destruct ws as [|w2 ws].
  - (* the last word *)
    simpl in *. rewrite length_app in *. simpl in *.
    cbn [Split.loop Split.i Split.length Split.argc].
    destruct (Z.ltb_spec (Z.of_nat (length pre))
                (Z.of_nat (length pre + length sep + (length w + 1)) - 1)); [|lia].
    destruct (Z.ltb_spec argc EMBSH_MAX_ARGS); [|unfold EMBSH_MAX_ARGS in *; lia].
    cbn [andb]. rewrite <- (app_assoc w [0] rest).
    rewrite body_plain_word; try done; try lia.
    rewrite loop_at_end by (simpl; lia).
    unfold stamped. cbn [map concat offsets]. rewrite ?app_nil_r, <- ?app_assoc.
    f_equal; lia.
  - (* a word followed by others *)
    pose proof (length_spaced_pos (w2 :: ws)) as Hsp.
    change (spaced (w :: w2 :: ws)) with (w ++ SPACE :: spaced (w2 :: ws)) in *.
    rewrite length_app in Hlen. cbn [length] in Hlen, Hn, Hmax.
    rewrite length_app. cbn [length].
    cbn [Split.loop Split.i Split.length Split.argc].
    match goal with |- context [Z.of_nat (length pre) <? ?l] =>
      destruct (Z.ltb_spec (Z.of_nat (length pre)) l); [|lia] end.
    destruct (Z.ltb_spec argc EMBSH_MAX_ARGS); [|unfold EMBSH_MAX_ARGS in *; lia].
    cbn [andb]. rewrite <- (app_assoc w (SPACE :: spaced (w2 :: ws)) rest).
    rewrite body_plain_word; try done; try lia.
    2:{ right. by eexists _, _. }
    cbn [app].
    specialize (IH n (pre ++ replicate (length sep) 0 ++ w) [SPACE] rest (argc + 1)
                  (argv ++ [Z.of_nat (length pre + length sep)])).
    cbv zeta in IH. rewrite <- !app_assoc in IH. cbn [app] in IH.
    rewrite !length_app, length_replicate in IH. cbn [length] in IH.
    match goal with |- Split.loop n (Split.St ?c ?l ?i ?a ?v) = _ =>
      replace l with (Z.of_nat (length pre + (length sep + length w) + 1
                                + length (spaced (w2 :: ws))) - 1) by lia;
      replace i with (Z.of_nat (length pre + (length sep + length w))) by lia
    end.
    rewrite IH; try done; try lia.
    + rewrite (offsets_cons _ w). unfold stamped. cbn [map concat length].
      rewrite <- !app_assoc. cbn [app replicate].
      replace (Z.of_nat (length pre + (length sep + length w) + 1))
        with (Z.of_nat (length pre + length sep) + Z.of_nat (length w) + 1) by lia.
      f_equal; lia.
    + by repeat constructor.
Qed.
Lemma plain_word_nonzero (w : list Z) : plain_word w -> Forall (fun b => b <> 0) w.
Proof. intros (_ & Hall & _). eapply Forall_impl; [exact Hall|]. by intros b [_ ?]. Qed.

(** Reading the arguments back from the buffer the tokenizer leaves. *)
Lemma tokens_stamped (ws : list (list Z)) : forall (pre rest : list Z),
  Forall plain_word ws ->
  map (cstr_at (pre ++ stamped ws ++ rest)) (offsets (Z.of_nat (length pre)) ws) = ws.
Proof.
  induction ws as [|w ws IH]; intros pre rest Hws; [done|].
  apply Forall_cons in Hws as [Hw Hws]. cbn [offsets map]. f_equal.
  - unfold cstr_at, stamped. cbn [map concat]. rewrite Nat2Z.id, drop_app_length.
    rewrite <- !app_assoc. cbn [app]. by apply cstr_app_nul, plain_word_nonzero.
  - specialize (IH (pre ++ w ++ [0]) rest Hws).
    rewrite !length_app in IH. cbn [length] in IH.
    replace (Z.of_nat (length pre) + Z.of_nat (length w) + 1)
      with (Z.of_nat (length pre + (length w + 1))) by lia.
    replace (pre ++ stamped (w :: ws) ++ rest)
      with ((pre ++ w ++ [0]) ++ stamped ws ++ rest); [exact IH|].
    unfold stamped. cbn [map concat]. by rewrite <- !app_assoc.
Qed.

Lemma ShellSplit_spaced (ws : list (list Z)) (rest : list Z) :
  Forall plain_word ws ->
  Z.of_nat (length ws) <= EMBSH_MAX_ARGS ->
  Z.of_nat (length (spaced ws)) <= 4294967296 ->
  let r := ShellSplit (spaced ws ++ rest) (Z.of_nat (length (spaced ws)) - 1) in
  r.1.1 = Z.of_nat (length ws) /\ tokens r = ws.
Proof.
  intros Hws Hmax Hlen. cbv zeta. unfold ShellSplit. cbv zeta.
  destruct (decide (ws = [])) as [->|Hne].
  { rewrite loop_at_end by (simpl; lia). done. }
  pose proof (loop_words ws (Z.to_nat EMBSH_MAX_ARGS) [] [] rest 0 [] Hne Hws) as Hloop.
  cbv zeta in Hloop. cbn [app length Nat.add replicate] in Hloop.
  change (Z.of_nat 0) with 0 in Hloop. rewrite Hloop; try done; try lia.
  cbn [Split.argc Split.cmd Split.argv fst snd tokens app].
  split; [lia|].
  apply (tokens_stamped ws [] rest Hws).
Qed.

(** X1.  Tokenization law: a line of at most [EMBSH_MAX_ARGS] plain
    words separated by single spaces is split into exactly these words,
    each NUL-terminated in place; the empty line gives no argument. *)
Theorem ShellSplit_plain_words (ws : list (list Z)) (rest : list Z) :
  Forall plain_word ws ->
  Z.of_nat (length ws) <= EMBSH_MAX_ARGS ->
  Z.of_nat (length (spaced ws)) <= 4294967296 ->
  let r := ShellSplit (spaced ws ++ rest) (Z.of_nat (length (spaced ws)) - 1) in
  r.1.1 = Z.of_nat (length ws) /\ tokens r = ws.
Proof. apply ShellSplit_spaced. Qed.

Lemma ShellSplit_plain_words_witness :
  tokens (ShellSplit (spaced [lit "cmd"; lit "arg1"; lit "arg2"]) 13)
  = [lit "cmd"; lit "arg1"; lit "arg2"].
Proof.
  assert (H : Forall plain_word [lit "cmd"; lit "arg1"; lit "arg2"]).
  { repeat constructor; try done; vm_compute; repeat constructor; done. }
  pose proof (ShellSplit_plain_words [lit "cmd"; lit "arg1"; lit "arg2"] [] H) as Hs.
  cbv zeta in Hs. rewrite app_nil_r in Hs.
  apply Hs; vm_compute; done.
Defined.

(** ** ExecuteLine on a line of words *)

Lemma memcpy_prefix (dst src : list Z) (n : Z) :
  0 <= n -> n <= Z.of_nat (length src) -> n <= Z.of_nat (length dst) ->
  memcpy dst src n = take (Z.to_nat n) src ++ drop (Z.to_nat n) dst.
Proof.
  intros H0 Hs Hd. unfold memcpy, slice. rewrite drop_0.
  rewrite store_splice by (rewrite length_take; lia).
  rewrite take_0, length_take. simpl. repeat f_equal. lia.
Qed.

Lemma ExecuteLine_words (E : Externs) (reg : CommandRegistry) (w : World)
    (w1 : list Z) (args : list (list Z)) :
  Forall plain_word (w1 :: args) ->
  Z.of_nat (length (w1 :: args)) <= EMBSH_MAX_ARGS ->
  holds_words (sess w) (w1 :: args) ->
  ExecuteLine E reg w = dispatch E reg w1 args w.
Proof.
  intros Hws Hmax (Hlen & Hpos & Htake).
  pose proof (length_spaced_pos (w1 :: args)) as Hsp.
  assert (Hfit : (length (spaced (w1 :: args)) <= 256)%nat).
  { rewrite <- Htake, length_take. unfold EMBSH_LINE_BUF_SIZE in *. lia. }
  unfold ExecuteLine. cbv zeta. rewrite Hpos.
  rewrite u32_small by lia.
  rewrite memcpy_prefix;
    [|lia|unfold EMBSH_LINE_BUF_SIZE in *; lia
     |rewrite length_replicate; unfold EMBSH_LINE_BUF_SIZE; lia].
  replace (Z.to_nat (Z.of_nat (length (spaced (w1 :: args))) - 1 + 1))
    with (length (spaced (w1 :: args))) by lia.
  rewrite Htake.
  pose proof (ShellSplit_spaced (w1 :: args)
                (drop (length (spaced (w1 :: args)))
                   (replicate (Z.to_nat EMBSH_LINE_BUF_SIZE) 0)) Hws Hmax) as Hsplit.
  cbv zeta in Hsplit. destruct Hsplit as [Hargc Htok]; [lia|].
  destruct (ShellSplit _ _) as [[argc cmd] argv] eqn:Hr. cbn [fst snd] in Hargc.
  unfold dispatch.
  destruct (Z.leb_spec argc 0); [simpl in Hargc; lia|].
  assert (Hargv0 : cstr_at cmd (get argv 0) = w1).
  { unfold tokens in Htok. destruct argv as [|a argv]; [done|].
    simpl in Htok. by injection Htok. }
  rewrite Hargv0, Htok, Hargc.
  destruct (streq w1 (lit "exit") || streq w1 (lit "quit")); [done|].
  destruct (Find reg w1) as [e|]; [done|].
  unfold vsnprintf. cbn [fst snd].
  destruct (Z.gtb_spec (Z.of_nat (length (lit "unknown command: " ++ w1 ++ CRLF))) 0) as [|Hn];
    [done|].
  rewrite length_app in Hn. simpl in Hn. lia.
Qed.

(** X2.  The built-ins [exit] and [quit] are decided on the first word
    alone, before the registry is looked at: the session is sent [Bye.],
    its [active] flag is cleared, and no command is invoked, whatever is
    registered and whatever arguments follow. *)
Theorem ExecuteLine_exit_quit (E : Externs) (reg : CommandRegistry) (w : World)
    (w1 : list Z) (args : list (list Z)) :
  Forall plain_word (w1 :: args) ->
  Z.of_nat (length (w1 :: args)) <= EMBSH_MAX_ARGS ->
  holds_words (sess w) (w1 :: args) ->
  w1 = lit "exit" \/ w1 = lit "quit" ->
  let w' := ExecuteLine E reg w in
  w' = on_sess (with_active false) (SessionWrite (lit "Bye." ++ CRLF) w) /\
  active (sess w') = false /\ invoked w' = invoked w /\ out w' = out w /\
  (write_fn (sess w) <> 0 -> tx w' = tx w ++ [lit "Bye." ++ CRLF]).
Proof.
  intros Hws Hmax Hhold Hw1. cbv zeta.
  rewrite (ExecuteLine_words E reg w w1 args Hws Hmax Hhold). unfold dispatch.
  assert (Hb : streq w1 (lit "exit") || streq w1 (lit "quit") = true).
  { destruct Hw1 as [-> | ->]; reflexivity. }
  rewrite Hb. split; [done|]. unfold SessionWrite.
  destruct (Z.eqb_spec (write_fn (sess w)) 0) as [H0|Hn0]; cbn [negb andb]; [done|].
  repeat split; try done.
Qed.

Lemma ExecuteLine_exit_quit_witness :
  active (sess (ExecuteLine idle reg_hello typed_exit_now)) = false.
Proof.
  apply (ExecuteLine_exit_quit idle reg_hello typed_exit_now (lit "exit") [lit "now"]).
  - repeat constructor; try done; vm_compute; repeat constructor; done.
  - vm_compute. done.
  - repeat split.
  - by left.
Defined.

Lemma unknown_message (text : list Z) (beyond : Z -> Z) :
  let n := Z.of_nat (length text) in
  slice ((vsnprintf (replicate 160 0) 160 (Some text)).1
           ++ map beyond (seqZ 160 (n - 160))) 0 n
  = if decide (length text <= 159)%nat then text
    else take 159 text ++ 0 :: map beyond (seqZ 160 (n - 160)).
Proof.
  cbv zeta. unfold vsnprintf, slice. cbn [fst]. rewrite drop_0, Nat2Z.id.
  change (Z.to_nat (160 - 1)) with 159%nat.
  destruct (decide (length text <= 159)%nat) as [Hle|Hgt].
  - rewrite (take_ge text) by lia.
    rewrite store_splice by (rewrite length_app, length_replicate; simpl; lia).
    rewrite take_0. cbn [app]. rewrite <- !app_assoc. by rewrite take_app_length.
  - assert (Hlen : length (take 159 text ++ [0]) = 160%nat)
      by (rewrite length_app, length_take; cbn [length]; lia).
    rewrite store_splice by (rewrite Hlen, length_replicate; lia).
    rewrite take_0, Hlen. cbn [app Nat.add]. rewrite drop_replicate.
    change (160 - 160)%nat with 0%nat. cbn [replicate]. rewrite app_nil_r.
    rewrite take_ge; [by rewrite <- app_assoc|].
    rewrite length_app, Hlen, length_map, length_seqZ. lia.
Qed.

(** X3.  A line whose first word is neither a built-in nor a registered
    name changes nothing but the output: the session is sent one message.
    For a word of at most 140 bytes it is the text [unknown command: ],
    the word and CR LF.  For a longer word the text no longer fits the
    160-byte array: the write still has the length of the whole text, and
    carries the first 159 bytes of it, the NUL that ends the array, and
    then the bytes that follow the array in memory. *)
Theorem ExecuteLine_unknown (E : Externs) (reg : CommandRegistry) (w : World)
    (w1 : list Z) (args : list (list Z)) :
  Forall plain_word (w1 :: args) ->
  Z.of_nat (length (w1 :: args)) <= EMBSH_MAX_ARGS ->
  holds_words (sess w) (w1 :: args) ->
  w1 <> lit "exit" -> w1 <> lit "quit" -> Find reg w1 = None ->
  write_fn (sess w) <> 0 ->
  let text := lit "unknown command: " ++ w1 ++ CRLF in
  let n := Z.of_nat (length text) in
  ExecuteLine E reg w
  = with_tx (tx w ++ [if decide (length w1 <= 140)%nat then text
                      else take 159 text ++ 0 :: map (beyond_msg E w) (seqZ 160 (n - 160))])
            w.
Proof.
  intros Hws Hmax Hhold He Hq Hfind Hwr. cbv zeta.
  rewrite (ExecuteLine_words E reg w w1 args Hws Hmax Hhold). unfold dispatch. cbv zeta.
  unfold streq. rewrite !bool_decide_eq_false_2 by done. cbn [orb]. rewrite Hfind.
  unfold SessionWriteN.
  destruct (Z.eqb_spec (write_fn (sess w)) 0); [done|]. cbn [negb andb].
  destruct (Z.gtb_spec (Z.of_nat (length (lit "unknown command: " ++ w1 ++ CRLF))) 0) as [_|Hn].
  - pose proof (unknown_message (lit "unknown command: " ++ w1 ++ CRLF) (beyond_msg E w)) as Hm.
    cbv zeta in Hm. rewrite Hm.
    assert (Hlen : length (lit "unknown command: " ++ w1 ++ CRLF) = (length w1 + 19)%nat)
      by (rewrite !length_app; simpl; lia).
    destruct (decide (length w1 <= 140)%nat), (decide (_ <= 159)%nat); try done; lia.
  - rewrite length_app in Hn. simpl in Hn. lia.
Qed.

Lemma ExecuteLine_unknown_witness :
  tx (ExecuteLine idle Instance0 typed_hello) = [lit "unknown command: hello" ++ CRLF].
Proof.
  rewrite (ExecuteLine_unknown idle Instance0 typed_hello (lit "hello") []).
  - reflexivity.
  - repeat constructor; try done; vm_compute; repeat constructor; done.
  - vm_compute. done.
  - repeat split.
  - done.
  - done.
  - reflexivity.
  - done.
Defined.

Lemma ExecuteLine_found (E : Externs) (reg : CommandRegistry) (w : World)
    (w1 : list Z) (args : list (list Z)) (e : CmdEntry) :
  Forall plain_word (w1 :: args) ->
  Z.of_nat (length (w1 :: args)) <= EMBSH_MAX_ARGS ->
  holds_words (sess w) (w1 :: args) ->
  w1 <> lit "exit" -> w1 <> lit "quit" -> Find reg w1 = Some e ->
  let inside :=
    with_invoked (invoked w ++ [(fn e, w1 :: args, ctx e)])
      (with_out (mkOutput (Some write_adapter) session_ptr) w) in
  let w' := ExecuteLine E reg w in
  w' = with_out (mkOutput None nullptr)
         (run_cmd E (fn e) (Z.of_nat (length (w1 :: args))) (w1 :: args) (ctx e) inside) /\
  write (out w') = None.
Proof.
  intros Hws Hmax Hhold He Hq Hfind. cbv zeta.
  rewrite (ExecuteLine_words E reg w w1 args Hws Hmax Hhold). unfold dispatch.
  unfold streq. rewrite !bool_decide_eq_false_2 by done. cbn [orb]. rewrite Hfind.
  done.
Qed.

(** X4.  A line whose first word is a registered name runs that entry's
    function once, with the words of the line as [argv], their number as
    [argc] and the entry's context; the output sink is the session's
    adapter while the function runs and is cleared when it returns. *)
Theorem ExecuteLine_dispatch (E : Externs) (reg : CommandRegistry) (w : World)
    (w1 : list Z) (args : list (list Z)) (e : CmdEntry) :
  Forall plain_word (w1 :: args) ->
  Z.of_nat (length (w1 :: args)) <= EMBSH_MAX_ARGS ->
  holds_words (sess w) (w1 :: args) ->
  w1 <> lit "exit" -> w1 <> lit "quit" -> Find reg w1 = Some e ->
  let inside :=
    with_invoked (invoked w ++ [(fn e, w1 :: args, ctx e)])
      (with_out (mkOutput (Some write_adapter) session_ptr) w) in
  let w' := ExecuteLine E reg w in
  w' = with_out (mkOutput None nullptr)
         (run_cmd E (fn e) (Z.of_nat (length (w1 :: args))) (w1 :: args) (ctx e) inside) /\
  write (out w') = None.
Proof. apply ExecuteLine_found. Qed.

Lemma ExecuteLine_dispatch_witness :
  invoked (ExecuteLine idle reg_hello typed_hello) = [(7, [lit "hello"], nullptr)].
Proof.
  destruct (ExecuteLine_dispatch idle reg_hello typed_hello (lit "hello") []
              (mkCmdEntry (lit "hello") (Some (lit "Say hi")) 7 nullptr)) as [-> _].
  - repeat constructor; try done; vm_compute; repeat constructor; done.
  - vm_compute. done.
  - repeat split.
  - done.
  - done.
  - reflexivity.
  - reflexivity.
Defined.

Lemma ShellPrintf_calls_sink (E : Externs) (w : World) (text : list Z) (f : SessionWriteFn) :
  write (out w) = Some f -> text <> [] -> Forall (fun b => b <> 0) text ->
  ShellPrintf E (Some text) w =
  (Z.of_nat (length text),
   call_write E f (take 511 text) (octx (out w))
     (with_sunk (sunk w ++ [(f, take 511 text, octx (out w))]) w)).
Proof.
  intros Hf Hne Hnz. pose proof (printf_buf_facts text Hnz) as (_ & _ & Hc).
  unfold ShellPrintf. rewrite Hf.
  unfold printf_buf in Hc. unfold vsnprintf in *. cbn [fst] in Hc.
  destruct (Z.gtb_spec (Z.of_nat (length text)) 0) as [_|Hle].
  - by rewrite Hc.
  - destruct text; [done|simpl in Hle; lia].
Qed.

(** X5.  What a command prints with [ShellPrintf] while [ExecuteLine]
    runs it is written to the session that typed the line, as one write
    of the text (cut at 511 bytes); once the command has returned the
    sink is gone and [ShellPrintf] answers -1. *)
Theorem ExecuteLine_routes_printf (reg : CommandRegistry) (w : World)
    (w1 : list Z) (args : list (list Z)) (e : CmdEntry) (text : list Z) :
  Forall plain_word (w1 :: args) ->
  Z.of_nat (length (w1 :: args)) <= EMBSH_MAX_ARGS ->
  holds_words (sess w) (w1 :: args) ->
  w1 <> lit "exit" -> w1 <> lit "quit" -> Find reg w1 = Some e ->
  text <> [] -> Forall (fun b => b <> 0) text -> write_fn (sess w) <> 0 ->
  let w' := ExecuteLine (printing text) reg w in
  tx w' = tx w ++ [take 511 text] /\ sess w' = sess w /\
  (ShellPrintf idle (Some text) w').1 = -1.
Proof.
  intros Hws Hmax Hhold He Hq Hfind Hne Hnz Hwr. cbv zeta.
  destruct (ExecuteLine_found (printing text) reg w w1 args e Hws Hmax Hhold He Hq Hfind)
    as [-> Hout].
  cbn [run_cmd printing].
  set (inside := with_invoked _ _).
  rewrite (ShellPrintf_calls_sink idle inside text write_adapter eq_refl Hne Hnz).
  subst inside. cbn [snd call_write]. unfold SessionWrite. sess_simpl.
  destruct (Z.eqb_spec (write_fn (sess w)) 0); [done|]. cbn [negb andb].
  assert (Hpos : (Z.of_nat (length (take 511 text)) >? 0) = true).
  { destruct text; [done|]. reflexivity. }
  rewrite Hpos. sess_simpl. repeat split; try done.
Qed.
Lemma ExecuteLine_routes_printf_witness :
  tx (ExecuteLine (printing (lit "Hi" ++ CRLF)) reg_hello typed_hello) = [lit "Hi" ++ CRLF].
Proof.
  apply (ExecuteLine_routes_printf reg_hello typed_hello (lit "hello") []
           (mkCmdEntry (lit "hello") (Some (lit "Say hi")) 7 nullptr) (lit "Hi" ++ CRLF)).
  - repeat constructor; try done; vm_compute; repeat constructor; done.
  - vm_compute. done.
  - repeat split.
  - done.
  - done.
  - reflexivity.
  - done.
  - repeat constructor; done.
  - done.
Defined.

(** ** Lookup and registration *)

(** X6.  [Find] answers [nullptr] exactly for a name never registered,
    and otherwise returns an entry stored under that name; registering a
    name, whether it succeeds or fails, changes the answer for no other
    name. *)
Theorem Find_frame (reg : CommandRegistry) (nm other : list Z) (f : CmdFn) (c : ptr)
    (d : option (list Z)) :
  wf_registry reg ->
  (Find reg other = None <-> ~ registered reg other) /\
  (forall e, Find reg other = Some e -> name e = other /\ e ∈ used reg) /\
  (other <> nm -> Find (Register reg nm f c d).2 other = Find reg other).
Proof.
  intros Hwf. split; [|split].
  - unfold Find. destruct (scan_name reg other) as [[i e]|] eqn:Hs; simpl.
    + split; [done|]. intros Hn. by apply scan_name_Some in Hs.
    + by apply scan_name_None in Hs.
  - intros e. unfold Find, scan_name.
    destruct (list_find _ _) as [[i e']|] eqn:Hs; simpl; [|done].
    intros [= ->]. apply list_find_Some in Hs as (Hl & Hn & _).
    split; [done|]. by apply list_elem_of_lookup_2 in Hl.
  - intros Hne. unfold Register.
    destruct (scan_name reg nm) as [[i e]|] eqn:Hs; [done|].
    destruct (count_ reg >=? EMBSH_MAX_COMMANDS) eqn:Hfull; [done|].
    cbn [snd]. unfold Find, scan_name at 1.
    rewrite used_after_Register by (done || lia).
    fold (scan_name reg other).
    destruct (list_find (fun e => name e = other) (used reg)) as [[i e]|] eqn:Ho.
    + unfold scan_name. rewrite Ho. by rewrite (list_find_app_l _ _ _ _ _ Ho).
    + unfold scan_name. rewrite Ho, list_find_app_r by done. simpl.
      destruct (decide (nm = other)); [congruence|done].
Qed.

Lemma Find_frame_witness :
  Find (Register reg_help_reboot (lit "status") 9 nullptr None).2 (lit "reboot")
  = Some (mkCmdEntry (lit "reboot") None 8 nullptr).
Proof.
  destruct (Find_frame reg_help_reboot (lit "status") (lit "reboot") 9 nullptr None
              reg_help_reboot_wf) as (_ & _ & ->); done.
Defined.
Lemma Register_fresh (reg : CommandRegistry) (e : CmdEntry) :
  wf_registry reg -> ~ registered reg (name e) -> count_ reg < EMBSH_MAX_COMMANDS ->
  let reg' := (Register reg (name e) (fn e) (ctx e) (desc e)).2 in
  (Register reg (name e) (fn e) (ctx e) (desc e)).1 = success tt /\
  used reg' = used reg ++ [e] /\ count_ reg' = count_ reg + 1 /\ wf_registry reg'.
Proof.
  intros Hwf Hfresh Hroom. pose proof Hwf as [Hlen Hc]. cbv zeta. unfold Register.
  apply scan_name_None in Hfresh. rewrite Hfresh.
  destruct (Z.geb_spec (count_ reg) EMBSH_MAX_COMMANDS); [lia|]. cbn [fst snd].
  split; [done|]. rewrite used_after_Register by done.
  unfold EMBSH_MAX_COMMANDS in *.
  split; [by destruct e|]. cbn [count_ cmds_]. rewrite u32_small by lia.
  split; [done|]. split; cbn [cmds_ count_]; [by rewrite length_insert|].
  unfold EMBSH_MAX_COMMANDS. lia.
Qed.

Lemma count_used (reg : CommandRegistry) :
  wf_registry reg -> Z.of_nat (length (used reg)) = count_ reg.
Proof.
  intros [Hlen Hc]. unfold used. rewrite length_take. unfold EMBSH_MAX_COMMANDS in *. lia.
Qed.

Lemma register_all_fresh (es : list CmdEntry) : forall reg,
  wf_registry reg ->
  NoDup (map name es) ->
  (forall e, e ∈ es -> ~ registered reg (name e)) ->
  count_ reg + Z.of_nat (length es) <= EMBSH_MAX_COMMANDS ->
  used (register_all reg es) = used reg ++ es /\ wf_registry (register_all reg es).
Proof.
  induction es as [|e es IH]; intros reg Hwf Hnd Hfresh Hroom.
  - simpl. by rewrite app_nil_r.
  - cbn [map] in Hnd. apply NoDup_cons in Hnd as [Hnotin Hnd].
    cbn [length] in Hroom.
    destruct (Register_fresh reg e Hwf) as (_ & Hused & Hcount & Hwf');
      [apply Hfresh; by left|lia|].
    cbn [register_all fold_left]. fold (register_all (Register reg (name e) (fn e) (ctx e) (desc e)).2 es).
    destruct (IH _ Hwf' Hnd) as [Hu Hw].
    + intros e' He' (x & Hx & Hname). rewrite Hused in Hx.
      apply elem_of_app in Hx as [Hx|Hx].
      * apply (Hfresh e'); [by right|]. by exists x.
      * apply list_elem_of_singleton in Hx as ->. apply Hnotin.
        rewrite Hname. by apply list_elem_of_fmap_2.
    + lia.
    + split; [|done]. by rewrite Hu, Hused, <- app_assoc.
Qed.

(** X7.  Registering entries with distinct names that are not yet in
    the table, within its capacity, stores all of them: [Count] grows by
    their number, [ForEach] visits the old entries and then the new ones
    in the order registered, and [Find] returns each new entry under its
    name. *)
Theorem register_all_spec (reg : CommandRegistry) (es : list CmdEntry) :
  wf_registry reg ->
  NoDup (map name es) ->
  (forall e, e ∈ es -> ~ registered reg (name e)) ->
  count_ reg + Z.of_nat (length es) <= EMBSH_MAX_COMMANDS ->
  let reg' := register_all reg es in
  Count reg' = Count reg + Z.of_nat (length es) /\
  ForEach reg' (fun e seen => seen ++ [e]) [] = used reg ++ es /\
  (forall e, e ∈ es -> Find reg' (name e) = Some e).
Proof.
  intros Hwf Hnd Hfresh Hroom. cbv zeta.
  destruct (register_all_fresh es reg Hwf Hnd Hfresh Hroom) as [Hused Hwf'].
  split; [|split].
  - unfold Count. rewrite <- (count_used _ Hwf'), <- (count_used _ Hwf), Hused, length_app. lia.
  - unfold ForEach. rewrite Hused.
    assert (Hfold : forall (l acc : list CmdEntry),
              fold_left (fun a e => a ++ [e]) l acc = acc ++ l).
    { induction l as [|x l IHl]; intros acc; simpl; [by rewrite app_nil_r|].
      by rewrite IHl, <- app_assoc. }
    by rewrite Hfold.
  - intros e He. unfold Find, scan_name. rewrite Hused.
    assert (Hold : list_find (fun e0 => name e0 = name e) (used reg) = None).
    { apply list_find_None, Forall_forall. intros x Hx Hname.
      apply (Hfresh e He). by exists x. }
    rewrite list_find_app_r by done.
    apply list_elem_of_lookup in He as [i Hi].
    assert (Hfound : list_find (fun e0 => name e0 = name e) es = Some (i, e)).
    { apply list_find_Some. split; [done|]. split; [done|].
      intros j y Hj Hlt Hname.
      assert (Hij : i = j); [|lia].
      eapply (NoDup_lookup (map name es)); [done| |].
      - by rewrite list_lookup_fmap, Hi.
      - by rewrite list_lookup_fmap, Hj, <- Hname. }
    by rewrite Hfound.
Qed.

Lemma register_all_spec_witness :
  let es := [mkCmdEntry (lit "status_a") None 2 nullptr;
             mkCmdEntry (lit "status_b") None 3 nullptr] in
  Count (register_all Instance0 es) = 2.
Proof.
  intros es.
  apply (register_all_spec Instance0 es Instance0_wf).
  - apply (bool_decide_unpack _). by vm_compute.
  - intros e _ (x & Hx & _). by apply elem_of_nil in Hx.
  - vm_compute. done.
Defined.
Lemma common_len_spec (c : nat) : forall (f o : list Z),
  let k := common_len c f o in
  (k <= c)%nat /\ take k f = take k o /\ (k <= length f)%nat /\ (k <= length o)%nat /\
  forall p, p `prefix_of` f -> p `prefix_of` o -> (length p <= c)%nat -> (length p <= k)%nat.
Proof.
  induction c as [|c IH]; intros f o; cbv zeta.
  - simpl. split_and!; try done; lia.
  - destruct f as [|a f], o as [|b o]; simpl.
    + split_and!; try done; try lia. intros p Hp _ _. apply prefix_length in Hp. simpl in Hp. lia.
    + split_and!; try done; try lia. intros p Hp _ _. apply prefix_length in Hp. simpl in Hp. lia.
    + split_and!; try done; try lia. intros p _ Hp _. apply prefix_length in Hp. simpl in Hp. lia.
    + destruct (Z.eqb_spec a b) as [->|Hab].
      * destruct (IH f o) as (H1 & H2 & H3 & H4 & H5). simpl.
        split_and!; try lia; [by rewrite H2|].
        intros [|x p] Hf Ho Hlen; simpl in *; [lia|].
        apply prefix_cons_inv_2 in Hf, Ho. specialize (H5 p Hf Ho). lia.
      * split_and!; try done; try lia.
        intros [|x p] Hf Ho _; simpl; [lia|].
        apply prefix_cons_inv_1 in Hf, Ho. congruence.
Qed.

Lemma fold_common_len (first : list Z) (others : list CmdEntry) : forall c : nat,
  let k := fold_left (fun common o => common_len common first (name o)) others c in
  (k <= c)%nat /\
  Forall (fun o => take k first `prefix_of` name o) others /\
  forall p, p `prefix_of` first -> Forall (fun o => p `prefix_of` name o) others ->
            (length p <= c)%nat -> (length p <= k)%nat.
Proof.
  induction others as [|o others IH]; intros c; cbv zeta; simpl.
  - split_and!; [lia|done|tauto].
  - destruct (common_len_spec c first (name o)) as (H1 & H2 & H3 & H4 & H5).
    destruct (IH (common_len c first (name o))) as (I1 & I2 & I3).
    set (k := fold_left _ others _) in *.
    split; [lia|]. split.
    + constructor; [|done].
      transitivity (take (common_len c first (name o)) first).
      * replace k with (k `min` common_len c first (name o))%nat by lia.
        rewrite <- take_take. apply prefix_take.
      * rewrite H2. apply prefix_take.
    + intros p Hp Hall Hlen. apply Forall_cons in Hall as [Ho Hall].
      apply I3; [done|done|]. by apply H5.
Qed.

Lemma cstr_copy_trunc (out first : list Z) (n : Z) :
  Forall (fun b => b <> 0) first ->
  0 <= n -> n <= Z.of_nat (length first) -> n < Z.of_nat (length out) ->
  cstr (set (memcpy out first n) n 0) = take (Z.to_nat n) first.
Proof.
  intros Hnz H0 Hf Ho. rewrite memcpy_prefix by lia. unfold set.
  rewrite insert_app_r_alt by (rewrite length_take; lia).
  rewrite length_take. replace (Z.to_nat n - _)%nat with 0%nat by lia.
  destruct (drop (Z.to_nat n) out) as [|x rest] eqn:Hd.
  { apply (f_equal length) in Hd. rewrite length_drop in Hd. simpl in Hd. lia. }
  simpl. apply cstr_app_nul. by apply Forall_take.
Qed.

Lemma strneq_prefix (nm pre : list Z) :
  Z.of_nat (length pre) < 4294967296 ->
  strneq nm pre (u32 (Z.of_nat (length pre))) = true <-> pre `prefix_of` nm.
Proof.
  intros Hlen. unfold strneq. rewrite u32_small by lia. rewrite Nat2Z.id.
  rewrite bool_decide_eq_true, firstn_all. split.
  - intros <-. apply prefix_take.
  - intros [k ->]. by rewrite take_app_length.
Qed.

Lemma AutoComplete_facts (reg : CommandRegistry) (pre out_buf : list Z) (buf_size : Z) :
  wf_registry reg -> c_names reg ->
  0 < buf_size < 4294967296 -> length out_buf = Z.to_nat buf_size ->
  Z.of_nat (length pre) < 4294967296 ->
  ((AutoComplete reg pre out_buf buf_size).1 = Z.of_nat (length (completions reg pre))) /\
  (length (AutoComplete reg pre out_buf buf_size).2 = length out_buf) /\
  (Z.of_nat (length (cstr (AutoComplete reg pre out_buf buf_size).2)) <= buf_size - 1) /\
  (completions reg pre = [] -> cstr (AutoComplete reg pre out_buf buf_size).2 = []) /\
  Forall (fun e => cstr (AutoComplete reg pre out_buf buf_size).2 `prefix_of` name e)
         (completions reg pre) /\
  (forall p, completions reg pre <> [] ->
             Forall (fun e => p `prefix_of` name e) (completions reg pre) ->
             Z.of_nat (length p) <= buf_size - 1 ->
             p `prefix_of` cstr (AutoComplete reg pre out_buf buf_size).2).
Proof.
  intros Hwf Hnames Hsize Hout Hpre.
  assert (Hsub : Forall (fun e => Forall (fun b => b <> 0) (name e) /\
                                  Z.of_nat (length (name e)) < 4294967296)
                        (completions reg pre)).
  { apply Forall_forall. intros e He. unfold completions in He.
    apply list_elem_of_filter in He as [_ He]. revert e He. by apply Forall_forall. }
  assert (Hcount : Z.of_nat (length (completions reg pre)) <= 64).
  { unfold completions. pose proof (length_filter (fun e => pre `prefix_of` name e) (used reg)).
    pose proof (count_used reg Hwf). destruct Hwf as [_ Hc].
    unfold EMBSH_MAX_COMMANDS in *. lia. }
  unfold AutoComplete.
  destruct (Z.eqb_spec buf_size 0) as [|_]; [lia|]. cbv zeta.
  rewrite (list_filter_iff _ (fun e => pre `prefix_of` name e))
    by (intros e; by apply strneq_prefix).
  fold (completions reg pre).
  rewrite (u32_small (buf_size - 1)) by lia.
  destruct (completions reg pre) as [|e others] eqn:Hfound.
  - cbn [fst snd length]. rewrite length_set.
    assert (Hc : cstr (set out_buf 0 0) = []).
    { destruct out_buf; [simpl in Hout; lia|]. done. }
    rewrite Hc. simpl. split_and!; try done; lia.
  - apply Forall_cons in Hsub as [[Hnz Hlen] Hsub].
    assert (Hgen : forall c : nat, (c <= length (name e))%nat ->
       Forall (fun o => take c (name e) `prefix_of` name o) others ->
       (forall p, p `prefix_of` name e -> Forall (fun o => p `prefix_of` name o) others ->
                  (length p <= c)%nat) ->
       let n := if Z.of_nat c <? buf_size - 1 then Z.of_nat c else buf_size - 1 in
       let out := set (memcpy out_buf (name e) n) n 0 in
       length out = length out_buf /\
       Z.of_nat (length (cstr out)) <= buf_size - 1 /\
       (e :: others = [] -> cstr out = []) /\
       Forall (fun e' => cstr out `prefix_of` name e') (e :: others) /\
       (forall p, e :: others <> [] -> Forall (fun e' => p `prefix_of` name e') (e :: others) ->
                  Z.of_nat (length p) <= buf_size - 1 -> p `prefix_of` cstr out)).
    { intros c Hc Hall Hmax n out.
      assert (Hn : 0 <= n /\ n <= Z.of_nat c /\ n <= buf_size - 1) by
        (subst n; destruct (Z.ltb_spec (Z.of_nat c) (buf_size - 1)); lia).
      assert (Hcs : cstr out = take (Z.to_nat n) (name e)).
      { subst out. apply cstr_copy_trunc; [done|lia|lia|lia]. }
      rewrite Hcs. subst out. rewrite length_set, length_memcpy, length_take.
      split; [done|]. split; [lia|]. split; [done|]. split.
      - constructor; [apply prefix_take|].
        eapply Forall_impl; [exact Hall|]. intros o Ho. simpl in Ho.
        transitivity (take c (name e)); [|done].
        replace (Z.to_nat n) with (Z.to_nat n `min` c)%nat by lia.
        rewrite <- take_take. apply prefix_take.
      - intros p _ Hp Hplen. apply Forall_cons in Hp as [Hpe Hpo].
        specialize (Hmax p Hpe Hpo).
        destruct Hpe as [k Hk]. rewrite Hk.
        assert (Z.to_nat n = length p \/ (length p < Z.to_nat n)%nat) as [->|Hlt].
        { subst n. destruct (Z.ltb_spec (Z.of_nat c) (buf_size - 1)); lia. }
        + by rewrite take_app_length.
        + rewrite take_app_ge by lia. by apply prefix_app_r. }
    destruct others as [|e2 others'].
    + cbn [fst snd length]. rewrite (u32_small (Z.of_nat (length (name e)))) by lia.
      split; [done|].
      apply (Hgen (length (name e))); [done|done|].
      intros p Hp _. by apply prefix_length.
    + remember (e2 :: others') as others eqn:Hothers.
      cbn [fst snd]. rewrite (u32_small (Z.of_nat (length (name e)))) by lia.
      rewrite Nat2Z.id. rewrite u32_small by lia. split; [done|].
      destruct (fold_common_len (name e) others (length (name e))) as (F1 & F2 & F3).
      apply Hgen; [done|done|].
      intros p Hp Hall. apply F3; [done|done|]. by apply prefix_length.
Qed.

(** X8.  [AutoComplete] on a buffer of [buf_size] bytes returns the
    number of registered names the prefix starts, keeps the buffer's size
    and leaves in it a C string of at most [buf_size - 1] bytes: the empty
    string when nothing matches, and otherwise the longest common prefix
    of the matching names, cut to the room there is.  So a single match
    that fits is completed to its full name. *)
Theorem AutoComplete_spec (reg : CommandRegistry) (pre out_buf : list Z) (buf_size : Z) :
  wf_registry reg -> c_names reg ->
  0 < buf_size < 4294967296 -> length out_buf = Z.to_nat buf_size ->
  Z.of_nat (length pre) < 4294967296 ->
  let r := AutoComplete reg pre out_buf buf_size in
  let found := completions reg pre in
  let completion := cstr r.2 in
  r.1 = Z.of_nat (length found) /\
  length r.2 = length out_buf /\
  Z.of_nat (length completion) <= buf_size - 1 /\
  (found = [] -> completion = []) /\
  Forall (fun e => completion `prefix_of` name e) found /\
  (forall p, found <> [] -> Forall (fun e => p `prefix_of` name e) found ->
             Z.of_nat (length p) <= buf_size - 1 -> p `prefix_of` completion) /\
  (forall e, found = [e] -> Z.of_nat (length (name e)) < buf_size -> completion = name e).
Proof.
  intros Hwf Hnames Hsize Hout Hpre. cbv zeta.
  destruct (AutoComplete_facts reg pre out_buf buf_size Hwf Hnames Hsize Hout Hpre)
    as (H1 & H2 & H3 & H4 & H5 & H6).
  split_and!; try done.
  intros e He Hfit. rewrite He in *. symmetry. apply prefix_length_eq.
  - apply H6; [done|by constructor|lia].
  - apply Forall_cons in H5 as [H5 _]. by apply prefix_length in H5.
Qed.

Lemma AutoComplete_spec_witness :
  Forall (fun e => cstr (AutoComplete reg_two (lit "st") (replicate 32 7) 32).2
                     `prefix_of` name e)
         (completions reg_two (lit "st")).
Proof.
  assert (Hwf : wf_registry reg_two) by (split; [reflexivity|by vm_compute]).
  assert (Hnames : c_names reg_two).
  { unfold c_names. apply (bool_decide_unpack _). by vm_compute. }
  apply (AutoComplete_spec reg_two (lit "st") (replicate 32 7) 32 Hwf Hnames);
    [lia|reflexivity|simpl; lia].
Defined.

(** ** The editor, key by key *)

Ltac eqb_no :=
  match goal with
  | |- context [Z.eqb ?a ?b] =>
      destruct (Z.eqb_spec a b) as [?|_]; [exfalso; unfold TAB, CR, LF in *; lia|]
  end.

Lemma store_app (a b : list Z) : forall buf off,
  store buf off (a ++ b) = store (store buf off a) (off + length a) b.
Proof.
  induction a as [|x a IH]; intros buf off; simpl.
  - by rewrite Nat.add_0_r.
  - rewrite IH. f_equal. lia.
Qed.

Ltac sess_cbv :=
  cbv [sess tx rx out invoked sunk on_sess
       with_sess with_tx with_rx with_out with_invoked with_sunk
       write_fn line_buf line_pos history hist_count hist_write hist_nav
       hist_browsing telnet_mode auth_required authenticated auth_attempts
       esc_state iac_state active
       with_write_fn with_line_buf with_line_pos with_history with_hist_count
       with_hist_write with_hist_nav with_hist_browsing with_telnet_mode
       with_auth_required with_authenticated with_auth_attempts
       with_esc_state with_iac_state with_active] in *.

Ltac open_world w :=
  destruct w as [[f0 b0 p0 h0 hc0 hw0 hn0 hb0 tm0 ar0 au0 aa0 es0 ia0 ac0] t0 r0 o0 i0 k0];
  sess_cbv.

Lemma typed_nil (w : World) : typed [] w = w.
Proof.
  unfold typed. open_world w.
  cbn [map length store Z.of_nat]. rewrite app_nil_r, Z.add_0_r. done.
Qed.

Lemma typed_app (a b : list Z) (w : World) :
  0 <= line_pos (sess w) -> typed b (typed a w) = typed (a ++ b) w.
Proof.
  intros Hpos. unfold typed. open_world w.
  rewrite store_app, map_app, length_app, app_assoc.
  replace (Z.to_nat (p0 + Z.of_nat (length a))) with (Z.to_nat p0 + length a)%nat by lia.
  replace (p0 + Z.of_nat (length a) + Z.of_nat (length b))
    with (p0 + Z.of_nat (length a + length b)) by lia.
  done.
Qed.

Lemma ProcessByte_printable (reg : CommandRegistry) (prompt : list Z) (w : World) (c : Z) :
  accepting (sess w) -> write_fn (sess w) <> 0 -> printable c ->
  0 <= line_pos (sess w) ->
  editor.ProcessByte reg prompt w c =
  (false, if line_pos (sess w) <? 255 then typed [c] w else w).
Proof.
  intros [Hesc Hiac] Hw Hc Hpos. unfold printable in Hc. unfold editor.ProcessByte.
  rewrite pass_filter by (done || lia). rewrite with_sess_same, Hesc.
  replace (telnet_mode (sess w) && (c =? 0)) with false
    by (destruct (Z.eqb_spec c 0); [lia|by rewrite andb_false_r]).
  repeat eqb_no. cbn [orb andb].
  change (u32 (EMBSH_LINE_BUF_SIZE - 1)) with 255.
  destruct (Z.ltb_spec (line_pos (sess w)) 255) as [Hlt|Hge]; cbn [andb]; [|done].
  destruct (Z.geb_spec c 32); [|lia]. destruct (Z.ltb_spec c 127); [|lia]. cbn [andb].
  f_equal. unfold SessionWriteN, typed.
  open_world w.
  destruct (Z.eqb_spec f0 0); [done|]. cbn. rewrite u32_small by lia. done.
Qed.

Lemma fold_printable (step : World -> Z -> World) :
  (forall w c, accepting (sess w) -> write_fn (sess w) <> 0 -> printable c ->
               0 <= line_pos (sess w) ->
               step w c = if line_pos (sess w) <? 255 then typed [c] w else w) ->
  forall cs w,
  line_wf (sess w) -> accepting (sess w) -> write_fn (sess w) <> 0 ->
  Forall printable cs ->
  fold_left step cs w = typed (take (Z.to_nat (255 - line_pos (sess w))) cs) w.
Proof.
  intros Hstep cs w Hwf Hacc Hw Hcs. revert w Hwf Hacc Hw.
  induction Hcs as [|c cs Hc _ IH]; intros w Hwf Hacc Hw.
  - by rewrite take_nil, typed_nil.
  - destruct Hwf as [Hlen Hpos]. unfold EMBSH_LINE_BUF_SIZE in *.
    cbn [fold_left].
    rewrite Hstep by (done || lia).
    destruct (Z.ltb_spec (line_pos (sess w)) 255) as [Hlt|Hge].
    + rewrite IH.
      * rewrite typed_app by lia.
        replace (Z.to_nat (255 - line_pos (sess w)))
          with (S (Z.to_nat (255 - line_pos (sess (typed [c] w)))))
          by (unfold typed; sess_simpl; simpl; lia).
        done.
      * unfold line_wf, typed, EMBSH_LINE_BUF_SIZE; sess_simpl.
        split; [by rewrite length_store|simpl length; lia].
      * by unfold typed; sess_simpl.
      * by unfold typed; sess_simpl.
    + rewrite IH by done.
      by replace (Z.to_nat (255 - line_pos (sess w))) with 0%nat by lia.
Qed.

(** X9.  Printable bytes typed between keys go to the end of the line
    and are echoed one by one, as long as the line has fewer than 255 of
    them; the bytes typed beyond that are dropped without an echo.
    Nothing else of the session changes. *)
Theorem feed_printable (reg : CommandRegistry) (prompt : list Z) (w : World) (cs : list Z) :
  line_wf (sess w) -> accepting (sess w) -> write_fn (sess w) <> 0 ->
  Forall printable cs ->
  feed reg prompt w cs = typed (take (Z.to_nat (255 - line_pos (sess w))) cs) w.
Proof.
  apply (fold_printable (fun w b => (editor.ProcessByte reg prompt w b).2)).
  intros w0 c Hacc Hw Hc Hpos. by rewrite ProcessByte_printable.
Qed.

Lemma feed_printable_witness :
  feed Instance0 prompt0 World0 (lit "ls -l") = typed (lit "ls -l") World0.
Proof.
  apply (feed_printable Instance0 prompt0 World0 (lit "ls -l")).
  - split; [reflexivity|by vm_compute].
  - split; [reflexivity|discriminate].
  - discriminate.
  - apply (bool_decide_unpack _). by vm_compute.
Defined.
Lemma FilterIac_line_end (s : Session) (byte : Z) :
  let ch := (editor.FilterIac s byte).1 in
  ch = CR \/ ch = LF -> ch = byte.
Proof.
  unfold editor.FilterIac, CR, LF. repeat case_match; cbn [fst]; lia.
Qed.

(** X10.  [ProcessByte] reports a line only for CR or LF on a line that
    is not empty, and then the buffer holds that line NUL-terminated at
    [line_pos], with history browsing ended.  Between keys, CR or LF on a
    line that is not empty always reports it. *)
Theorem ProcessByte_ready (reg : CommandRegistry) (prompt : list Z) (w : World) (byte : Z) :
  let r := editor.ProcessByte reg prompt w byte in
  (r.1 = true ->
   (byte = CR \/ byte = LF) /\ 0 < line_pos (sess w) /\
   line_pos (sess r.2) = line_pos (sess w) /\
   line_buf (sess r.2) = set (line_buf (sess w)) (line_pos (sess w)) 0 /\
   hist_browsing (sess r.2) = false) /\
  (accepting (sess w) -> byte = CR \/ byte = LF -> 0 < line_pos (sess w) -> r.1 = true).
Proof.
  cbv zeta. split.
  - destruct (editor.ProcessByte reg prompt w byte) as [ready w'] eqn:HP.
    cbn [fst snd]. intros ->. unfold editor.ProcessByte in HP.
    destruct (if telnet_mode (sess w) then editor.FilterIac (sess w) byte else (byte, sess w))
      as [ch s1] eqn:Hf.
    assert (Hch : ch = CR \/ ch = LF -> ch = byte).
    { destruct (telnet_mode (sess w)); [|by inversion Hf].
      pose proof (FilterIac_line_end (sess w) byte) as Hle. cbv zeta in Hle.
      by rewrite Hf in Hle. }
    assert (Hs1 : line_pos s1 = line_pos (sess w) /\ line_buf s1 = line_buf (sess w)).
    { destruct (telnet_mode (sess w)); [|by inversion Hf].
      pose proof (FilterIac_line (sess w) byte) as Hl. cbv zeta in Hl. rewrite Hf in Hl.
      cbn [fst snd] in Hl. tauto. }
    revert HP. sess_simpl.
    repeat case_match; intros HP; try discriminate HP.
    all: inversion HP; subst w'; clear HP.
    all: destruct Hs1 as [Hp Hb].
    all: repeat (rewrite ?sess_eat_line_pair in *; sess_norm).
    all: match goal with
         | |- context [editor.PushHistory ?s] =>
             destruct (PushHistory_frame s) as (P1 & P2 & P3 & _)
         end.
    all: rewrite P1, P2, P3; sess_simpl; rewrite Hp, Hb.
    all: assert (Hend : ch = CR \/ ch = LF) by
           (destruct (Z.eqb_spec ch CR), (Z.eqb_spec ch LF); auto; discriminate).
    all: rewrite <- (Hch Hend).
    all: rewrite ?sess_eat_line_pair, ?sess_SessionWrite in H8; sess_simpl.
    all: rewrite Hp in H8; apply Z.gtb_lt in H8.
    all: split_and!; try done; lia.
  - intros [Hesc Hiac] Hbyte Hpos. unfold editor.ProcessByte.
    rewrite pass_filter by (done || unfold CR, LF in *; lia). rewrite with_sess_same, Hesc.
    replace (telnet_mode (sess w) && (byte =? 0)) with false
      by (destruct (Z.eqb_spec byte 0);
            [unfold CR, LF in *; lia|by rewrite andb_false_r]).
    do 6 (match goal with
          | |- context [Z.eqb byte ?b] =>
              destruct (Z.eqb_spec byte b) as [?|_];
                [exfalso; unfold TAB, CR, LF in *; lia|]
          end).
    cbn [orb].
    replace ((byte =? CR) || (byte =? LF)) with true
      by (destruct Hbyte as [-> | ->]; by vm_compute).
    repeat (rewrite ?sess_eat_line_pair in *; sess_norm).
    destruct (telnet_mode (sess w) && (byte =? CR));
      repeat (rewrite ?sess_eat_line_pair in *; sess_norm);
      by destruct (Z.gtb_spec (line_pos (sess w)) 0); [|lia].
Qed.

Lemma ProcessByte_ready_witness :
  (editor.ProcessByte Instance0 prompt0 (typed (lit "ls") World0) CR).1 = true.
Proof.
  apply (ProcessByte_ready Instance0 prompt0 (typed (lit "ls") World0) CR).
  - split; [reflexivity|discriminate].
  - by left.
  - by vm_compute.
Defined.
Lemma feed_app (reg : CommandRegistry) (prompt : list Z) (w : World) (a b : list Z) :
  feed reg prompt w (a ++ b) = feed reg prompt (feed reg prompt w a) b.
Proof. apply fold_left_app. Qed.

Lemma ProcessByte_in_sub (reg : CommandRegistry) (prompt : list Z) (w : World) (body : list Z) :
  telnet_mode (sess w) = true -> iac_state (sess w) = IacSub ->
  Forall (fun b => b <> 0xFF) body ->
  feed reg prompt w body = w.
Proof.
  intros Ht Hs Hbody. induction Hbody as [|b body Hb _ IH]; [done|].
  unfold feed in *. cbn [fold_left]. rewrite <- IH at 2. f_equal.
  unfold editor.ProcessByte, editor.FilterIac. rewrite Ht, Hs.
  destruct (Z.eqb_spec b 255); [done|]. sess_simpl. rewrite Ht. cbn.
  apply with_sess_same.
Qed.

(** X11.  On a telnet session outside an IAC sequence, a three-byte
    option negotiation (IAC, then WILL, WONT, DO or DONT, then any option
    byte) and a whole subnegotiation (IAC SB, bytes other than IAC, IAC SE)
    are swallowed by the editor: the line, the output and every other part
    of the session are as before. *)
Theorem telnet_commands_swallowed (reg : CommandRegistry) (prompt : list Z) (w : World) :
  telnet_mode (sess w) = true -> iac_state (sess w) = IacNormal ->
  (forall verb opt, 0xFB <= verb <= 0xFE -> feed reg prompt w [0xFF; verb; opt] = w) /\
  (forall body, Forall (fun b => b <> 0xFF) body ->
     feed reg prompt w ([0xFF; 0xFA] ++ body ++ [0xFF; 0xF0]) = w).
Proof.
  intros Ht Hn. split.
  - intros verb opt Hverb. unfold feed. cbn [fold_left].
    unfold editor.ProcessByte at 3. unfold editor.FilterIac. rewrite Ht, Hn.
    cbn. rewrite Ht. cbn.
    unfold editor.ProcessByte at 2. unfold editor.FilterIac. sess_simpl. rewrite Ht. cbn.
    destruct (Z.geb_spec verb 251); [|lia]. destruct (Z.leb_spec verb 254); [|lia].
    cbn. rewrite Ht. cbn.
    unfold editor.ProcessByte, editor.FilterIac. sess_simpl. rewrite Ht. cbn. rewrite Ht. cbn.
    open_world w. cbn in *. by subst.
  - intros body Hbody. rewrite !feed_app.
    assert (H1 : feed reg prompt w [255; 250] = on_sess (with_iac_state IacSub) w).
    { unfold feed. cbn [fold_left].
      unfold editor.ProcessByte at 2. unfold editor.FilterIac. rewrite Ht, Hn.
      cbn. rewrite Ht. cbn.
      unfold editor.ProcessByte, editor.FilterIac. sess_simpl. rewrite Ht. cbn.
      rewrite Ht. cbn. open_world w. by cbn in *. }
    rewrite H1.
    rewrite (ProcessByte_in_sub reg prompt (on_sess (with_iac_state IacSub) w) body);
      [|exact Ht|reflexivity|exact Hbody].
    unfold feed. cbn [fold_left].
    unfold editor.ProcessByte at 2. unfold editor.FilterIac. sess_simpl. rewrite Ht.
    cbn. rewrite Ht. cbn.
    unfold editor.ProcessByte, editor.FilterIac. sess_simpl. rewrite Ht. cbn.
    rewrite Ht. cbn. open_world w. cbn in *. by subst.
Qed.

Lemma telnet_commands_swallowed_witness :
  let w := typed (lit "ls") (on_sess (with_telnet_mode true) World0) in
  feed Instance0 prompt0 w [0xFF; 0xFD; 0x18] = w.
Proof.
  intros w.
  by apply (telnet_commands_swallowed Instance0 prompt0 w eq_refl eq_refl).
Defined.

(** ** History recall *)

Lemma tx_erase_line (w : World) :
  write_fn (sess w) <> 0 ->
  tx (editor.erase_line w) = tx w ++ replicate (Z.to_nat (line_pos (sess w))) ERASE.
Proof.
  intros Hw. unfold editor.erase_line.
  induction (Z.to_nat (line_pos (sess w))) as [|n IH]; simpl.
  - by rewrite app_nil_r.
  - rewrite tx_SessionWrite; [|by rewrite sess_iter_SessionWrite|done].
    rewrite IH, <- app_assoc. f_equal.
    change (ERASE :: replicate n ERASE) with (replicate (S n) ERASE).
    by rewrite replicate_S_end.
Qed.

Lemma ReplaceLine_shows (new_line : list Z) (w : World) :
  length (line_buf (sess w)) = Z.to_nat EMBSH_LINE_BUF_SIZE ->
  strlen new_line < EMBSH_LINE_BUF_SIZE ->
  write_fn (sess w) <> 0 ->
  let w' := editor.ReplaceLine new_line w in
  cstr (line_buf (sess w')) = cstr new_line /\
  line_pos (sess w') = strlen new_line /\
  tx w' = tx w ++ replicate (Z.to_nat (line_pos (sess w))) ERASE
               ++ (if decide (cstr new_line = []) then [] else [cstr new_line]) /\
  history (sess w') = history (sess w) /\ hist_count (sess w') = hist_count (sess w) /\
  hist_write (sess w') = hist_write (sess w) /\ hist_nav (sess w') = hist_nav (sess w) /\
  hist_browsing (sess w') = hist_browsing (sess w).
Proof.
  intros Hlen Hfit Hw. cbv zeta. unfold editor.ReplaceLine. cbv zeta.
  pose proof (strlen_bounds new_line) as Hb. unfold EMBSH_LINE_BUF_SIZE in *.
  rewrite (u32_small (strlen new_line)) by lia.
  destruct (Z.geb_spec (strlen new_line) 256); [lia|].
  sess_norm.
  split_and!; try done.
  - apply cstr_memcpy_set; [done|lia].
  - unfold SessionWriteN. sess_norm.
    destruct (Z.eqb_spec (write_fn (sess w)) 0); [done|]. cbn [negb andb].
    unfold strlen in *.
    destruct (Z.gtb_spec (Z.of_nat (length (cstr new_line))) 0) as [Hpos|Hzero].
    + cbn [tx with_tx with_sess on_sess]. rewrite tx_erase_line by done.
      rewrite <- app_assoc. do 2 f_equal.
      destruct (decide (cstr new_line = [])) as [He|_]; [rewrite He in Hpos; simpl in Hpos; lia|].
      f_equal. unfold slice, set. rewrite drop_0, take_insert_ge by lia.
      rewrite memcpy_prefix by lia. rewrite take_app_le by (rewrite length_take; lia).
      rewrite take_take, Nat.min_id. symmetry. rewrite Nat2Z.id. apply cstr_prefix.
    + cbn [tx with_tx with_sess on_sess]. rewrite tx_erase_line by done.
      destruct (decide (cstr new_line = [])) as [_|Hne]; [by rewrite app_nil_r|].
      destruct (cstr new_line); [done|simpl in Hzero; lia].
Qed.

Lemma HistoryUp_last (w : World) :
  hist_ok (sess w) -> line_wf (sess w) -> hist_browsing (sess w) = false ->
  0 < hist_count (sess w) -> write_fn (sess w) <> 0 ->
  let last := cstr (row (history (sess w)) (last_slot (sess w))) in
  last <> [] -> Z.of_nat (length last) < EMBSH_LINE_BUF_SIZE ->
  let w' := editor.HistoryUp w in
  cstr (line_buf (sess w')) = last /\
  line_pos (sess w') = Z.of_nat (length last) /\
  tx w' = tx w ++ replicate (Z.to_nat (line_pos (sess w))) ERASE ++ [last] /\
  hist_browsing (sess w') = true /\
  hist_nav (sess w') = last_slot (sess w) /\
  hist_write (sess w') = hist_write (sess w) /\
  length (line_buf (sess w')) = Z.to_nat EMBSH_LINE_BUF_SIZE.
Proof.
  intros (Hh1 & Hh2 & Hh3 & Hh4) [Hl1 Hl2] Hbr Hcount Hw last Hne Hfit w'.
  subst w' last. unfold editor.HistoryUp, last_slot in *.
  unfold EMBSH_HISTORY_SIZE, EMBSH_LINE_BUF_SIZE in *.
  destruct (Z.eqb_spec (hist_count (sess w)) 0); [lia|].
  rewrite Hbr. cbn [negb]. sess_norm.
  set (prev := u32 (u32 (hist_write (sess w) + 16) - 1) mod 16) in *.
  assert (Hprev : prev <> hist_write (sess w) /\
                  u32 (u32 (hist_write (sess w) + 16) - prev) mod 16 = 1).
  { subst prev. clear -Hh3. split; modarith. }
  destruct Hprev as [Hp1 Hp2]. destruct (Z.eqb_spec prev (hist_write (sess w))); [done|].
  rewrite Hp2. destruct (Z.gtb_spec 1 (hist_count (sess w))); [lia|].
  match goal with
  | |- context [editor.ReplaceLine ?r ?w0] =>
      destruct (ReplaceLine_shows r w0) as (R1 & R2 & R3 & R4 & R5 & R6 & R7 & R8);
        [by sess_norm|by unfold strlen, EMBSH_LINE_BUF_SIZE|by sess_norm|];
      pose proof (proj1 (ReplaceLine_line r w0 ltac:(by sess_norm))) as [R9 _]
  end.
  revert R1 R2 R3 R4 R5 R6 R7 R8 R9. sess_norm. intros R1 R2 R3 R4 R5 R6 R7 R8 R9.
  rewrite R1, R2, R3, R6, R7, R8.
  destruct (decide _) as [He|_]; [done|].
  by split_and!.
Qed.

Lemma PushHistory_hist_ok (s : Session) : hist_ok s -> hist_ok (editor.PushHistory s).
Proof.
  intros (H1 & H2 & H3 & H4). unfold editor.PushHistory.
  destruct (line_pos s =? 0); [done|].
  destruct (_ && _); [done|]. cbv zeta.
  assert (Hrow : length (row (history s) (hist_write s)) = Z.to_nat EMBSH_LINE_BUF_SIZE).
  { by apply row_length. }
  unfold hist_ok, EMBSH_HISTORY_SIZE in *.
  sess_simpl.
  destruct (Z.ltb_spec (hist_count s) 16) as [Hlt|Hge];
    sess_simpl; (split_and!;
      [by rewrite length_insert
      |apply Forall_insert; [done|by rewrite length_set, length_memcpy]
      |modarith|modarith|modarith|modarith]).
Qed.

Lemma PushHistory_skips (s : Session) :
  hist_ok s -> ~ fresh_line s ->
  (0 < hist_count s) /\
  (cstr (row (history s) (last_slot s)) = cstr (line_buf s)) /\
  editor.PushHistory s = s.
Proof.
  intros (_ & _ & _ & Hc) Hold. unfold fresh_line in Hold.
  destruct (decide (cstr (row (history s) (last_slot s)) = cstr (line_buf s))) as [He|Hne];
    [|tauto].
  assert (Hcount : 0 < hist_count s) by lia.
  split_and!; [done..|].
  unfold editor.PushHistory. destruct (line_pos s =? 0); [done|].
  fold (last_slot s). unfold streq. rewrite bool_decide_eq_true_2 by done.
  by destruct (Z.gtb_spec (hist_count s) 0); [|lia].
Qed.

(** X12.  A line that Enter commits comes back with the next Up arrow:
    after [PushHistory] on a non-empty line and the session loop's reset
    of the line, [HistoryUp] puts that line in the buffer with [line_pos]
    at its end and writes it out, whether the line was stored or was
    skipped as a repetition of the entry before it. *)
Theorem HistoryUp_recalls_entered (w : World) :
  hist_ok (sess w) -> line_ok (sess w) ->
  length (line_buf (sess w)) = Z.to_nat EMBSH_LINE_BUF_SIZE ->
  hist_browsing (sess w) = false -> write_fn (sess w) <> 0 ->
  let entered_line := cstr (line_buf (sess w)) in
  let w1 := on_sess editor.PushHistory w in
  let w2 := on_sess (fun s => with_line_buf (set (line_buf s) 0 0) s)
                    (on_sess (with_line_pos 0) w1) in
  let w3 := editor.HistoryUp w2 in
  cstr (line_buf (sess w3)) = entered_line /\
  line_pos (sess w3) = line_pos (sess w) /\
  tx w3 = tx w ++ [entered_line].
Proof.
  intros Hh [Hpos Hstr] Hlen Hbr Hw. cbv zeta.
  unfold EMBSH_LINE_BUF_SIZE in *. unfold strlen in Hstr.
  assert (Hne : cstr (line_buf (sess w)) <> []).
  { intros He. rewrite He in Hstr. simpl in Hstr. lia. }
  set (s1 := editor.PushHistory (sess w)).
  assert (Hs1 : hist_ok s1 /\ 0 < hist_count s1 /\
                cstr (row (history s1) (last_slot s1)) = cstr (line_buf (sess w)) /\
                line_buf s1 = line_buf (sess w) /\
                hist_browsing s1 = false /\ write_fn s1 = write_fn (sess w)).
  { destruct (PushHistory_frame (sess w)) as (F1 & F2 & F3 & F4 & F5). fold s1 in F1, F2, F3, F5.
    destruct (decide (fresh_line (sess w))) as [Hfresh|Hold].
    - destruct (PushHistory_stores (sess w) Hh) as (P1 & P2 & P3 & P4 & P5 & P6);
        [split; [unfold EMBSH_LINE_BUF_SIZE; lia|unfold strlen; lia]|done|].
      fold s1 in P1, P2, P3, P4, P5, P6.
      destruct Hh as (Hh1 & Hh2 & Hh3 & Hh4). unfold EMBSH_HISTORY_SIZE in *.
      split_and!; try congruence; try lia.
      by apply PushHistory_hist_ok.
    - destruct (PushHistory_skips (sess w) Hh Hold) as (S1 & S2 & S3).
      subst s1. rewrite S3. by split_and!. }
  destruct Hs1 as (Hok & Hcount & Hrow & Hbuf & Hbr1 & Hw1).
  match goal with
  | |- context [editor.HistoryUp ?w0] =>
      destruct (HistoryUp_last w0) as (U1 & U2 & U3 & _)
  end.
  all: sess_simpl; fold s1; unfold last_slot in *; sess_simpl; try done.
  - split; sess_simpl; [by rewrite length_set, Hbuf|unfold EMBSH_LINE_BUF_SIZE; lia].
  - by rewrite Hw1.
  - by rewrite Hrow.
  - rewrite Hrow. unfold EMBSH_LINE_BUF_SIZE. lia.
  - revert U1 U2 U3. sess_simpl. fold s1. rewrite Hrow. intros -> -> ->.
    split_and!; [done|lia|done].
Qed.

Lemma HistoryUp_recalls_entered_witness :
  let w := typed (lit "ls") World0 in
  let w3 := editor.HistoryUp
              (on_sess (fun s => with_line_buf (set (line_buf s) 0 0) s)
                 (on_sess (with_line_pos 0) (on_sess editor.PushHistory w))) in
  tx w3 = tx w ++ [lit "ls"].
Proof.
  intros w w3.
  apply (HistoryUp_recalls_entered w).
  - by apply Session0_hist_ok.
  - split; [by vm_compute|reflexivity].
  - reflexivity.
  - reflexivity.
  - discriminate.
Defined.

(** X13.  Up and then Down leaves an empty line: from a session that is
    not browsing, with a newest history entry, [HistoryDown] after
    [HistoryUp] erases the recalled entry from the terminal, empties the
    line buffer and ends the browsing.  The line that was being typed
    before the Up arrow is not brought back. *)
Theorem HistoryUp_then_HistoryDown (w : World) :
  hist_ok (sess w) -> line_wf (sess w) -> hist_browsing (sess w) = false ->
  0 < hist_count (sess w) -> write_fn (sess w) <> 0 ->
  let last := cstr (row (history (sess w)) (last_slot (sess w))) in
  last <> [] -> Z.of_nat (length last) < EMBSH_LINE_BUF_SIZE ->
  let w1 := editor.HistoryUp w in
  let w2 := editor.HistoryDown w1 in
  line_pos (sess w2) = 0 /\ cstr (line_buf (sess w2)) = [] /\
  hist_browsing (sess w2) = false /\
  tx w2 = tx w1 ++ replicate (length last) ERASE.
Proof.
  intros Hh Hl Hbr Hcount Hw last Hne Hfit w1 w2.
  destruct (HistoryUp_last w Hh Hl Hbr Hcount Hw Hne Hfit)
    as (U1 & U2 & U3 & U4 & U5 & U6 & U7).
  fold last w1 in U1, U2, U3, U4, U5, U6, U7.
  assert (Hw1 : write_fn (sess w1) <> 0).
  { subst w1. unfold editor.HistoryUp. repeat case_match; sess_norm; try done.
    all: unfold editor.ReplaceLine; by sess_norm. }
  subst w2. unfold editor.HistoryDown. rewrite U4. cbn [negb]. rewrite U5, U6.
  destruct Hh as (_ & _ & Hrange & _). unfold last_slot, EMBSH_HISTORY_SIZE in *.
  assert (Hnext : u32 (u32 (u32 (hist_write (sess w) + 16) - 1) mod 16 + 1) mod 16
                  = hist_write (sess w)) by (clear -Hrange; modarith).
  rewrite Hnext, Z.eqb_refl. sess_norm. cbn [tx on_sess with_sess].
  rewrite tx_erase_line by done. sess_norm. rewrite U2, Nat2Z.id.
  split_and!; try done.
  destruct (line_buf (sess w1)) as [|b bs] eqn:Hbuf; [by simpl in U7|done].
Qed.

Lemma HistoryUp_then_HistoryDown_witness :
  let w := on_sess (fun s => with_line_buf (set (line_buf s) 0 0) s)
             (on_sess (with_line_pos 0)
                (on_sess editor.PushHistory (typed (lit "ls") World0))) in
  line_pos (sess (editor.HistoryDown (editor.HistoryUp w))) = 0.
Proof.
  intros w.
  apply (HistoryUp_then_HistoryDown w).
  - apply PushHistory_hist_ok. by apply Session0_hist_ok.
  - split; [reflexivity|by vm_compute].
  - reflexivity.
  - by vm_compute.
  - discriminate.
  - by vm_compute.
  - by vm_compute.
Defined.

(** ** Tab completion *)

Lemma set_after (xs rest : list Z) (v : Z) :
  rest <> [] -> set (xs ++ rest) (Z.of_nat (length xs)) v = xs ++ v :: tail rest.
Proof.
  intros Hne. unfold set. rewrite Nat2Z.id, insert_app_r_alt by lia.
  rewrite Nat.sub_diag. by destruct rest.
Qed.

(** X14.  Tab on a line that starts no registered name changes nothing
    but the NUL stored at [line_pos] and writes nothing; on a line that
    starts exactly one name, of fewer than 64 bytes, it erases the typed
    text from the terminal, puts the name and a space in the buffer with
    [line_pos] after the space, and writes them out. *)
Theorem TabComplete_spec (reg : CommandRegistry) (prompt : list Z) (w : World) :
  wf_registry reg -> c_names reg -> line_wf (sess w) -> write_fn (sess w) <> 0 ->
  let pre := line_text (sess w) in
  let w' := editor.TabComplete reg prompt w in
  (completions reg pre = [] ->
   w' = on_sess (fun s => with_line_buf (set (line_buf s) (line_pos s) 0) s) w) /\
  (forall e, completions reg pre = [e] -> Z.of_nat (length (name e)) < 64 ->
     line_text (sess w') = name e ++ [SPACE] /\
     line_pos (sess w') = Z.of_nat (length (name e)) + 1 /\
     tx w' = tx w ++ replicate (Z.to_nat (line_pos (sess w))) ERASE
                  ++ [name e ++ [SPACE]]).
Proof.
  intros Hwf Hnames [Hlen Hpos] Hw. cbv zeta. unfold line_text, EMBSH_LINE_BUF_SIZE in *.
  set (pre := cstr (set (line_buf (sess w)) (line_pos (sess w)) 0)).
  assert (Hpre : Z.of_nat (length pre) < 4294967296).
  { pose proof (length_cstr (set (line_buf (sess w)) (line_pos (sess w)) 0)) as Hle.
    rewrite length_set in Hle. subst pre. lia. }
  destruct (AutoComplete_facts reg pre (replicate 64 0) 64 Hwf Hnames)
    as (A1 & A2 & A3 & A4 & A5 & A6); [lia|reflexivity|done|].
  unfold editor.TabComplete. sess_simpl. fold pre.
  destruct (AutoComplete reg pre (replicate 64 0) 64) as [matches completion] eqn:HA.
  cbn [fst snd] in *. split.
  - intros Hnone. rewrite Hnone in A1. simpl in A1. subst matches. done.
  - intros e He Hfit. rewrite He in *. simpl in A1. subst matches.
    change (Z.of_nat 1 =? 1) with true. cbv iota.
    assert (Hc : cstr completion = name e).
    { symmetry. apply prefix_length_eq.
      - apply A6; [done|by constructor|lia].
      - apply Forall_cons in A5 as [A5 _]. by apply prefix_length in A5. }
    assert (Hnz : Forall (fun b => b <> 0) (name e)).
    { rewrite <- Hc. apply cstr_nonzero. }
    unfold strlen. rewrite Hc.
    set (n := Z.of_nat (length (name e))) in *.
    rewrite (u32_small n) by lia.
    change (u32 (EMBSH_LINE_BUF_SIZE - 2)) with 254.
    change (u32 (EMBSH_LINE_BUF_SIZE - 3)) with 253.
    destruct (Z.geb_spec n 254); [lia|].
    rewrite (u32_small (n + 1)) by lia. sess_norm.
    rewrite length_replicate in A2.
    set (lb0 := set (line_buf (sess w)) (line_pos (sess w)) 0) in *.
    assert (Hlb0 : length lb0 = 256%nat) by (subst lb0; rewrite length_set; lia).
    assert (Hbuf : exists rest,
               set (set (memcpy lb0 completion n) n SPACE) (n + 1) 0
               = (name e ++ [SPACE]) ++ 0 :: rest).
    { rewrite memcpy_prefix by lia.
      replace (take (Z.to_nat n) completion) with (name e)
        by (rewrite <- Hc at 1; rewrite (cstr_prefix completion), Hc; f_equal; lia).
      destruct (drop (Z.to_nat n) lb0) as [|x0 [|x1 rest]] eqn:Hd;
        try (apply (f_equal length) in Hd; rewrite length_drop in Hd; simpl in Hd; lia).
      exists rest. subst n. rewrite set_after by done. cbn [tail].
      replace (Z.of_nat (length (name e)) + 1) with (Z.of_nat (length (name e ++ [SPACE])))
        by (rewrite length_app; simpl; lia).
      change (name e ++ SPACE :: x1 :: rest) with (name e ++ [SPACE] ++ x1 :: rest).
      rewrite app_assoc, set_after by done. done. }
    destruct Hbuf as [rest Hbuf]. rewrite Hbuf.
    assert (Hn1 : n + 1 = Z.of_nat (length (name e ++ [SPACE])))
      by (rewrite length_app; simpl; lia).
    split_and!.
    + rewrite Hn1, set_after by done. cbn [tail]. apply cstr_app_nul.
      apply Forall_app. split; [done|]. by repeat constructor.
    + done.
    + unfold SessionWriteN. sess_norm.
      destruct (Z.eqb_spec (write_fn (sess w)) 0); [done|].
      destruct (Z.gtb_spec (n + 1) 0); [|lia]. cbn [negb andb tx with_tx on_sess with_sess].
      rewrite tx_erase_line by done. sess_norm. rewrite <- app_assoc. do 2 f_equal.
      unfold slice. rewrite drop_0, Hn1, Nat2Z.id. by rewrite take_app_length.
Qed.

Lemma TabComplete_spec_witness :
  let w := typed (lit "he") World0 in
  line_text (sess (editor.TabComplete reg_hello prompt0 w)) = lit "hello ".
Proof.
  intros w.
  assert (Hwf : wf_registry reg_hello) by (split; [reflexivity|by vm_compute]).
  assert (Hnames : c_names reg_hello).
  { unfold c_names. apply (bool_decide_unpack _). by vm_compute. }
  assert (Hline : line_wf (sess w)) by (split; [reflexivity|by vm_compute]).
  assert (Hw : write_fn (sess w) <> 0) by discriminate.
  destruct (TabComplete_spec reg_hello prompt0 w Hwf Hnames Hline Hw) as [_ Hone].
  destruct (Hone (mkCmdEntry (lit "hello") (Some (lit "Say hi")) 7 nullptr))
    as (Htext & _); [reflexivity|by vm_compute|].
  exact Htext.
Defined.
Lemma tx_listing (P : CmdEntry -> Prop) `{!forall e, Decision (P e)}
    (test : World -> CmdEntry -> bool) (es : list CmdEntry) : forall w,
  write_fn (sess w) <> 0 ->
  Forall (fun e => name e <> []) es ->
  (forall w' e, sess w' = sess w -> test w' e = bool_decide (P e)) ->
  let w' := fold_left (fun w cmd => if test w cmd
                                    then SessionWrite [SPACE; SPACE] (SessionWrite (name cmd) w)
                                    else w) es w in
  sess w' = sess w /\
  tx w' = tx w ++ concat (map (fun e => [name e; [SPACE; SPACE]]) (filter P es)).
Proof.
  induction es as [|e es IH]; intros w Hw Hne Htest; cbv zeta.
  - simpl. by rewrite app_nil_r.
  - apply Forall_cons in Hne as [Hn Hne]. cbn [fold_left].
    rewrite (Htest w e eq_refl). rewrite filter_cons.
    destruct (decide (P e)) as [Hp|Hp].
    + rewrite bool_decide_eq_true_2 by done.
      destruct (IH (SessionWrite [SPACE; SPACE] (SessionWrite (name e) w))) as [I1 I2].
      * by rewrite !sess_SessionWrite.
      * done.
      * intros w' e' Hs. apply Htest. by rewrite Hs, !sess_SessionWrite.
      * cbv zeta in I1, I2. rewrite I1, I2, !sess_SessionWrite. split; [done|].
        rewrite tx_SessionWrite; [|by rewrite sess_SessionWrite|done].
        rewrite tx_SessionWrite by done.
        cbn [map concat]. by rewrite <- !app_assoc.
    + rewrite bool_decide_eq_false_2 by done. by apply IH.
Qed.

(** X15.  Tab on a line that starts several registered names lists
    them on a new output line, each followed by two spaces, in table
    order, writes the prompt again, and replaces the line by the longest
    common prefix of those names (at most 63 bytes of it), which it writes
    after the prompt. *)
Theorem TabComplete_lists_candidates (reg : CommandRegistry) (prompt : list Z) (w : World) :
  wf_registry reg -> c_names reg -> Forall (fun e => name e <> []) (used reg) ->
  line_wf (sess w) -> write_fn (sess w) <> 0 -> prompt <> [] ->
  let pre := line_text (sess w) in
  Z.of_nat (length pre) = line_pos (sess w) ->
  let found := completions reg pre in
  (1 < length found)%nat ->
  let w' := editor.TabComplete reg prompt w in
  let line := line_text (sess w') in
  line_pos (sess w') = Z.of_nat (length line) /\
  Forall (fun e => line `prefix_of` name e) found /\
  (forall p, Forall (fun e => p `prefix_of` name e) found ->
             (length p <= 63)%nat -> p `prefix_of` line) /\
  tx w' = tx w ++ [CRLF] ++ concat (map (fun e => [name e; [SPACE; SPACE]]) found)
               ++ [CRLF; prompt] ++ (if decide (line = []) then [] else [line]).
Proof.
  intros Hwf Hnames Hne [Hlen Hpos] Hw Hprompt. cbv zeta.
  unfold line_text, EMBSH_LINE_BUF_SIZE in *.
  set (pre := cstr (set (line_buf (sess w)) (line_pos (sess w)) 0)).
  intros Hpre Hmany.
  destruct (AutoComplete_facts reg pre (replicate 64 0) 64 Hwf Hnames)
    as (A1 & A2 & A3 & A4 & A5 & A6); [lia|reflexivity|lia|].
  assert (Hcount : Z.of_nat (length (completions reg pre)) <= 64).
  { unfold completions. pose proof (length_filter (fun e => pre `prefix_of` name e) (used reg)).
    pose proof (count_used reg Hwf). destruct Hwf as [_ Hc].
    unfold EMBSH_MAX_COMMANDS in *. lia. }
  unfold editor.TabComplete. sess_simpl. fold pre.
  destruct (AutoComplete reg pre (replicate 64 0) 64) as [matches completion] eqn:HA.
  cbn [fst snd] in *. subst matches.
  destruct (Z.eqb_spec (Z.of_nat (length (completions reg pre))) 1); [lia|].
  destruct (Z.gtb_spec (Z.of_nat (length (completions reg pre))) 1); [|lia].
  rewrite length_replicate in A2.
  set (w0 := on_sess (fun s => with_line_buf (set (line_buf s) (line_pos s) 0) s) w).
  destruct (tx_listing (fun e => pre `prefix_of` name e)
              (fun w cmd => strneq (name cmd) (cstr (line_buf (sess w))) (line_pos (sess w)))
              (used reg) (SessionWrite CRLF w0)) as [L1 L2].
  { by rewrite sess_SessionWrite. }
  { done. }
  { intros w1 e Hs. rewrite Hs, sess_SessionWrite. subst w0. sess_simpl. fold pre.
    rewrite <- Hpre. pose proof (strneq_prefix (name e) pre ltac:(lia)) as Hiff.
    rewrite u32_small in Hiff by lia.
    destruct (strneq (name e) pre (Z.of_nat (length pre))) eqn:Hs1.
    - symmetry. apply bool_decide_eq_true_2. by apply Hiff.
    - symmetry. apply bool_decide_eq_false_2. intros Hp. apply Hiff in Hp. congruence. }
  fold (completions reg pre) in L2.
  set (wl := fold_left _ (used reg) (SessionWrite CRLF w0)) in *.
  unfold strlen.
  set (len := Z.of_nat (length (cstr completion))) in *.
  rewrite (u32_small len) by lia.
  change (u32 (EMBSH_LINE_BUF_SIZE - 1)) with 255.
  destruct (Z.geb_spec len 255); [lia|]. sess_norm. rewrite L1. sess_norm.
  subst w0. sess_simpl.
  set (lb0 := set (line_buf (sess w)) (line_pos (sess w)) 0) in *.
  assert (Hlb0 : length lb0 = 256%nat) by (subst lb0; rewrite length_set; lia).
  assert (Hset : set (set (memcpy lb0 completion len) len 0) len 0 = set (memcpy lb0 completion len) len 0).
  { unfold set. by rewrite list_insert_insert_eq. }
  rewrite Hset.
  assert (Hline : cstr (set (memcpy lb0 completion len) len 0) = cstr completion).
  { apply cstr_memcpy_set; [done|lia]. }
  rewrite Hline. fold len.
  split_and!; [done|done| |].
  - intros p Hp Hplen. apply A6; [|done|lia].
    intros Hnil. rewrite Hnil in Hmany. simpl in Hmany. lia.
  - unfold SessionWriteN. sess_norm. rewrite L1. sess_norm.
    destruct (Z.eqb_spec (write_fn (sess w)) 0); [done|]. cbn [negb andb].
    assert (Hwl : write_fn (sess wl) <> 0) by (rewrite L1; by sess_norm).
    destruct (Z.gtb_spec len 0) as [Hpos1|Hzero].
    + cbn [tx with_tx on_sess with_sess].
      rewrite tx_SessionWrite; [|by sess_norm|done].
      rewrite tx_SessionWrite; [|done|done].
      rewrite L2. rewrite tx_SessionWrite; [|by sess_norm|done].
      cbn [tx with_tx on_sess with_sess].
      destruct (decide (cstr completion = [])) as [He|_];
        [subst len; rewrite He in Hpos1; simpl in Hpos1; lia|].
      rewrite <- !app_assoc. do 3 f_equal. cbn [app]. do 3 f_equal.
      unfold slice, set. rewrite drop_0, take_insert_ge by lia.
      rewrite memcpy_prefix by lia. rewrite take_app_le by (rewrite length_take; lia).
      rewrite take_take, Nat.min_id. subst len. rewrite Nat2Z.id. symmetry. apply cstr_prefix.
    + cbn [tx with_tx on_sess with_sess].
      rewrite tx_SessionWrite; [|by sess_norm|done].
      rewrite tx_SessionWrite; [|done|done].
      rewrite L2. rewrite tx_SessionWrite; [|by sess_norm|done].
      cbn [tx with_tx on_sess with_sess].
      destruct (decide (cstr completion = [])) as [_|Hn0].
      * rewrite <- !app_assoc. by rewrite app_nil_r.
      * subst len. destruct (cstr completion); [done|simpl in Hzero; lia].
Qed.

Lemma TabComplete_lists_candidates_witness :
  let w' := editor.TabComplete reg_two prompt0 (typed (lit "st") World0) in
  line_pos (sess w') = Z.of_nat (length (line_text (sess w'))).
Proof.
  assert (Hwf : wf_registry reg_two) by (split; [reflexivity|by vm_compute]).
  assert (Hnames : c_names reg_two).
  { unfold c_names. apply (bool_decide_unpack _). by vm_compute. }
  assert (Hne : Forall (fun e => name e <> []) (used reg_two)).
  { apply (bool_decide_unpack _). by vm_compute. }
  apply (TabComplete_lists_candidates reg_two prompt0 (typed (lit "st") World0) Hwf Hnames Hne).
  - split; [reflexivity|by vm_compute].
  - discriminate.
  - discriminate.
  - reflexivity.
  - vm_compute. lia.
Defined.

(** ** The indices of the editor *)

Lemma hist_ok_same (s s' : Session) :
  history s' = history s -> hist_count s' = hist_count s -> hist_write s' = hist_write s ->
  hist_ok s -> hist_ok s'.
Proof. unfold hist_ok. by intros -> -> ->. Qed.

Lemma FilterIac_hist (s : Session) (byte : Z) :
  let s' := (editor.FilterIac s byte).2 in
  history s' = history s /\ hist_count s' = hist_count s /\ hist_write s' = hist_write s /\
  hist_nav s' = hist_nav s /\ hist_browsing s' = hist_browsing s.
Proof. unfold editor.FilterIac. by repeat case_match. Qed.

Lemma ReplaceLine_hist (new_line : list Z) (w : World) :
  let s' := sess (editor.ReplaceLine new_line w) in
  history s' = history (sess w) /\ hist_count s' = hist_count (sess w) /\
  hist_write s' = hist_write (sess w) /\
  hist_nav s' = hist_nav (sess w) /\ hist_browsing s' = hist_browsing (sess w).
Proof. unfold editor.ReplaceLine. by sess_norm. Qed.

Lemma TabComplete_hist (reg : CommandRegistry) (prompt : list Z) (w : World) :
  let s' := sess (editor.TabComplete reg prompt w) in
  history s' = history (sess w) /\ hist_count s' = hist_count (sess w) /\
  hist_write s' = hist_write (sess w) /\
  hist_nav s' = hist_nav (sess w) /\ hist_browsing s' = hist_browsing (sess w).
Proof.
  unfold editor.TabComplete. cbv zeta.
  destruct (AutoComplete _ _ _ _) as [matches completion].
  destruct (matches =? 1); [by sess_norm|].
  destruct (matches >? 1); [|by sess_norm].
  sess_norm. rewrite sess_fold_SessionWrite.
  - by sess_norm.
  - intros w' a. destruct (strneq _ _ _); by sess_norm.
Qed.

Lemma HistoryUp_hist (w : World) :
  hist_ok (sess w) ->
  (hist_browsing (sess w) = true -> 0 <= hist_nav (sess w) < EMBSH_HISTORY_SIZE) ->
  let s' := sess (editor.HistoryUp w) in
  history s' = history (sess w) /\ hist_count s' = hist_count (sess w) /\
  hist_write s' = hist_write (sess w) /\
  (hist_browsing s' = true -> 0 <= hist_nav s' < EMBSH_HISTORY_SIZE).
Proof.
  intros (_ & _ & Hw & _) Hnav. unfold editor.HistoryUp, EMBSH_HISTORY_SIZE in *.
  destruct (hist_count (sess w) =? 0); [done|].
  destruct (hist_browsing (sess w)) eqn:Hbr; cbn [negb]; sess_norm;
    [specialize (Hnav eq_refl)|clear Hnav].
  all: repeat case_match; sess_norm.
  all: try match goal with
       | |- context [editor.ReplaceLine ?r ?w0] =>
           destruct (ReplaceLine_hist r w0) as (R1 & R2 & R3 & R4 & R5);
           rewrite R1, R2, R3, R4; sess_norm
       end.
  all: split_and!; try done; intros _.
  all: repeat match goal with
       | H : (_ =? _) = _ |- _ => clear H
       | H : (_ >? _) = _ |- _ => clear H
       end; modarith.
Qed.

Lemma HistoryDown_hist (w : World) :
  hist_ok (sess w) ->
  (hist_browsing (sess w) = true -> 0 <= hist_nav (sess w) < EMBSH_HISTORY_SIZE) ->
  let s' := sess (editor.HistoryDown w) in
  history s' = history (sess w) /\ hist_count s' = hist_count (sess w) /\
  hist_write s' = hist_write (sess w) /\
  (hist_browsing s' = true -> 0 <= hist_nav s' < EMBSH_HISTORY_SIZE).
Proof.
  intros (_ & _ & Hw & _) Hnav. unfold editor.HistoryDown, EMBSH_HISTORY_SIZE in *.
  destruct (hist_browsing (sess w)) eqn:Hbr; cbn [negb]; [|by rewrite Hbr].
  specialize (Hnav eq_refl).
  destruct (_ =? _); sess_norm; [done|].
  match goal with
  | |- context [editor.ReplaceLine ?r ?w0] =>
      destruct (ReplaceLine_hist r w0) as (R1 & R2 & R3 & R4 & R5)
  end.
  rewrite R1, R2, R3, R4; sess_norm; split_and!; try done; intros _.
  clear -Hnav. modarith.
Qed.

Lemma ProcessByte_editor_wf (reg : CommandRegistry) (prompt : list Z) (w : World) (byte : Z) :
  editor_wf (sess w) -> editor_wf (sess (editor.ProcessByte reg prompt w byte).2).
Proof.
  intros (Hl & Hh & Hnav). split; [by apply ProcessByte_line|].
  unfold editor.ProcessByte.
  destruct (if telnet_mode (sess w) then editor.FilterIac (sess w) byte else (byte, sess w))
    as [ch s1] eqn:Hf.
  assert (Hs1 : history s1 = history (sess w) /\ hist_count s1 = hist_count (sess w) /\
                hist_write s1 = hist_write (sess w) /\ hist_nav s1 = hist_nav (sess w) /\
                hist_browsing s1 = hist_browsing (sess w)).
  { destruct (telnet_mode (sess w)); [|by inversion Hf].
    pose proof (FilterIac_hist (sess w) byte) as Hl1. cbv zeta in Hl1. by rewrite Hf in Hl1. }
  destruct Hs1 as (S1 & S2 & S3 & S4 & S5).
  assert (Hh1 : hist_ok s1) by by apply (hist_ok_same (sess w)).
  assert (Hnav1 : hist_browsing s1 = true -> 0 <= hist_nav s1 < EMBSH_HISTORY_SIZE)
    by (rewrite S4, S5; exact Hnav).
  clear Hf S1 S2 S3 S4 S5 Hh Hnav Hl.
  sess_simpl.
  repeat case_match; cbn [snd]; repeat (rewrite ?sess_eat_line_pair; sess_norm);
    try (split; [done|done]); try (split; [done|discriminate]).
  - destruct (TabComplete_hist reg prompt (with_sess s1 w)) as (T1 & T2 & T3 & T4 & T5).
    split; [by apply (hist_ok_same s1)|]. by rewrite T4, T5.
  - split; [by apply PushHistory_hist_ok|].
    destruct (PushHistory_frame (with_hist_browsing false
                (with_line_buf (set (line_buf s1) (line_pos s1) 0) s1))) as (_ & _ & F3 & _).
    by rewrite F3.
  - split; [by apply PushHistory_hist_ok|].
    destruct (PushHistory_frame (with_hist_browsing false
                (with_line_buf (set (line_buf s1) (line_pos s1) 0) s1))) as (_ & _ & F3 & _).
    by rewrite F3.
  - destruct (HistoryUp_hist (on_sess (with_esc_state EscNone) (with_sess s1 w)))
      as (U1 & U2 & U3 & U4); [done|done|].
    split; [by apply (hist_ok_same s1)|done].
  - destruct (HistoryDown_hist (on_sess (with_esc_state EscNone) (with_sess s1 w)))
      as (U1 & U2 & U3 & U4); [done|done|].
    split; [by apply (hist_ok_same s1)|done].
Qed.

(** X16.  Whatever bytes are fed to the editor, its indices stay inside
    their arrays: the line buffer keeps its 256 bytes with [line_pos]
    below 256, the history ring keeps its 16 rows of 256 bytes with
    [hist_write] below 16 and [hist_count] at most 16, and [hist_nav] is
    below 16 whenever the history is browsed. *)
Theorem feed_editor_wf (reg : CommandRegistry) (prompt : list Z) (bs : list Z) (w : World) :
  editor_wf (sess w) -> editor_wf (sess (feed reg prompt w bs)).
Proof.
  revert w. induction bs as [|b bs IH]; intros w Hwf; [done|].
  unfold feed in *. cbn [fold_left]. apply IH. by apply ProcessByte_editor_wf.
Qed.

Lemma feed_editor_wf_witness :
  editor_wf (sess (feed Instance0 prompt0 World0 (lit "ls" ++ [CR; 0x1B; 91; 65]))).
Proof.
  apply (feed_editor_wf Instance0 prompt0 (lit "ls" ++ [CR; 0x1B; 91; 65]) World0).
  split_and!.
  - split; [reflexivity|by vm_compute].
  - by apply Session0_hist_ok.
  - discriminate.
Defined.
Lemma SessionWrite_eq (str : list Z) (w : World) :
  write_fn (sess w) <> 0 -> str <> [] -> SessionWrite str w = with_tx (tx w ++ [str]) w.
Proof.
  intros Hw Hne. unfold SessionWrite.
  destruct (Z.eqb_spec (write_fn (sess w)) 0); [done|].
  destruct str; [done|]. by destruct (Z.gtb_spec (Z.of_nat (length (z :: str))) 0);
    [|simpl in *; lia].
Qed.

(** ** From the keys to the command *)

Lemma spaced_joined (ws : list (list Z)) : spaced ws = joined ws ++ [0].
Proof.
  induction ws as [|w [|w' ws] IH]; [done|done|].
  change (spaced (w :: w' :: ws)) with (w ++ SPACE :: spaced (w' :: ws)).
  change (joined (w :: w' :: ws)) with (w ++ SPACE :: joined (w' :: ws)).
  by rewrite IH, <- app_assoc.
Qed.

Lemma ProcessByte_enter (reg : CommandRegistry) (prompt : list Z) (w : World) (byte : Z) :
  accepting (sess w) -> telnet_mode (sess w) = false -> byte = CR \/ byte = LF ->
  0 < line_pos (sess w) ->
  editor.ProcessByte reg prompt w byte = (true, entered_line w).
Proof.
  intros [Hesc _] Ht Hbyte Hpos. unfold editor.ProcessByte, entered_line.
  rewrite Ht. sess_simpl. rewrite with_sess_same, Ht, Hesc. cbn [andb].
  do 6 (match goal with
        | |- context [Z.eqb byte ?b] =>
            destruct (Z.eqb_spec byte b) as [?|_];
              [exfalso; unfold TAB, CR, LF in *; lia|]
        end).
  cbn [orb].
  replace ((byte =? CR) || (byte =? LF)) with true
    by (destruct Hbyte as [-> | ->]; by vm_compute).
  sess_norm. rewrite Ht. cbn [andb]. sess_norm.
  by destruct (Z.gtb_spec (line_pos (sess w)) 0); [|lia].
Qed.

Lemma session_byte_enter (E : Externs) (reg : CommandRegistry) (prompt : list Z)
    (w : World) (w1 : list Z) (args : list (list Z)) (enter : Z) :
  line_wf (sess w) -> line_pos (sess w) = 0 -> accepting (sess w) ->
  telnet_mode (sess w) = false ->
  Forall plain_word (w1 :: args) ->
  Z.of_nat (length (w1 :: args)) <= EMBSH_MAX_ARGS ->
  (length (joined (w1 :: args)) <= 255)%nat ->
  enter = CR \/ enter = LF ->
  session_byte E reg prompt (typed (joined (w1 :: args)) w) enter
  = next_prompt prompt
      (dispatch E reg w1 args (entered_line (typed (joined (w1 :: args)) w))).
Proof.
  intros Hwf Hpos0 Hacc Ht Hws Hmax Hlen Henter.
  pose proof Hwf as [Hbuf _].
  set (line := joined (w1 :: args)) in *.
  assert (Hne : line <> []).
  { subst line. apply Forall_cons in Hws as [[Hw1 _] _].
    destruct args; simpl; [done|]. by destruct w1. }
  unfold session_byte.
  rewrite ProcessByte_enter; try done.
  2:{ unfold typed; sess_simpl. rewrite Hpos0. destruct line; [done|]. simpl length. lia. }
  rewrite (ExecuteLine_words E reg _ w1 args Hws Hmax); [done|].
  unfold holds_words, entered_line. sess_norm.
  match goal with
  | |- context [editor.PushHistory ?s] =>
      destruct (PushHistory_frame s) as (P1 & P2 & _)
  end.
  sess_norm. rewrite P1, P2. unfold typed. sess_norm. rewrite Hpos0.
  fold line. rewrite spaced_joined. fold line. rewrite length_app. cbn [length].
  change (Z.to_nat 0) with 0%nat. cbn [Z.add].
  unfold EMBSH_LINE_BUF_SIZE in *.
  split_and!.
  - by rewrite length_set, length_store.
  - lia.
  - rewrite store_splice by (simpl; lia). rewrite take_0. cbn [app Nat.add].
    rewrite set_after.
    + change (line ++ 0 :: ?t) with (line ++ [0] ++ t).
      by rewrite app_assoc, take_app_length' by (rewrite length_app; simpl; lia).
    + intros Hd. apply (f_equal length) in Hd. rewrite length_drop in Hd. simpl in Hd. lia.
Qed.

Lemma main_loop_typing (E : Externs) (reg : CommandRegistry) (prompt : list Z) (cs : list Z) :
  forall (n : nat) (w : World) (rest : list Z),
  line_wf (sess w) -> accepting (sess w) -> write_fn (sess w) <> 0 ->
  active (sess w) = true -> Forall printable cs ->
  line_pos (sess w) + Z.of_nat (length cs) <= 255 ->
  rx w = cs ++ rest ->
  main_loop (length cs + n) E reg prompt w
  = main_loop n E reg prompt (typed cs (with_rx rest w)).
Proof.
  induction cs as [|c cs IH]; intros n w rest Hwf Hacc Hw Hact Hcs Hfit Hrx.
  - simpl in *. rewrite typed_nil, <- Hrx. f_equal. by destruct w.
  - apply Forall_cons in Hcs as [Hc Hcs]. destruct Hwf as [Hlen Hpos].
    unfold EMBSH_LINE_BUF_SIZE in *. simpl in Hfit, Hrx.
    cbn [length Nat.add main_loop]. rewrite Hact, Hrx.
    unfold session_byte at 1. rewrite ProcessByte_printable by (done || (sess_simpl; lia)).
    sess_simpl. destruct (Z.ltb_spec (line_pos (sess w)) 255); [|lia]. cbn [fst snd].
    rewrite (IH n _ rest).
    + f_equal. unfold typed. clear -Hpos. open_world w.
      cbn [map length store app]. rewrite <- app_assoc. cbn [app].
      replace (Z.to_nat (p0 + Z.of_nat 1)) with (S (Z.to_nat p0)) by lia.
      replace (p0 + Z.of_nat 1 + Z.of_nat (length cs))
        with (p0 + Z.of_nat (S (length cs))) by lia.
      done.
    + unfold line_wf, typed, EMBSH_LINE_BUF_SIZE; sess_simpl.
      split; [by rewrite length_store|simpl length; lia].
    + by unfold typed; sess_simpl.
    + by unfold typed; sess_simpl.
    + by unfold typed; sess_simpl.
    + done.
    + unfold typed; sess_simpl. simpl length. lia.
    + by unfold typed; sess_simpl.
Qed.

Lemma main_loop_typed_line (n : nat) (E : Externs) (reg : CommandRegistry) (prompt : list Z)
    (w : World) (w1 : list Z) (args : list (list Z)) (enter : Z) (rest : list Z) :
  line_wf (sess w) -> line_pos (sess w) = 0 -> accepting (sess w) ->
  telnet_mode (sess w) = false -> write_fn (sess w) <> 0 -> active (sess w) = true ->
  Forall plain_word (w1 :: args) -> Forall printable (joined (w1 :: args)) ->
  Z.of_nat (length (w1 :: args)) <= EMBSH_MAX_ARGS ->
  (length (joined (w1 :: args)) <= 255)%nat ->
  enter = CR \/ enter = LF ->
  rx w = joined (w1 :: args) ++ enter :: rest ->
  main_loop (S (length (joined (w1 :: args))) + n) E reg prompt w
  = main_loop n E reg prompt
      (next_prompt prompt
         (dispatch E reg w1 args
            (entered_line (typed (joined (w1 :: args)) (with_rx rest w))))).
Proof.
  intros Hwf Hpos0 Hacc Ht Hw Hact Hws Hpr Hmax Hlen Henter Hrx.
  replace (S (length (joined (w1 :: args))) + n)%nat
    with (length (joined (w1 :: args)) + S n)%nat by lia.
  rewrite (main_loop_typing E reg prompt _ (S n) w (enter :: rest)); try done; [|lia].
  cbn [main_loop]. unfold typed at 1 2. sess_simpl. rewrite Hact.
  f_equal.
  rewrite <- (session_byte_enter E reg prompt (with_rx rest w) w1 args enter); try assumption.
  reflexivity.
Qed.

(** X17.  From the keys to the command.  On an active console or UART
    session with an empty line, when the input holds at most 32 plain
    words of printable bytes with single spaces between them, 255 bytes
    at most, and then CR or LF, the main loop echoes the bytes, commits
    the line and dispatches on exactly these words (the built-ins [exit]
    and [quit], the registered command of that name with the words as its
    [argv], or the unknown-command message), then empties the line,
    writes the prompt if the session is still active, and goes on with
    the input after the line. *)
Theorem main_loop_runs_typed_line (n : nat) (E : Externs) (reg : CommandRegistry)
    (prompt : list Z) (w : World) (w1 : list Z) (args : list (list Z)) (enter : Z)
    (rest : list Z) :
  line_wf (sess w) -> line_pos (sess w) = 0 -> accepting (sess w) ->
  telnet_mode (sess w) = false -> write_fn (sess w) <> 0 -> active (sess w) = true ->
  Forall plain_word (w1 :: args) -> Forall printable (joined (w1 :: args)) ->
  Z.of_nat (length (w1 :: args)) <= EMBSH_MAX_ARGS ->
  (length (joined (w1 :: args)) <= 255)%nat ->
  enter = CR \/ enter = LF ->
  rx w = joined (w1 :: args) ++ enter :: rest ->
  main_loop (S (length (joined (w1 :: args))) + n) E reg prompt w
  = main_loop n E reg prompt
      (next_prompt prompt
         (dispatch E reg w1 args
            (entered_line (typed (joined (w1 :: args)) (with_rx rest w))))).
Proof. apply main_loop_typed_line. Qed.

Lemma main_loop_runs_typed_line_witness :
  let w := with_rx (lit "hello there" ++ [CR]) World0 in
  main_loop (S (length (joined [lit "hello"; lit "there"])) + 0) idle reg_hello prompt0 w
  = main_loop 0 idle reg_hello prompt0
      (next_prompt prompt0
         (dispatch idle reg_hello (lit "hello") [lit "there"]
            (entered_line (typed (joined [lit "hello"; lit "there"]) (with_rx [] w))))).
Proof.
  intros w.
  assert (Hwf : line_wf (sess w)) by (split; [reflexivity|by vm_compute]).
  assert (Hacc : accepting (sess w)) by (split; [reflexivity|discriminate]).
  assert (Hwr : write_fn (sess w) <> 0) by discriminate.
  assert (Hws : Forall plain_word [lit "hello"; lit "there"])
    by (repeat constructor; try done; vm_compute; repeat constructor; done).
  assert (Hpr : Forall printable (joined [lit "hello"; lit "there"]))
    by (apply (bool_decide_unpack _); by vm_compute).
  assert (Hmax : Z.of_nat (length [lit "hello"; lit "there"]) <= EMBSH_MAX_ARGS)
    by by vm_compute.
  assert (Hlen : (length (joined [lit "hello"; lit "there"]) <= 255)%nat)
    by (vm_compute; lia).
  exact (main_loop_runs_typed_line 0 idle reg_hello prompt0 w (lit "hello") [lit "there"]
           CR [] Hwf eq_refl Hacc eq_refl Hwr eq_refl Hws Hpr Hmax Hlen
           (or_introl eq_refl) eq_refl).
Defined.

(** X18.  [exit] ends the loop.  When the input of an active console or
    UART session with an empty line holds [exit] or [quit], possibly with
    arguments, and CR or LF, [RunLoop] writes the prompt, echoes the
    line, answers [Bye.] and returns with the session inactive: no
    command is invoked, no further prompt is written, and the input after
    the line is left unread. *)
Theorem RunLoop_exit (n : nat) (E : Externs) (reg : CommandRegistry) (prompt : list Z)
    (w : World) (w1 : list Z) (args : list (list Z)) (enter : Z) (rest : list Z) :
  line_wf (sess w) -> line_pos (sess w) = 0 -> accepting (sess w) ->
  telnet_mode (sess w) = false -> write_fn (sess w) <> 0 -> active (sess w) = true ->
  prompt <> [] ->
  Forall plain_word (w1 :: args) -> Forall printable (joined (w1 :: args)) ->
  Z.of_nat (length (w1 :: args)) <= EMBSH_MAX_ARGS ->
  (length (joined (w1 :: args)) <= 255)%nat ->
  enter = CR \/ enter = LF ->
  w1 = lit "exit" \/ w1 = lit "quit" ->
  rx w = joined (w1 :: args) ++ enter :: rest ->
  (length (joined (w1 :: args)) < n)%nat ->
  let w' := RunLoop n E reg prompt w in
  active (sess w') = false /\ rx w' = rest /\ invoked w' = invoked w /\
  tx w' = tx w ++ [prompt] ++ map (fun c => [c]) (joined (w1 :: args))
               ++ [CRLF; lit "Bye." ++ CRLF].
Proof.
  intros Hwf Hpos0 Hacc Ht Hw Hact Hprompt Hws Hpr Hmax Hlen Henter Hexit Hrx Hn.
  cbv zeta. unfold RunLoop. rewrite SessionWrite_eq by done.
  replace n with (S (length (joined (w1 :: args))) + (n - S (length (joined (w1 :: args)))))%nat
    by lia.
  rewrite (main_loop_typed_line _ E reg prompt _ w1 args enter rest); try done.
  unfold dispatch.
  assert (Hb : streq w1 (lit "exit") || streq w1 (lit "quit") = true).
  { destruct Hexit as [-> | ->]; reflexivity. }
  rewrite Hb.
  set (wl := entered_line _).
  assert (Hwl : write_fn (sess wl) <> 0).
  { subst wl. unfold entered_line. sess_norm.
    match goal with
    | |- context [editor.PushHistory ?s] =>
        destruct (PushHistory_frame s) as (_ & _ & _ & _ & P5)
    end.
    rewrite P5. unfold typed. by sess_norm. }
  rewrite SessionWrite_eq by done.
  assert (Hstop : forall k w0, active (sess w0) = false -> main_loop k E reg prompt w0 = w0).
  { intros [|k] w0 H0; [done|]. cbn [main_loop]. by rewrite H0. }
  unfold next_prompt. cbv zeta. sess_simpl. rewrite Hstop by by sess_simpl.
  sess_simpl. subst wl. unfold entered_line.
  rewrite SessionWrite_eq by (done || by unfold typed; sess_norm).
  unfold typed. sess_simpl. split_and!; try done.
  by rewrite <- !app_assoc.
Qed.

Lemma RunLoop_exit_witness :
  let w := with_rx (lit "exit" ++ [CR] ++ lit "reboot" ++ [CR]) World0 in
  rx (RunLoop 100 idle reg_hello prompt0 w) = lit "reboot" ++ [CR].
Proof.
  intros w.
  apply (RunLoop_exit 100 idle reg_hello prompt0 w (lit "exit") [] CR (lit "reboot" ++ [CR])).
  - split; [reflexivity|by vm_compute].
  - reflexivity.
  - split; [reflexivity|discriminate].
  - reflexivity.
  - discriminate.
  - reflexivity.
  - discriminate.
  - repeat constructor; try done; vm_compute; repeat constructor; done.
  - apply (bool_decide_unpack _). by vm_compute.
  - by vm_compute.
  - vm_compute. lia.
  - by left.
  - by left.
  - reflexivity.
  - vm_compute. lia.
Defined.

(** ** The login, byte by byte *)

Lemma type_char_phase (cs : list Z) : forall l,
  Auth.phase (fold_left type_char cs l) = Auth.phase l.
Proof.
  induction cs as [|c cs IH]; intros l; [done|]. cbn [fold_left]. rewrite IH.
  unfold type_char. by destruct (Auth.phase l).
Qed.

Lemma on_byte_printable_eq (username password : list Z) (l : Auth.locals) (w : World) (c : Z) :
  telnet_mode (sess w) = true -> iac_state (sess w) = IacNormal ->
  write_fn (sess w) <> 0 ->
  printable c -> 0 <= Auth.buf_pos l < 63 ->
  Auth.on_byte username password l w c
  = inr (type_char l c, with_tx (tx w ++ [echo (Auth.phase l) c]) w).
Proof.
  unfold printable. intros Ht Hn Hw Hc Hpos. unfold Auth.on_byte, type_char.
  rewrite Ht, FilterIac_normal by (done || lia). cbv zeta.
  rewrite with_sess_same, Ht.
  destruct (Z.eqb_spec c 0); [lia|].
  destruct (Z.eqb_spec c 127); [lia|]. destruct (Z.eqb_spec c 8); [lia|].
  destruct (Z.eqb_spec c CR); [unfold CR in *; lia|].
  destruct (Z.eqb_spec c LF); [unfold LF in *; lia|].
  destruct (Z.geb_spec c 32); [|lia]. destruct (Z.ltb_spec c 127); [|lia].
  destruct (Z.ltb_spec (Auth.buf_pos l) 63); [|lia]. cbn [andb orb].
  rewrite u32_small by lia.
  destruct (Auth.phase l); cbn [echo].
  - do 2 f_equal. unfold SessionWriteN.
    destruct (Z.eqb_spec (write_fn (sess w)) 0); [done|]. done.
  - do 2 f_equal. by apply SessionWrite_eq.
Qed.

Lemma loop_typing_eq (username password : list Z) (cs : list Z) :
  forall (n : nat) (l : Auth.locals) (w : World) (rest : list Z),
  listening w -> write_fn (sess w) <> 0 -> Forall printable cs ->
  0 <= Auth.buf_pos l -> Auth.buf_pos l + Z.of_nat (length cs) <= 63 ->
  rx w = cs ++ rest ->
  Auth.loop (length cs + n) username password l w
  = Auth.loop n username password (fold_left type_char cs l)
      (with_tx (tx w ++ map (echo (Auth.phase l)) cs) (with_rx rest w)).
Proof.
  induction cs as [|c cs IH]; intros n l w rest Hw Hwr Hcs Hpos Hlen Hrx.
  - simpl in *. rewrite app_nil_r, <- Hrx. f_equal. by destruct w.
  - pose proof Hw as (Ht & Hn & Hact & Hatt).
    apply Forall_cons in Hcs as [Hc Hcs]. simpl in Hlen, Hrx.
    cbn [length Nat.add]. rewrite (loop_step username password _ l w c (cs ++ rest) Hw Hrx).
    rewrite on_byte_printable_eq by (done || lia).
    rewrite (IH n (type_char l c) _ rest); try done.
    + cbn [fold_left map]. f_equal.
      replace (Auth.phase (type_char l c)) with (Auth.phase l)
        by (unfold type_char; by destruct (Auth.phase l)).
      clear. destruct w. sess_cbv. by rewrite <- app_assoc.
    + unfold type_char. destruct (Auth.phase l); simpl; lia.
    + unfold type_char. destruct (Auth.phase l); simpl; lia.
Qed.
Lemma on_byte_enter_user_eq (username password : list Z) (l : Auth.locals) (w : World)
    (rest : list Z) :
  listening w -> write_fn (sess w) <> 0 -> Auth.phase l = Auth.kUser -> rx w = LF :: rest ->
  Auth.on_byte username password l w CR
  = inr (Auth.mkLocals Auth.kPass (set (Auth.user_buf l) (Auth.buf_pos l) 0)
           (Auth.pass_buf l) 0 (Auth.tried l),
         with_tx (tx w ++ [CRLF; lit "Password: "]) (with_rx rest w)).
Proof.
  intros (Ht & Hn & _) Hw Hph Hrx. unfold Auth.on_byte.
  rewrite Ht, FilterIac_normal by done. cbv zeta.
  rewrite with_sess_same, Ht, Hph. cbn [andb orb Z.eqb Pos.eqb CR LF].
  do 2 f_equal.
  unfold editor.eat_line_pair. rewrite Hrx. cbn [Z.eqb Pos.eqb LF orb].
  rewrite !SessionWrite_eq by (done || by sess_norm).
  clear. destruct w. sess_cbv. by rewrite <- app_assoc.
Qed.

Lemma on_byte_enter_match_eq (username password : list Z) (l : Auth.locals) (w : World)
    (rest : list Z) :
  listening w -> write_fn (sess w) <> 0 -> Auth.phase l = Auth.kPass ->
  entered l = (username, password) -> rx w = LF :: rest ->
  exists l',
    Auth.on_byte username password l w CR
    = inl (l', with_tx (tx w ++ [CRLF; lit "Login successful." ++ CRLF])
                 (with_rx rest (on_sess (with_authenticated true) w))).
Proof.
  intros (Ht & Hn & _) Hw Hph Hent Hrx. unfold Auth.on_byte.
  rewrite Ht, FilterIac_normal by done. cbv zeta.
  rewrite with_sess_same, Ht, Hph. cbn [andb orb Z.eqb Pos.eqb CR LF].
  unfold entered in Hent. apply streq_pair in Hent as Hm. rewrite Hm.
  eexists. do 2 f_equal.
  unfold editor.eat_line_pair. rewrite Hrx. cbn [Z.eqb Pos.eqb LF orb].
  rewrite !SessionWrite_eq by (done || by sess_norm).
  clear. destruct w. sess_cbv. by rewrite <- app_assoc.
Qed.

(** X19.  The transcript of a login that succeeds at once.  A telnet
    client that sends the configured user name, CR LF, the configured
    password and CR LF (both printable, 63 bytes at most) is written
    [Username: ], its user name byte by byte, a line break, [Password: ],
    one star for each byte of the password, a line break and
    [Login successful.]; the session is then authenticated and the bytes
    after the second CR LF are left unread. *)
Theorem RunAuth_transcript (username password : list Z) (w : World) (rest : list Z) :
  listening w -> auth_attempts (sess w) = 0 -> write_fn (sess w) <> 0 ->
  Forall printable username -> Forall printable password ->
  (length username <= 63)%nat -> (length password <= 63)%nat ->
  rx w = username ++ CRLF ++ password ++ CRLF ++ rest ->
  RunAuth username password w
  = with_tx (tx w ++ [lit "Username: "] ++ map (fun c => [c]) username
                  ++ [CRLF; lit "Password: "]
                  ++ replicate (length password) (lit "*")
                  ++ [CRLF; lit "Login successful." ++ CRLF])
      (with_rx rest (on_sess (with_authenticated true) w)).
Proof.
  intros Hw Hatt Hwr Hu Hp Hlu Hlp Hrx. unfold RunAuth, RunAuth_full. cbv zeta.
  rewrite SessionWrite_eq by done.
  set (w0 := with_tx (tx w ++ [lit "Username: "]) w).
  assert (Hw0 : listening w0) by done.
  assert (Hrx0 : rx w0 = username ++ CR :: LF :: password ++ CR :: LF :: rest) by done.
  rewrite (loop_fuel username password _
             (length username + S (length password + S (3 + length rest)))).
  2:{ lia. }
  2:{ rewrite Hrx0, !length_app. simpl. rewrite length_app. simpl. lia. }
  rewrite (loop_typing_eq username password username _ Auth.locals0 w0
             (CR :: LF :: password ++ CR :: LF :: rest) Hw0); try done; [|simpl; lia].
  destruct (typed_user username Auth.locals0 eq_refl) as (Hph1 & Hub1 & Hpb1 & Hbp1 & Htr1);
    [simpl; lia|].
  set (l1 := fold_left type_char username Auth.locals0) in *.
  set (w1 := with_tx _ (with_rx _ w0)).
  assert (Hw1 : listening w1) by done.
  rewrite (loop_step username password _ l1 w1 CR (LF :: password ++ CR :: LF :: rest) Hw1 eq_refl).
  rewrite (on_byte_enter_user_eq username password l1 _ (password ++ CR :: LF :: rest));
    try done.
  set (l2 := Auth.mkLocals Auth.kPass _ _ 0 _).
  set (w2 := with_tx _ (with_rx (password ++ _) _)).
  assert (Hw2 : listening w2) by done.
  rewrite (loop_typing_eq username password password _ l2 w2 (CR :: LF :: rest) Hw2);
    try done; [|simpl; lia].
  destruct (typed_pass password l2 eq_refl) as (Hph3 & Hub3 & Hpb3 & Hbp3 & Htr3);
    [simpl; lia|].
  set (l3 := fold_left type_char password l2) in *.
  set (w3 := with_tx _ (with_rx _ w2)).
  assert (Hw3 : listening w3) by done.
  rewrite (loop_step username password _ l3 w3 CR (LF :: rest) Hw3 eq_refl).
  assert (Hent : entered l3 = (username, password)).
  { unfold entered. rewrite Hub3, Hpb3, Hbp3. subst l2.
    cbn [Auth.user_buf Auth.pass_buf Auth.buf_pos].
    rewrite Hub1, Hpb1, Hbp1. cbn [Auth.user_buf Auth.pass_buf Auth.buf_pos Auth.locals0].
    change (Z.to_nat 0) with O. rewrite !Z.add_0_l.
    rewrite !cstr_store_set; try done; rewrite length_replicate; lia. }
  destruct (on_byte_enter_match_eq username password l3 (with_rx (LF :: rest) w3) rest)
    as (l' & ->); try done.
  cbn [snd]. subst w3 w2 w1 w0 l2. cbn [Auth.phase Auth.locals0 echo].
  clear. destruct w. sess_cbv.
  assert (Hstars : map (echo Auth.kPass) password = replicate (length password) (lit "*")).
  { induction password as [|c cs IH]; [done|]. cbn [map length replicate]. by rewrite IH. }
  rewrite Hstars. f_equal. by rewrite <- !app_assoc.
Qed.

Lemma RunAuth_transcript_witness :
  rx (RunAuth (lit "admin") (lit "secret") login_once) = lit "help".
Proof.
  rewrite (RunAuth_transcript (lit "admin") (lit "secret") login_once (lit "help")).
  - reflexivity.
  - split_and!; try reflexivity; by vm_compute.
  - reflexivity.
  - discriminate.
  - apply (bool_decide_unpack _). by vm_compute.
  - apply (bool_decide_unpack _). by vm_compute.
  - vm_compute. lia.
  - vm_compute. lia.
  - reflexivity.
Defined.

(** ** The telnet server *)

Lemma find_from_spec (max_sessions : Z) (in_use : list bool) :
  forall (n : nat) (i : Z),
  0 <= i -> (Z.to_nat (telnet.EMBSH_MAX_SESSIONS - i) < n)%nat ->
  let limit := Z.min max_sessions telnet.EMBSH_MAX_SESSIONS in
  let r := telnet.find_from n max_sessions in_use i in
  (r = -1 /\ forall j, i <= j < limit -> in_use !!! Z.to_nat j = true) \/
  (i <= r < limit /\ in_use !!! Z.to_nat r = false /\
   forall j, i <= j < r -> in_use !!! Z.to_nat j = true).
Proof.
  unfold telnet.EMBSH_MAX_SESSIONS.
  induction n as [|n IH]; intros i Hi Hfuel; cbv zeta; [lia|].
  cbn [telnet.find_from]. unfold telnet.EMBSH_MAX_SESSIONS.
  destruct (Z.ltb_spec i max_sessions) as [H1|H1]; cbn [andb];
    [destruct (Z.ltb_spec i 8) as [H2|H2]|].
  - destruct (in_use !!! Z.to_nat i) eqn:Hslot; cbn [negb].
    + rewrite u32_small by lia.
      assert (Hi1 : 0 <= i + 1) by lia.
      assert (Hf1 : (Z.to_nat (8 - (i + 1)) < n)%nat) by lia.
      destruct (IH (i + 1) Hi1 Hf1) as [[Hr Hall]|(Hr & Hfree & Hall)].
      * left. split; [done|]. intros j Hj.
        destruct (decide (j = i)) as [->|]; [done|]. apply Hall. lia.
      * right. split; [lia|]. split; [done|]. intros j Hj.
        destruct (decide (j = i)) as [->|]; [done|]. apply Hall. lia.
    + right. split; [lia|]. split; [done|]. intros j Hj. lia.
  - left. split; [done|]. intros j Hj. lia.
  - left. split; [done|]. intros j Hj. lia.
Qed.

(** X20.  [FindFreeSlot] returns the lowest index below both
    [max_sessions] and [EMBSH_MAX_SESSIONS] whose slot is not in use, and
    -1 exactly when all those slots are in use; it never returns a slot
    at or beyond [max_sessions]. *)
Theorem FindFreeSlot_spec (max_sessions : Z) (in_use : list bool) :
  let limit := Z.min max_sessions telnet.EMBSH_MAX_SESSIONS in
  let r := telnet.FindFreeSlot max_sessions in_use in
  (r = -1 /\ forall j, 0 <= j < limit -> in_use !!! Z.to_nat j = true) \/
  (0 <= r < limit /\ in_use !!! Z.to_nat r = false /\
   forall j, 0 <= j < r -> in_use !!! Z.to_nat j = true).
Proof.
  apply find_from_spec; [done|]. unfold telnet.EMBSH_MAX_SESSIONS. lia.
Qed.
Lemma invoked_SessionWrite (str : list Z) (w : World) :
  invoked (SessionWrite str w) = invoked w.
Proof. unfold SessionWrite. by destruct (_ && _). Qed.

Lemma invoked_SessionWriteN (buf : list Z) (len : Z) (w : World) :
  invoked (SessionWriteN buf len w) = invoked w.
Proof. unfold SessionWriteN. by destruct (_ && _). Qed.

Lemma invoked_eat_line_pair (w : World) : invoked (editor.eat_line_pair w) = invoked w.
Proof.
  unfold editor.eat_line_pair. destruct (rx w); [done|]. by destruct (_ || _).
Qed.

Lemma invoked_on_byte (username password : list Z) (l : Auth.locals) (w : World) (byte : Z) :
  match Auth.on_byte username password l w byte with
  | inl (_, w') | inr (_, w') => invoked w' = invoked w
  end.
Proof.
  unfold Auth.on_byte.
  repeat case_match; simplify_eq;
    rewrite ?invoked_SessionWrite, ?invoked_SessionWriteN; sess_simpl;
    rewrite ?invoked_SessionWrite, ?invoked_SessionWriteN, ?invoked_eat_line_pair;
    sess_simpl; rewrite ?invoked_SessionWrite; done.
Qed.

Lemma invoked_loop (username password : list Z) (n : nat) : forall l w,
  invoked (Auth.loop n username password l w).2 = invoked w.
Proof.
  induction n as [|n IH]; intros l w; [done|]. cbn [Auth.loop].
  destruct (_ && _); [|done]. destruct (rx w) as [|byte rest]; [done|].
  pose proof (invoked_on_byte username password l (with_rx rest w) byte) as Hb.
  destruct (Auth.on_byte username password l (with_rx rest w) byte) as [[l' w']|[l' w']].
  - done.
  - by rewrite IH.
Qed.

Lemma write_fn_on_byte (username password : list Z) (l : Auth.locals) (w : World) (byte : Z) :
  match Auth.on_byte username password l w byte with
  | inl (_, w') | inr (_, w') => write_fn (sess w') = write_fn (sess w)
  end.
Proof.
  unfold Auth.on_byte.
  destruct (if telnet_mode (sess w) then editor.FilterIac (sess w) byte else (byte, sess w))
    as [ch s1] eqn:Hf.
  assert (Hs1 : write_fn s1 = write_fn (sess w)).
  { destruct (telnet_mode (sess w)); [|by inversion Hf].
    revert Hf. unfold editor.FilterIac. repeat case_match; intros Hf; by inversion Hf. }
  repeat case_match; simplify_eq;
    repeat (rewrite ?sess_eat_line_pair; sess_norm); done.
Qed.

Lemma write_fn_loop (username password : list Z) (n : nat) : forall l w,
  write_fn (sess (Auth.loop n username password l w).2) = write_fn (sess w).
Proof.
  induction n as [|n IH]; intros l w; [done|]. cbn [Auth.loop].
  destruct (_ && _); [|done]. destruct (rx w) as [|byte rest]; [done|].
  pose proof (write_fn_on_byte username password l (with_rx rest w) byte) as Hb.
  destruct (Auth.on_byte username password l (with_rx rest w) byte) as [[l' w']|[l' w']].
  - done.
  - by rewrite IH.
Qed.

(** X21.  The login guards the shell.  On a session that requires
    authentication, if the pair of configured credentials is never among
    the pairs submitted to [RunAuth], then [SessionLoop] runs no command,
    whatever the client sends after its attempts: it writes
    [Authentication failed.] last, leaves the session not authenticated,
    and closes it. *)
Theorem SessionLoop_auth_gate (n : nat) (E : Externs) (reg : CommandRegistry)
    (banner : option (list Z)) (prompt username password : list Z) (w : World) :
  auth_required (sess w) = true -> authenticated (sess w) = false ->
  auth_attempts (sess w) = 0 -> write_fn (sess w) <> 0 ->
  let greeted := match banner with Some b => SessionWrite b w | None => w end in
  (username, password) ∉ Auth.tried (RunAuth_full username password greeted).1 ->
  let w' := (telnet.SessionLoop n E reg banner prompt username password w).2 in
  invoked w' = invoked w /\
  authenticated (sess w') = false /\ active (sess w') = false /\
  last (tx w') = Some (lit "Authentication failed." ++ CRLF).
Proof.
  intros Hreq Hauth Hatt Hw greeted Hnever w'.
  assert (Hg : sess greeted = sess w /\ invoked greeted = invoked w).
  { subst greeted. destruct banner; by rewrite ?sess_SessionWrite, ?invoked_SessionWrite. }
  destruct Hg as [Hgs Hgi].
  assert (Hpend : pending username password Auth.locals0
                    (SessionWrite (lit "Username: ") greeted)).
  { unfold pending. rewrite sess_SessionWrite, Hgs, Hauth, Hatt.
    unfold Auth.kMaxAttempts. split_and!; try done. apply not_elem_of_nil. }
  pose proof (loop_final username password
                (S (length (rx (SessionWrite (lit "Username: ") greeted))))
                Auth.locals0 _ Hpend) as Hfinal.
  fold (RunAuth_full username password greeted) in Hfinal.
  destruct Hfinal as [(Hna & _)|(_ & fails & Htried & _)].
  2:{ exfalso. apply Hnever. rewrite Htried. apply elem_of_app. right. by left. }
  subst w'. unfold telnet.SessionLoop. cbv zeta. fold greeted.
  rewrite Hgs, Hreq. unfold RunAuth. rewrite Hna. cbn [negb snd].
  split_and!.
  - cbn [invoked on_sess with_sess]. rewrite invoked_SessionWrite.
    unfold RunAuth_full. by rewrite invoked_loop, invoked_SessionWrite.
  - by sess_norm.
  - by sess_norm.
  - cbn [tx on_sess with_sess]. rewrite tx_SessionWrite; [by rewrite last_snoc| |done].
    unfold RunAuth_full. by rewrite write_fn_loop, sess_SessionWrite, Hgs.
Qed.

Lemma SessionLoop_auth_gate_witness :
  let w := with_rx (lit "admin" ++ CRLF ++ lit "guess" ++ CRLF ++ lit "reboot" ++ CRLF)
             (on_sess (telnet.accept_init true) World0) in
  invoked (telnet.SessionLoop 100 idle reg_hello None prompt0
             (lit "admin") (lit "secret") w).2 = [].
Proof.
  intros w.
  apply (SessionLoop_auth_gate 100 idle reg_hello None prompt0 (lit "admin") (lit "secret") w).
  - reflexivity.
  - reflexivity.
  - reflexivity.
  - discriminate.
  - vm_compute. intros Hin. apply list_elem_of_singleton in Hin. discriminate Hin.
Defined.

(** ** The help command *)

Lemma help_line_nonzero (e : CmdEntry) :
  Forall (fun b => b <> 0) (name e) -> Forall (fun b => b <> 0) (default [] (desc e)) ->
  help_line e <> [] /\ Forall (fun b => b <> 0) (help_line e).
Proof.
  intros Hn Hd. split; [done|]. unfold help_line, pad16.
  repeat (apply Forall_app; split); try done.
  - by repeat constructor.
  - apply Forall_replicate. by unfold SPACE.
  - by repeat constructor.
  - by repeat constructor.
Qed.

Lemma HelpCommand_steps (E : Externs) (es : list CmdEntry) : forall w,
  write (out w) = Some write_adapter -> write_fn (sess w) <> 0 ->
  Forall (fun e => Forall (fun b => b <> 0) (name e) /\
                   Forall (fun b => b <> 0) (default [] (desc e))) es ->
  let w' := fold_left (fun w cmd => (ShellPrintf E (Some (help_line cmd)) w).2) es w in
  tx w' = tx w ++ map (fun e => take 511 (help_line e)) es /\
  sess w' = sess w /\ out w' = out w /\ invoked w' = invoked w.
Proof.
  induction es as [|e es IH]; intros w Hout Hw Hes; cbv zeta.
  - simpl. by rewrite app_nil_r.
  - apply Forall_cons in Hes as [[Hn Hd] Hes].
    destruct (help_line_nonzero e Hn Hd) as [Hne Hnz].
    cbn [fold_left map].
    rewrite (ShellPrintf_calls_sink E w (help_line e) write_adapter Hout Hne Hnz).
    cbn [snd call_write].
    assert (Htake : take 511 (help_line e) <> []).
    { unfold help_line. cbn [app take]. done. }
    rewrite SessionWrite_eq by done.
    match goal with
    | |- context [fold_left _ es ?w1] => destruct (IH w1) as (I1 & I2 & I3 & I4); try done
    end.
    rewrite I1, I2, I3, I4. cbn [tx sess out invoked with_tx with_sunk].
    by rewrite <- app_assoc.
Qed.

(** X22.  [help] lists the table.  Run as a command of a session (the
    output sink is the session's adapter), [HelpCommand] writes one line
    for each registered command, in the order of registration: two
    spaces, the name padded with spaces to 16 columns, [ - ], the
    description (nothing for a null description) and CR LF, cut to 511
    bytes.  It changes nothing else of the session and invokes no
    command. *)
Theorem HelpCommand_lists (E : Externs) (reg : CommandRegistry) (w : World) :
  write (out w) = Some write_adapter -> write_fn (sess w) <> 0 -> c_texts reg ->
  let w' := HelpCommand E reg w in
  tx w' = tx w ++ map (fun e => take 511 (help_line e)) (used reg) /\
  sess w' = sess w /\ out w' = out w /\ invoked w' = invoked w.
Proof.
  intros Hout Hw Hreg. unfold HelpCommand, ForEach. by apply HelpCommand_steps.
Qed.

Lemma HelpCommand_lists_witness :
  let w := with_out (mkOutput (Some write_adapter) session_ptr) World0 in
  tx (HelpCommand idle reg_two w)
  = [lit "  status           - " ++ CRLF; lit "  stats            - " ++ CRLF].
Proof.
  intros w.
  assert (Hreg : c_texts reg_two).
  { unfold c_texts. apply (bool_decide_unpack _). by vm_compute. }
  destruct (HelpCommand_lists idle reg_two w eq_refl) as (Htx & _); [discriminate|done|].
  rewrite Htx. reflexivity.
Defined.

(** X23.  A slot's history outlives its connection.  The initialisation
    of a session in [AcceptLoop] resets the line, the escape and IAC
    states and the login, but not the history ring: on the new
    connection, the first Up arrow recalls the last line entered on the
    connection that held the slot before. *)
Theorem accept_init_keeps_history (credentials : bool) (w : World) :
  hist_ok (sess w) -> length (line_buf (sess w)) = Z.to_nat EMBSH_LINE_BUF_SIZE ->
  0 < hist_count (sess w) ->
  let last := cstr (row (history (sess w)) (last_slot (sess w))) in
  last <> [] -> Z.of_nat (length last) < EMBSH_LINE_BUF_SIZE ->
  let w1 := on_sess (telnet.accept_init credentials) w in
  let w2 := editor.HistoryUp w1 in
  history (sess w1) = history (sess w) /\ hist_count (sess w1) = hist_count (sess w) /\
  hist_write (sess w1) = hist_write (sess w) /\
  cstr (line_buf (sess w2)) = last /\ tx w2 = tx w ++ [last].
Proof.
  intros Hh Hlen Hcount last Hne Hfit w1 w2.
  split_and!; try done.
  all: destruct (HistoryUp_last w1) as (U1 & _ & U3 & _); try done.
  all: try (split; [done|by vm_compute]).
  all: try discriminate.
Qed.

Lemma accept_init_keeps_history_witness :
  let w := on_sess editor.PushHistory (typed (lit "reboot") World0) in
  tx (editor.HistoryUp (on_sess (telnet.accept_init true) w)) = tx w ++ [lit "reboot"].
Proof.
  intros w.
  apply (accept_init_keeps_history true w).
  - apply PushHistory_hist_ok. by apply Session0_hist_ok.
  - reflexivity.
  - by vm_compute.
  - by vm_compute.
  - by vm_compute.
Defined.
